(** * svennescamping-backend: transaction aggregation and enrichment engine

    A shallow embedding of the Go packages [statushelpers], [prices],
    [cache], [repository] and [services], and the properties of the
    specification that are settled on it.

    Conventions of the embedding.
    - A Go [string] is a Rocq [string] (a sequence of bytes).  The functions
      of Go's [strings] package are written out on bytes; they coincide with
      Go's on ASCII text.  Letters and white space outside ASCII (which Go
      handles rune by rune) are outside the model.
    - A Go [float64] is a primitive binary64 [float]; [==], [<], [<=] are
      [PrimFloat.eqb], [PrimFloat.ltb], [PrimFloat.leb], so rounding, NaN and
      infinities behave as in the program.
    - A Go [int] is a [Z] (no overflow occurs in the modelled code: the only
      arithmetic on an [int] is a comparison).
    - A Go [error] is the format and arguments it was made from; [None] is
      [nil].
    - Code with effects (the cache, the clock, the provider adapters and the
      logger) runs in a state monad over [World]. *)

From Stdlib Require Import Floats ZArith Ascii String List Permutation Sorted Lia.
From stdpp Require Import gmap strings list sorting.

Local Open Scope Z_scope.

(* ===================================================================== *)
(** * Go's [strings] package, on bytes *)
(* ===================================================================== *)

Module Strings.

Fixpoint Map (mapping : ascii -> ascii) (s : string) : string :=
  match s with
  | EmptyString => EmptyString
  | String c s' => String (mapping c) (Map mapping s')
  end.

Definition lowerByte (c : ascii) : ascii :=
  let n := N_of_ascii c in
  if ((65 <=? n) && (n <=? 90))%N then ascii_of_N (n + 32) else c.

Definition upperByte (c : ascii) : ascii :=
  let n := N_of_ascii c in
  if ((97 <=? n) && (n <=? 122))%N then ascii_of_N (n - 32) else c.

Definition ToLower (s : string) : string := Map lowerByte s.
Definition ToUpper (s : string) : string := Map upperByte s.

(** [unicode.IsSpace] restricted to ASCII: tab, LF, VT, FF, CR, space. *)
Definition isSpace (c : ascii) : bool := Ascii.is_space c.

Fixpoint TrimLeftFunc (f : ascii -> bool) (s : string) : string :=
  match s with
  | EmptyString => EmptyString
  | String c s' => if f c then TrimLeftFunc f s' else s
  end.

Definition TrimRightFunc (f : ascii -> bool) (s : string) : string :=
  String.rev (TrimLeftFunc f (String.rev s)).

Definition TrimFunc (f : ascii -> bool) (s : string) : string :=
  TrimRightFunc f (TrimLeftFunc f s).

Fixpoint ContainsByte (cutset : string) (c : ascii) : bool :=
  match cutset with
  | EmptyString => false
  | String d cutset' => Ascii.eqb c d || ContainsByte cutset' c
  end.

(** [strings.Trim(s, cutset)]: leading and trailing bytes of [cutset]
    removed. *)
Definition Trim (s cutset : string) : string := TrimFunc (ContainsByte cutset) s.

Definition TrimSpace (s : string) : string := TrimFunc isSpace s.

Fixpoint HasPrefix (s pre : string) {struct pre} : bool :=
  match pre, s with
  | EmptyString, _ => true
  | String _ _, EmptyString => false
  | String a pre', String b s' => Ascii.eqb a b && HasPrefix s' pre'
  end.

(** [strings.Contains(s, substr)]; the empty string is contained in every
    string. *)
Fixpoint Contains (s substr : string) : bool :=
  HasPrefix s substr ||
  match s with
  | EmptyString => false
  | String _ s' => Contains s' substr
  end.

(** [strings.Fields]: the maximal runs of bytes that are not white space. *)
Definition Fields (s : string) : list string := String.words s.

(** [strings.EqualFold] on ASCII: equality up to the case of letters. *)
Definition EqualFold (s t : string) : bool :=
  String.eqb (ToLower s) (ToLower t).

(** [strings.Split(s, sep)] for a separator [sep] of one byte: the pieces
    of [s] between the separators, one more than there are separators. *)
Fixpoint Split (s : string) (sep : ascii) : list string :=
  match s with
  | EmptyString => [EmptyString]
  | String c s' =>
      if Ascii.eqb c sep then EmptyString :: Split s' sep
      else match Split s' sep with
           | piece :: pieces => String c piece :: pieces
           | [] => [String c EmptyString]
           end
  end.

End Strings.

(* ===================================================================== *)
(** * Package [consts] *)
(* ===================================================================== *)

(** A Go map literal with string keys and values, kept as the list of its
    entries.  [m[k]] is [GoMap.index]; a [range] loop that returns at its
    first hit is [GoMap.rangeFind].  Go visits the entries of a map in an
    unspecified order: the loops of [statushelpers] are independent of it
    because at most one key of each table can hit (lemma
    [rangeFind_order_irrelevant] below). *)
Module GoMap.

Definition t : Type := list (string * string).

Definition index (m : t) (k : string) : option string :=
  snd <$> List.find (fun kv => String.eqb (fst kv) k) m.

Definition rangeFind (hit : string -> bool) (m : t) : option string :=
  snd <$> List.find (fun kv => hit (fst kv)) m.

End GoMap.

Module consts.

Definition PAYMENT_SOURCE_STRIPE : string := "stripe".
Definition PAYMENT_SOURCE_VIPPS : string := "vipps".
Definition PAYMENT_SOURCE_ZETTLE : string := "zettle".

Definition TRANSACTION_STATUS_PENDING : string := "pending".
Definition TRANSACTION_STATUS_SUCCEEDED : string := "succeeded".
Definition TRANSACTION_STATUS_FAILED : string := "failed".
Definition TRANSACTION_STATUS_CANCELLED : string := "cancelled".
Definition TRANSACTION_STATUS_REFUNDED : string := "refunded".
Definition TRANSACTION_STATUS_PROCESSING : string := "processing".
Definition TRANSACTION_STATUS_EXPIRED : string := "expired".
Definition TRANSACTION_STATUS_UNKNOWN : string := "unknown".

Definition StripeStatusMapping : GoMap.t :=
  [ ("requires_payment_method", TRANSACTION_STATUS_PENDING);
    ("requires_confirmation", TRANSACTION_STATUS_PENDING);
    ("requires_action", TRANSACTION_STATUS_PENDING);
    ("processing", TRANSACTION_STATUS_PROCESSING);
    ("requires_capture", TRANSACTION_STATUS_PROCESSING);
    ("succeeded", TRANSACTION_STATUS_SUCCEEDED);
    ("canceled", TRANSACTION_STATUS_CANCELLED);
    ("payment_failed", TRANSACTION_STATUS_FAILED);
    ("refunded", TRANSACTION_STATUS_REFUNDED);
    ("partially_refunded", TRANSACTION_STATUS_REFUNDED) ].

Definition VippsStatusMapping : GoMap.t :=
  [ ("INITIATE", TRANSACTION_STATUS_PENDING);
    ("REGISTER", TRANSACTION_STATUS_PENDING);
    ("RESERVE", TRANSACTION_STATUS_PROCESSING);
    ("CAPTURE", TRANSACTION_STATUS_SUCCEEDED);
    ("SALE", TRANSACTION_STATUS_SUCCEEDED);
    ("CANCEL", TRANSACTION_STATUS_CANCELLED);
    ("VOID", TRANSACTION_STATUS_CANCELLED);
    ("REFUND", TRANSACTION_STATUS_REFUNDED);
    ("FAILED", TRANSACTION_STATUS_FAILED);
    ("REJECTED", TRANSACTION_STATUS_FAILED);
    ("EXPIRED", TRANSACTION_STATUS_EXPIRED);
    ("ABANDONED", TRANSACTION_STATUS_CANCELLED) ].

Definition ZettleStatusMapping : GoMap.t :=
  [ ("PENDING", TRANSACTION_STATUS_PENDING);
    ("COMPLETED", TRANSACTION_STATUS_SUCCEEDED);
    ("FAILED", TRANSACTION_STATUS_FAILED);
    ("CANCELLED", TRANSACTION_STATUS_CANCELLED);
    ("REFUNDED", TRANSACTION_STATUS_REFUNDED);
    ("VOIDED", TRANSACTION_STATUS_CANCELLED);
    ("PROCESSING", TRANSACTION_STATUS_PROCESSING);
    ("AUTHORIZED", TRANSACTION_STATUS_PROCESSING);
    ("CAPTURED", TRANSACTION_STATUS_SUCCEEDED) ].

Definition TRANSACTION_LIMIT_MIN : Z := 1.
Definition TRANSACTION_LIMIT_DEFAULT : Z := 25.
Definition TRANSACTION_LIMIT_MAX : Z := 1000.

End consts.

(* ===================================================================== *)
(** * Package [statushelpers] *)
(* ===================================================================== *)

Module statushelpers.
Import Strings consts.

Definition normalizeStripeStatus (status : string) : string :=
  let lowerStatus := ToLower status in
  match GoMap.index StripeStatusMapping lowerStatus with
  | Some mappedStatus => mappedStatus
  | None =>
      match GoMap.rangeFind (fun stripeStatus => EqualFold status stripeStatus)
              StripeStatusMapping with
      | Some unifiedStatus => unifiedStatus
      | None => TRANSACTION_STATUS_UNKNOWN
      end
  end.

Definition normalizeVippsStatus (status : string) : string :=
  match GoMap.index VippsStatusMapping status with
  | Some mappedStatus => mappedStatus
  | None =>
      let lowerStatus := ToLower status in
      match GoMap.rangeFind (fun vippsStatus => EqualFold lowerStatus vippsStatus)
              VippsStatusMapping with
      | Some unifiedStatus => unifiedStatus
      | None => TRANSACTION_STATUS_UNKNOWN
      end
  end.

Definition normalizeZettleStatus (status : string) : string :=
  match GoMap.index ZettleStatusMapping status with
  | Some mappedStatus => mappedStatus
  | None =>
      let lowerStatus := ToLower status in
      match GoMap.rangeFind (fun zettleStatus => EqualFold lowerStatus zettleStatus)
              ZettleStatusMapping with
      | Some unifiedStatus => unifiedStatus
      | None => TRANSACTION_STATUS_UNKNOWN
      end
  end.

Definition inferStatusFromCommonNames (status : string) : string :=
  let lowerStatus := ToLower status in
  if Contains lowerStatus "success" ||
     Contains lowerStatus "complete" ||
     Contains lowerStatus "paid" ||
     Contains lowerStatus "capture"
  then TRANSACTION_STATUS_SUCCEEDED
  else if Contains lowerStatus "pending" ||
          Contains lowerStatus "waiting" ||
          Contains lowerStatus "initiated"
  then TRANSACTION_STATUS_PENDING
  else if Contains lowerStatus "processing" ||
          Contains lowerStatus "authorized"
  then TRANSACTION_STATUS_PROCESSING
  else if Contains lowerStatus "fail" ||
          Contains lowerStatus "reject" ||
          Contains lowerStatus "decline"
  then TRANSACTION_STATUS_FAILED
  else if Contains lowerStatus "cancel" ||
          Contains lowerStatus "void" ||
          Contains lowerStatus "abandon"
  then TRANSACTION_STATUS_CANCELLED
  else if Contains lowerStatus "refund"
  then TRANSACTION_STATUS_REFUNDED
  else if Contains lowerStatus "expir" ||
          Contains lowerStatus "timeout"
  then TRANSACTION_STATUS_EXPIRED
  else TRANSACTION_STATUS_UNKNOWN.

Definition NormalizeTransactionStatus (providerStatus source : string) : string :=
  let normalizedStatus := ToUpper (TrimSpace providerStatus) in
  let src := ToLower source in
  if String.eqb src PAYMENT_SOURCE_STRIPE then normalizeStripeStatus normalizedStatus
  else if String.eqb src PAYMENT_SOURCE_VIPPS then normalizeVippsStatus normalizedStatus
  else if String.eqb src PAYMENT_SOURCE_ZETTLE then normalizeZettleStatus normalizedStatus
  else inferStatusFromCommonNames normalizedStatus.

Definition IsSuccessfulStatus (status : string) : bool :=
  String.eqb status TRANSACTION_STATUS_SUCCEEDED.

Definition finalStatuses : list string :=
  [ TRANSACTION_STATUS_SUCCEEDED;
    TRANSACTION_STATUS_FAILED;
    TRANSACTION_STATUS_CANCELLED;
    TRANSACTION_STATUS_REFUNDED;
    TRANSACTION_STATUS_EXPIRED ].

(** The loop over [finalStatuses] returns [true] at the first equal one. *)
Definition IsFinalStatus (status : string) : bool :=
  existsb (fun finalStatus => String.eqb status finalStatus) finalStatuses.

Definition descriptions : GoMap.t :=
  [ (TRANSACTION_STATUS_PENDING, "Payment is waiting to be processed");
    (TRANSACTION_STATUS_SUCCEEDED, "Payment completed successfully");
    (TRANSACTION_STATUS_FAILED, "Payment failed or was declined");
    (TRANSACTION_STATUS_CANCELLED, "Payment was cancelled");
    (TRANSACTION_STATUS_REFUNDED, "Payment was refunded");
    (TRANSACTION_STATUS_PROCESSING, "Payment is being processed");
    (TRANSACTION_STATUS_EXPIRED, "Payment session expired");
    (TRANSACTION_STATUS_UNKNOWN, "Payment status is unknown") ].

Definition GetStatusDescription (status : string) : string :=
  match GoMap.index descriptions status with
  | Some description => description
  | None => "Unknown payment status"
  end.

(** The eight unified statuses. *)
Definition unifiedStatuses : list string :=
  [ TRANSACTION_STATUS_PENDING; TRANSACTION_STATUS_PROCESSING;
    TRANSACTION_STATUS_SUCCEEDED; TRANSACTION_STATUS_FAILED;
    TRANSACTION_STATUS_CANCELLED; TRANSACTION_STATUS_REFUNDED;
    TRANSACTION_STATUS_EXPIRED; TRANSACTION_STATUS_UNKNOWN ].

(** ** The taxonomy as the specification words it *)

(** The explicit mapping table of a known provider, by lower-cased source. *)
Definition providerTable (src : string) : option GoMap.t :=
  if String.eqb src PAYMENT_SOURCE_STRIPE then Some StripeStatusMapping
  else if String.eqb src PAYMENT_SOURCE_VIPPS then Some VippsStatusMapping
  else if String.eqb src PAYMENT_SOURCE_ZETTLE then Some ZettleStatusMapping
  else None.

(** Step 1: the entry of the table whose key is the raw status, up to the
    case of letters. *)
Definition tableLookup (table : GoMap.t) (raw : string) : option string :=
  GoMap.rangeFind (fun key => EqualFold raw key) table.

(** Step 2: keyword sets in their priority order. *)
Definition keywordCategories : list (list string * string) :=
  [ (["success"; "complete"; "paid"; "capture"], TRANSACTION_STATUS_SUCCEEDED);
    (["pending"; "waiting"; "initiated"], TRANSACTION_STATUS_PENDING);
    (["processing"; "authorized"], TRANSACTION_STATUS_PROCESSING);
    (["fail"; "reject"; "decline"], TRANSACTION_STATUS_FAILED);
    (["cancel"; "void"; "abandon"], TRANSACTION_STATUS_CANCELLED);
    (["refund"], TRANSACTION_STATUS_REFUNDED);
    (["expir"; "timeout"], TRANSACTION_STATUS_EXPIRED) ].

Definition keywordScan (lowered : string) : option string :=
  snd <$> List.find (fun cat => existsb (Contains lowered) (fst cat))
                    keywordCategories.

Definition normalizeStatus_spec (raw source : string) : string :=
  match providerTable (ToLower source) with
  | Some table =>
      default TRANSACTION_STATUS_UNKNOWN (tableLookup table (TrimSpace raw))
  | None =>
      default TRANSACTION_STATUS_UNKNOWN (keywordScan (ToLower (TrimSpace raw)))
  end.

(** The keys of a table are pairwise different even up to case. *)
Definition foldedKeysDistinct (m : GoMap.t) : Prop :=
  NoDup (List.map (fun kv => ToLower (fst kv)) m).

End statushelpers.

(* ===================================================================== *)
(** * Go values shared by the packages *)
(* ===================================================================== *)

(** An [error] made by [fmt.Errorf]: the format and its arguments, as
    passed.  An argument of kind [ArgError] under [%w] is the wrapped
    cause.  Errors of the platform (file system, CSV reader, number parser,
    provider adapters) are values of the same type. *)
Inductive error : Type :=
| Errorf (format : string) (args : list fmtArg)
with fmtArg : Type :=
| ArgString (s : string)
| ArgInt (n : Z)
| ArgFloat (f : float)
| ArgError (e : error).

(** [float64(n)] for an [int] [n]. *)
Definition float64 (n : Z) : float :=
  if 0 <=? n then PrimFloat.of_uint63 (Uint63.of_Z n)
  else PrimFloat.opp (PrimFloat.of_uint63 (Uint63.of_Z (- n))).

(** [len] of a slice, as an [int]. *)
Definition len {A} (l : list A) : Z := Z.of_nat (length l).

(** [len] of a string: its number of bytes. *)
Definition lenString (s : string) : Z := Z.of_nat (String.length s).

(* ===================================================================== *)
(** * Package [prices] *)
(* ===================================================================== *)

Module prices.
Import Strings.

Record Price : Type := mkPrice {
  Product : string;
  Price_ : float;      (* field [Price] of the Go struct *)
  Currency : string
}.

Record PriceService : Type := mkPriceService { prices : list Price }.

(** The untyped constants [0.05] and [0.4], converted to [float64]. *)
Definition c0_05 : float := 0x1.999999999999ap-5%float.
Definition c0_4 : float := 0x1.999999999999ap-2%float.

Section Loading.
(** The platform under [loadPricesFromCSV]: [os.Open] followed by reading
    the file, [csv.Reader.ReadAll] with [Comma = ';'], and
    [strconv.ParseFloat(_, 64)]. *)
Variable os_Open : string -> string + error.
Variable csv_ReadAll : string -> list (list string) + error.
Variable strconv_ParseFloat : string -> float + error.

(** The loop over [records[1:]]; [i] is the loop index.  Returns the
    slice appended to so far and the error, if any. *)
Fixpoint loadRecords (i : Z) (records : list (list string)) (acc : list Price)
  : list Price * option error :=
  match records with
  | [] => (acc, None)
  | record :: rest =>
      match record with
      | [c0; c1; c2] =>
          match strconv_ParseFloat c1 with
          | inr err =>
              (acc, Some (Errorf "invalid price value at line %d: %w"
                                 [ArgInt (i + 2); ArgError err]))
          | inl price =>
              loadRecords (i + 1) rest
                (acc ++ [mkPrice (TrimSpace c0) price (TrimSpace c2)])
          end
      | _ =>
          (acc, Some (Errorf "invalid record at line %d: expected 3 columns, got %d"
                             [ArgInt (i + 2); ArgInt (len record)]))
      end
  end.

(** Returns the service as the call leaves it, and the error. *)
Definition loadPricesFromCSV (ps : PriceService) (filePath : string)
  : PriceService * option error :=
  match os_Open filePath with
  | inr err => (ps, Some (Errorf "failed to open CSV file: %w" [ArgError err]))
  | inl file =>
      match csv_ReadAll file with
      | inr err => (ps, Some (Errorf "failed to read CSV records: %w" [ArgError err]))
      | inl records =>
          if len records <? 2 then
            (ps, Some (Errorf "CSV file must contain at least header and one data row" []))
          else
            let '(ps', err) := loadRecords 0 (tail records) (prices ps) in
            (mkPriceService ps', err)
      end
  end.

Definition NewPriceService (csvFilePath : string) : PriceService + error :=
  let service := mkPriceService [] in
  match loadPricesFromCSV service csvFilePath with
  | (_, Some err) => inr (Errorf "failed to load prices from CSV: %w" [ArgError err])
  | (service', None) => inl service'
  end.
End Loading.

Definition GetProductsByPrice (ps : PriceService) (price : float)
  : list Price + error :=
  let matchingProducts :=
    List.filter (fun p => PrimFloat.eqb (Price_ p) price) (prices ps) in
  if len matchingProducts =? 0 then
    inr (Errorf "no products found with price %.2f" [ArgFloat price])
  else inl matchingProducts.

Definition GetProductsByPriceRange (ps : PriceService) (minPrice maxPrice : float)
  : list Price + error :=
  if PrimFloat.ltb maxPrice minPrice then
    inr (Errorf "minimum price cannot be greater than maximum price" [])
  else
    inl (List.filter
           (fun p => PrimFloat.leb minPrice (Price_ p) && PrimFloat.leb (Price_ p) maxPrice)
           (prices ps)).

(** The body of the inner loop of [fuzzyMatch] for one description word
    and one product word: does it reach a [matchCount++; break]? *)
Definition wordsMatch (dWord pWord : string) : bool :=
  let cleanPWord := Trim pWord "/-,." in
  let cleanDWord := Trim dWord "/-,." in
  ((2 <? lenString cleanPWord) &&
     (Contains cleanDWord cleanPWord || Contains cleanPWord cleanDWord))
  || (String.eqb cleanPWord "1-2" &&
        (String.eqb cleanDWord "2" || String.eqb cleanDWord "1"))
  || (String.eqb cleanPWord "3" &&
        (String.eqb cleanDWord "3" || String.eqb cleanDWord "three"))
  || (String.eqb cleanPWord "4" &&
        (String.eqb cleanDWord "4" || String.eqb cleanDWord "four"))
  || (String.eqb cleanPWord "pers" &&
        (String.eqb cleanDWord "people" || String.eqb cleanDWord "person")).

(** The inner loop: the product words are tried in order until one
    matches ([break]). *)
Fixpoint innerLoop (dWord : string) (prodWords : list string) : bool :=
  match prodWords with
  | [] => false
  | pWord :: rest => if wordsMatch dWord pWord then true else innerLoop dWord rest
  end.

(** The outer loop over the description words, threading [matchCount]. *)
Fixpoint outerLoop (descWords prodWords : list string) (matchCount : Z) : Z :=
  match descWords with
  | [] => matchCount
  | dWord :: rest =>
      outerLoop rest prodWords
        (if innerLoop dWord prodWords then matchCount + 1 else matchCount)
  end.

Definition fuzzyMatch (description productName : string) : bool :=
  let desc := ToLower (TrimSpace description) in
  let prod := ToLower (TrimSpace productName) in
  if String.eqb desc "" || String.eqb prod "" then false
  else if String.eqb desc prod then true
  else if Contains desc prod || Contains prod desc then true
  else
    let descWords := Fields desc in
    let prodWords := Fields prod in
    if len prodWords =? 0 then false
    else
      let matchCount := outerLoop descWords prodWords 0 in
      let threshold := PrimFloat.mul (float64 (len prodWords)) c0_4 in
      PrimFloat.leb threshold (float64 matchCount).

(** [for _, p := range l { if fuzzyMatch(description, p.Product) { return &p } }] *)
Definition firstFuzzy (description : string) (l : list Price) : option Price :=
  List.find (fun p => fuzzyMatch description (Product p)) l.

(** [|amount - p.Price|] as the closest-price loop computes it. *)
Definition priceDiff (amount : float) (p : Price) : float :=
  let diff := PrimFloat.sub amount (Price_ p) in
  if PrimFloat.ltb diff 0 then PrimFloat.opp diff else diff.

(** The closest-price loop, threading [closest] and [minDiff]. *)
Fixpoint closestLoop (amount : float) (rangeProducts : list Price)
    (closest : option Price) (minDiff : float) : option Price :=
  match rangeProducts with
  | [] => closest
  | p :: rest =>
      let diff := priceDiff amount p in
      if PrimFloat.ltb diff minDiff
      then closestLoop amount rest (Some p) diff
      else closestLoop amount rest closest minDiff
  end.

Definition strategy4 (ps : PriceService) (amount : float) (description : string)
  : option Price :=
  let tolerance := PrimFloat.mul amount c0_05 in
  match GetProductsByPriceRange ps (PrimFloat.sub amount tolerance)
                                   (PrimFloat.add amount tolerance) with
  | inl ((_ :: _) as rangeProducts) =>
      match (if negb (String.eqb description "")
             then firstFuzzy description rangeProducts else None) with
      | Some p => Some p
      | None => closestLoop amount rangeProducts None (PrimFloat.add tolerance 1)
      end
  | _ => None
  end.

(** Each floating-point operation is rounded on its own (no fused
    multiply-add), as the Go compiler does on amd64. *)
Definition FindBestProductMatch (ps : PriceService) (amount : float)
    (description : string) : option Price :=
  let res := GetProductsByPrice ps amount in
  match res with
  | inl [p] => Some p                                     (* Strategy 1 *)
  | _ =>
      match (if negb (String.eqb description "")
             then firstFuzzy description (prices ps) else None) with
      | Some p => Some p                                  (* Strategy 2 *)
      | None =>
          match res with
          | inl ((p0 :: _ :: _) as products) =>
              if negb (String.eqb description "") then   (* Strategy 3 *)
                match firstFuzzy description products with
                | Some p => Some p
                | None => Some p0
                end
              else strategy4 ps amount description
          | _ => strategy4 ps amount description          (* Strategy 4 *)
          end
      end
  end.

(** ** The fuzzy match as the specification words it

    A product word is hit when some description word matches it; the
    match succeeds when the number of product words hit is at least 40%
    of the number of product words. *)
Definition productWordHit (descWords : list string) (pWord : string) : bool :=
  existsb (fun dWord => wordsMatch dWord pWord) descWords.

Definition hitCount (descWords prodWords : list string) : Z :=
  len (List.filter (productWordHit descWords) prodWords).

Definition fuzzyMatch_spec (description productName : string) : bool :=
  let desc := ToLower (TrimSpace description) in
  let prod := ToLower (TrimSpace productName) in
  let prodWords := Fields prod in
  PrimFloat.leb (PrimFloat.mul (float64 (len prodWords)) c0_4)
                (float64 (hitCount (Fields desc) prodWords)).

(** The strings the word loops of [fuzzyMatch] run on: both inputs are
    non-empty once trimmed and lower-cased, are different, and neither
    contains the other. *)
Definition reachesWordLoops (description productName : string) : Prop :=
  let desc := ToLower (TrimSpace description) in
  let prod := ToLower (TrimSpace productName) in
  desc <> "" /\ prod <> "" /\ desc <> prod /\
  Contains desc prod = false /\ Contains prod desc = false.

(** ** The tolerance strategy as the specification words it *)

(** The entries whose price equals the amount. *)
Definition exactMatches (ps : PriceService) (amount : float) : list Price :=
  List.filter (fun p => PrimFloat.eqb (Price_ p) amount) (prices ps).

(** The first three strategies fail and no product name fuzzy-matches the
    description: no entry fuzzy-matches (so strategy 2 fails), and either
    no entry has the exact price, or several have it and there is no
    description to tell them apart (so strategies 1 and 3 fail). *)
Definition fallsToTolerance (ps : PriceService) (amount : float)
    (description : string) : Prop :=
  (forall p, In p (prices ps) -> fuzzyMatch description (Product p) = false) /\
  (exactMatches ps amount = [] \/
   (description = "" /\ (1 < length (exactMatches ps amount))%nat)).

(** The two ends of the window, amount - 5% and amount + 5%. *)
Definition windowLow (amount : float) : float :=
  PrimFloat.sub amount (PrimFloat.mul amount c0_05).
Definition windowHigh (amount : float) : float :=
  PrimFloat.add amount (PrimFloat.mul amount c0_05).

(** A price lies in the window when it lies between its two ends. *)
Definition between (a b x : float) : bool :=
  PrimFloat.leb a x && PrimFloat.leb x b.

Definition liesInWindow (amount : float) (p : Price) : bool :=
  between (windowLow amount) (windowHigh amount) (Price_ p) ||
  between (windowHigh amount) (windowLow amount) (Price_ p).

(** The entries the program looks at: those from the low end up to the
    high end, in list order. *)
Definition windowEntries (ps : PriceService) (amount : float) : list Price :=
  List.filter (fun p => between (windowLow amount) (windowHigh amount) (Price_ p))
              (prices ps).

(** [minDiff] before the closest-price loop: the tolerance plus one. *)
Definition diffBound (amount : float) : float :=
  PrimFloat.add (PrimFloat.mul amount c0_05) 1.

(** [p] is entry [i] of [l], no entry of [l] is closer to the amount, and
    no earlier entry is as close. *)
Definition firstClosest (amount : float) (l : list Price) (i : nat) (p : Price) : Prop :=
  l !! i = Some p /\
  forall (j : nat) (q : Price), l !! j = Some q ->
    PrimFloat.ltb (priceDiff amount q) (priceDiff amount p) = false /\
    ((j < i)%nat -> PrimFloat.leb (priceDiff amount q) (priceDiff amount p) = false).

(** ** The other look-ups of the service *)

Definition GetPriceByProduct (ps : PriceService) (product : string) : Price + error :=
  let product := TrimSpace product in
  match List.find (fun p => EqualFold (Product p) product) (prices ps) with
  | Some p => inl p
  | None => inr (Errorf "product '%s' not found" [ArgString product])
  end.

Definition GetAllPrices (ps : PriceService) : list Price := prices ps.

Definition GetAllProducts (ps : PriceService) : list string :=
  List.map Product (prices ps).

(** The price a data row of the file stands for, when it is well formed. *)
Definition rowPrice (strconv_ParseFloat : string -> float + error) (record : list string)
  : option Price :=
  match record with
  | [c0; c1; c2] =>
      match strconv_ParseFloat c1 with
      | inl price => Some (mkPrice (TrimSpace c0) price (TrimSpace c2))
      | inr _ => None
      end
  | _ => None
  end.

(** The error of the loading loop for a data row that is not well
    formed: a column-count error, or the error of the number parser. *)
Definition rowErrorAt (strconv_ParseFloat : string -> float + error) (line : Z)
    (bad : list string) (e : error) : Prop :=
  (length bad <> 3%nat /\
   e = Errorf "invalid record at line %d: expected 3 columns, got %d"
              [ArgInt line; ArgInt (len bad)]) \/
  (exists c0 c1 c2 err,
      bad = [c0; c1; c2] /\ strconv_ParseFloat c1 = inr err /\
      e = Errorf "invalid price value at line %d: %w" [ArgInt line; ArgError err]).

End prices.

(* ===================================================================== *)
(** * Package [entities] *)
(* ===================================================================== *)

Module entities.

(** A value of type [any]: absent, or a provider payload that the engine
    never inspects, kept as an opaque blob. *)
Inductive any : Type :=
| AnyNil
| AnyOpaque (blob : string).

(** [time.Time] is the instant, in nanoseconds since the Unix epoch. *)
Record Transaction : Type := mkTransaction {
  ID : string;
  ExternalID : string;
  Source : string;
  Amount : float;
  Currency : string;
  Status : string;
  CreatedAt : Z;
  CustomerID : string;
  Description : string;
  PaymentMethod : string;
  ReceiptURL : string;
  Metadata : gmap string string;
  TransactionType : string;
  Data : any;
  TransferData : any;
  CachedAt : Z;
  Product : option string;        (* *string *)
  ProductPrice : option float     (* *float64 *)
}.

(** [t.After(u)] *)
Definition After (t u : Z) : bool := u <? t.

End entities.

(* ===================================================================== *)
(** * github.com/patrickmn/go-cache, as far as the program uses it *)
(* ===================================================================== *)

Module gocache.

(** The dynamic types the program stores behind [interface{}]. *)
Inductive Value : Type :=
| ObjTransaction (t : entities.Transaction)
| ObjPrice (p : prices.Price).

Record Item : Type := mkItem {
  Object : Value;
  Expiration : Z         (* UnixNano; 0 when the item never expires *)
}.

Definition NoExpiration : Z := -1.
Definition DefaultExpiration : Z := 0.

Record Cache : Type := mkCache {
  defaultExpiration : Z;
  items : gmap string Item
}.

Definition Expired (now : Z) (it : Item) : bool :=
  (0 <? Expiration it) && (Expiration it <? now).

(** [c.Set(k, x, d)] at clock reading [now]. *)
Definition Set_ (c : Cache) (now : Z) (k : string) (x : Value) (d : Z) : Cache :=
  let d := if d =? DefaultExpiration then defaultExpiration c else d in
  let e := if 0 <? d then now + d else 0 in
  mkCache (defaultExpiration c) (<[k := mkItem x e]> (items c)).

Definition Get (c : Cache) (now : Z) (k : string) : option Value :=
  match items c !! k with
  | None => None
  | Some item => if Expired now item then None else Some (Object item)
  end.

(** [c.Items()]: the unexpired items. *)
Definition Items (c : Cache) (now : Z) : gmap string Item :=
  filter (fun kv : string * Item => Expired now kv.2 = false) (items c).

Definition Delete (c : Cache) (k : string) : Cache :=
  mkCache (defaultExpiration c) (delete k (items c)).

Definition Flush (c : Cache) : Cache := mkCache (defaultExpiration c) ∅.

(** The time to live [Set] gives an item: the default of the cache for
    [DefaultExpiration]. *)
Definition timeToLive (c : Cache) (d : Z) : Z :=
  if d =? DefaultExpiration then defaultExpiration c else d.

(** Has an item set at [now] with time to live [ttl] expired at [later]? *)
Definition goneAt (now ttl later : Z) : bool := (0 <? ttl) && (now + ttl <? later).

End gocache.

(** [time.Duration] values, in nanoseconds. *)
Module time.
Definition Hour : Z := 3600 * 1000000000.
End time.

(* ===================================================================== *)
(** * Package [cache] *)
(* ===================================================================== *)

(** Every method takes the reading [now] of the clock at the call.  A Go
    [range] over the map of items visits them in an unspecified order; here
    it is the order of [map_to_list], and no theorem below depends on it. *)
Module cache.
Import Strings entities.

Definition InMemoryCache : Type := gocache.Cache.

Definition NewInMemoryCache (defaultExpiration cleanupInterval : Z) : InMemoryCache :=
  gocache.mkCache defaultExpiration ∅.

Definition transactionKey (key : string) : string := "transaction:" +:+ key.
Definition priceKey (key : string) : string := "price:" +:+ key.

Definition SetTransaction (c : InMemoryCache) (now : Z) (key : string)
    (transaction : Transaction) (expiration : Z) : InMemoryCache :=
  gocache.Set_ c now (transactionKey key) (gocache.ObjTransaction transaction) expiration.

Definition GetTransaction (c : InMemoryCache) (now : Z) (key : string)
  : option Transaction :=
  match gocache.Get c now (transactionKey key) with
  | Some (gocache.ObjTransaction transaction) => Some transaction
  | _ => None
  end.

(** The body of the loop of [GetTransactions] for one entry. *)
Definition selectTransaction (pattern : string) (entry : string * gocache.Item)
  : list Transaction :=
  let '(key, item) := entry in
  if HasPrefix key "transaction:" then
    if String.eqb pattern "" || Contains key pattern then
      match gocache.Object item with
      | gocache.ObjTransaction transaction => [transaction]
      | _ => []
      end
    else []
  else [].

Definition GetTransactions (c : InMemoryCache) (now : Z) (pattern : string)
  : list Transaction :=
  flat_map (selectTransaction pattern) (map_to_list (gocache.Items c now)).

Definition DeleteTransaction (c : InMemoryCache) (key : string) : InMemoryCache :=
  gocache.Delete c (transactionKey key).

Definition SetPrice (c : InMemoryCache) (now : Z) (key : string) (price : prices.Price)
  : InMemoryCache :=
  gocache.Set_ c now (priceKey key) (gocache.ObjPrice price) gocache.NoExpiration.

Definition GetPrice (c : InMemoryCache) (now : Z) (key : string) : option prices.Price :=
  match gocache.Get c now (priceKey key) with
  | Some (gocache.ObjPrice price) => Some price
  | _ => None
  end.

(** The body of the loop of [GetPrices] for one entry. *)
Definition selectPrice (entry : string * gocache.Item) : list prices.Price :=
  let '(key, item) := entry in
  if HasPrefix key "price:" then
    match gocache.Object item with
    | gocache.ObjPrice price => [price]
    | _ => []
    end
  else [].

Definition GetPrices (c : InMemoryCache) (now : Z) : list prices.Price :=
  flat_map selectPrice (map_to_list (gocache.Items c now)).

Definition DeletePrice (c : InMemoryCache) (key : string) : InMemoryCache :=
  gocache.Delete c (priceKey key).

Definition Clear (c : InMemoryCache) : InMemoryCache := gocache.Flush c.

End cache.

(* ===================================================================== *)
(** * Package [interfaces] and the world the repository runs in *)
(* ===================================================================== *)

Module interfaces.
Import entities.

(** What a provider adapter answers: the Go result pair, and the time the
    call took (the adapters do network I/O). *)
Record Reply (A : Type) : Type := mkReply {
  result : A + error;
  elapsed : Z
}.
Arguments mkReply {A} _ _.
Arguments result {A} _.
Arguments elapsed {A} _.

(** The interface [Transactions].  The [context.Context] argument is only
    handed through by the repository and is left out. *)
Record Transactions : Type := mkTransactions {
  GetLatestTransactions : Z -> Reply (list Transaction);
  GetTransactionByID : string -> Reply Transaction
}.

End interfaces.

(** A call that reached a provider adapter. *)
Inductive Call : Type :=
| CallGetLatestTransactions (source : string) (limit : Z)
| CallGetTransactionByID (source : string) (id : string).

(** The state the repository acts on: the shared cache, the clock, and the
    calls made to the adapters so far (oldest first).  The clock advances
    only while an adapter is being called.  Calls to the logger do not
    influence any value and are left out.  The repository is modelled on
    its own: the background fetcher does not run in between. *)
Record World : Type := mkWorld {
  wcache : cache.InMemoryCache;
  clock : Z;
  calls : list Call
}.

Definition M (A : Type) : Type := World -> A * World.

Definition ret {A} (a : A) : M A := fun w => (a, w).

Definition bind {A B} (m : M A) (k : A -> M B) : M B :=
  fun w => let '(a, w') := m w in k a w'.

Declare Scope go_scope.
Delimit Scope go_scope with go.
Notation "x <- m ;; k" := (bind m (fun x => k))
  (at level 100, m at next level, right associativity) : go_scope.
Notation "m ;;; k" := (bind m (fun _ => k))
  (at level 100, right associativity) : go_scope.

(* ===================================================================== *)
(** * Package [repository] *)
(* ===================================================================== *)

Module repository.
Import entities interfaces consts.
Local Open Scope go_scope.

(** A [nil] client is [None]. *)
Record TransactionRepository : Type := mkTransactionRepository {
  stripeClient : option Transactions;
  vippsClient : option Transactions;
  zettleClient : option Transactions
}.

(** ** The effects *)

Definition cache_GetTransactions (pattern : string) : M (list Transaction) :=
  fun w => (cache.GetTransactions (wcache w) (clock w) pattern, w).

Definition cache_GetTransaction (key : string) : M (option Transaction) :=
  fun w => (cache.GetTransaction (wcache w) (clock w) key, w).

Definition cache_SetTransaction (key : string) (transaction : Transaction)
    (expiration : Z) : M unit :=
  fun w => (tt, mkWorld (cache.SetTransaction (wcache w) (clock w) key transaction expiration)
                        (clock w) (calls w)).

Definition call {A} (c : Call) (reply : Reply A) : M (A + error) :=
  fun w => (result reply, mkWorld (wcache w) (clock w + elapsed reply) (calls w ++ [c])).

(** ** [RefreshCache] *)

(** One of the three blocks "Fetch from ...": a configured client is asked
    for its 100 latest transactions, which are appended on success. *)
Definition fetchFrom (source : string) (client : option Transactions)
    (allTransactions : list Transaction) : M (list Transaction) :=
  match client with
  | None => ret allTransactions
  | Some c =>
      r <- call (CallGetLatestTransactions source 100) (GetLatestTransactions c 100) ;;
      match r with
      | inr _ => ret allTransactions
      | inl transactions => ret (allTransactions ++ transactions)
      end
  end.

(** [for _, transaction := range allTransactions { r.cache.SetTransaction(...) }] *)
Fixpoint cacheAll (allTransactions : list Transaction) : M unit :=
  match allTransactions with
  | [] => ret tt
  | transaction :: rest =>
      cache_SetTransaction (ID transaction) transaction (24 * time.Hour) ;;;
      cacheAll rest
  end.

Definition RefreshCache (r : TransactionRepository) : M (option error) :=
  allTransactions <- fetchFrom PAYMENT_SOURCE_STRIPE (stripeClient r) [] ;;
  allTransactions <- fetchFrom PAYMENT_SOURCE_VIPPS (vippsClient r) allTransactions ;;
  allTransactions <- fetchFrom PAYMENT_SOURCE_ZETTLE (zettleClient r) allTransactions ;;
  cacheAll allTransactions ;;;
  ret None.

(** ** [GetTransactionByID] *)

(** One of the three blocks "Try ...": [inl] is the early return with the
    transaction found, [inr tt] falls through to the next block. *)
Definition tryProvider (source : string) (client : option Transactions) (id : string)
  : M (Transaction + unit) :=
  match client with
  | None => ret (inr tt)
  | Some c =>
      r <- call (CallGetTransactionByID source id) (GetTransactionByID c id) ;;
      match r with
      | inl transaction =>
          cache_SetTransaction (ID transaction) transaction (24 * time.Hour) ;;;
          ret (inl transaction)
      | inr _ => ret (inr tt)
      end
  end.

Definition zeroTransaction : Transaction :=
  mkTransaction "" "" "" 0%float "" "" 0 "" "" "" "" ∅ "" AnyNil AnyNil 0 None None.

Definition GetTransactionByID (r : TransactionRepository) (id : string)
  : M (Transaction * option error) :=
  hit <- cache_GetTransaction id ;;
  match hit with
  | Some transaction => ret (transaction, None)
  | None =>
      s <- tryProvider PAYMENT_SOURCE_STRIPE (stripeClient r) id ;;
      match s with
      | inl transaction => ret (transaction, None)
      | inr _ =>
          v <- tryProvider PAYMENT_SOURCE_VIPPS (vippsClient r) id ;;
          match v with
          | inl transaction => ret (transaction, None)
          | inr _ =>
              z <- tryProvider PAYMENT_SOURCE_ZETTLE (zettleClient r) id ;;
              match z with
              | inl transaction => ret (transaction, None)
              | inr _ =>
                  ret (zeroTransaction,
                       Some (Errorf "transaction with ID %s not found" [ArgString id]))
              end
          end
      end
  end.

(** ** [GetTransactions] *)

(** The comparison handed to [sort.Slice]: newest first. *)
Definition newestFirst (a b : Transaction) : bool := After (CreatedAt a) (CreatedAt b).

(** The validation of [limit]. *)
Definition clampLimit (limit : Z) : Z :=
  let limit := if limit <? TRANSACTION_LIMIT_MIN then TRANSACTION_LIMIT_DEFAULT else limit in
  if TRANSACTION_LIMIT_MAX <? limit then TRANSACTION_LIMIT_MAX else limit.

(** [s[:n]] for [0 <= n <= len(s)]. *)
Definition slicePrefix {A} (s : list A) (n : Z) : list A := firstn (Z.to_nat n) s.

Section Sorting.
(** [sort.Slice] of Go's standard library, which is not stable: any
    function that sorts with respect to the comparison it is given. *)
Variable sort_Slice : (Transaction -> Transaction -> bool) ->
                      list Transaction -> list Transaction.

(** [GetTransactions] with the call [r.RefreshCache(ctx)] as a
    parameter, so that both outcomes of the call can be followed. *)
Definition GetTransactionsWith (refresh : M (option error)) (limit : Z)
  : M (list Transaction * option error) :=
  let limit := clampLimit limit in
  cachedTransactions <- cache_GetTransactions "" ;;
  let cachedTransactions := sort_Slice newestFirst cachedTransactions in
  if limit <=? len cachedTransactions then
    ret (slicePrefix cachedTransactions limit, None)
  else if 0 <? len cachedTransactions then
    ret (cachedTransactions, None)
  else
    err <- refresh ;;
    match err with
    | Some e =>
        ret ([], Some (Errorf "no transactions available and failed to refresh cache: %w"
                              [ArgError e]))
    | None =>
        cachedTransactions <- cache_GetTransactions "" ;;
        let cachedTransactions := sort_Slice newestFirst cachedTransactions in
        if limit <? len cachedTransactions then
          ret (slicePrefix cachedTransactions limit, None)
        else ret (cachedTransactions, None)
    end.

Definition GetTransactions (r : TransactionRepository) (limit : Z)
  : M (list Transaction * option error) :=
  GetTransactionsWith (RefreshCache r) limit.
End Sorting.

(** ** The repository as the specification words it *)

(** What [sort.Slice] requires of the comparison it is given. *)
Definition strictWeakOrder {A} (less : A -> A -> bool) : Prop :=
  (forall a, less a a = false) /\
  (forall a b c, less a b = true -> less b c = true -> less a c = true) /\
  (forall a b c, less a b = false -> less b c = false -> less a c = false).

(** What [sort.Slice] promises: the slice is rearranged, and no element is
    left after one it should precede. *)
Definition sortsSlices
    (sort_Slice : (Transaction -> Transaction -> bool) -> list Transaction -> list Transaction)
  : Prop :=
  forall less l,
    Permutation (sort_Slice less l) l /\
    (strictWeakOrder less ->
     StronglySorted (fun a b => less b a = false) (sort_Slice less l)).

(** Newest first: no transaction is followed by a newer one. *)
Definition newestFirstOrdered (l : list Transaction) : Prop :=
  forall (i j : nat) (a b : Transaction),
    l !! i = Some a -> l !! j = Some b -> (i < j)%nat -> CreatedAt b <= CreatedAt a.

(** The cached transactions a call at state [w] can see. *)
Definition cached (w : World) : list Transaction :=
  cache.GetTransactions (wcache w) (clock w) "".

(** The item [SetTransaction] stores for [t] at clock reading [now] with a
    TTL of 24 hours. *)
Definition cachedFor24h (now : Z) (t : Transaction) : gocache.Item :=
  gocache.mkItem (gocache.ObjTransaction t) (now + 24 * time.Hour).

(** What one refresh asks of a client, and what it gets from it. *)
Definition latestCall (source : string) (client : option Transactions) : list Call :=
  match client with
  | Some _ => [CallGetLatestTransactions source 100]
  | None => []
  end.

Definition latestElapsed (client : option Transactions) : Z :=
  match client with
  | Some c => elapsed (GetLatestTransactions c 100)
  | None => 0
  end.

Definition latestFetched (client : option Transactions) : list Transaction :=
  match client with
  | Some c =>
      match result (GetLatestTransactions c 100) with
      | inl transactions => transactions
      | inr _ => []
      end
  | None => []
  end.

Definition refreshCalls (r : TransactionRepository) : list Call :=
  latestCall PAYMENT_SOURCE_STRIPE (stripeClient r) ++
  latestCall PAYMENT_SOURCE_VIPPS (vippsClient r) ++
  latestCall PAYMENT_SOURCE_ZETTLE (zettleClient r).

Definition refreshElapsed (r : TransactionRepository) : Z :=
  latestElapsed (stripeClient r) + latestElapsed (vippsClient r) + latestElapsed (zettleClient r).

(** The results of the providers that answered, concatenated. *)
Definition refreshFetched (r : TransactionRepository) : list Transaction :=
  latestFetched (stripeClient r) ++ latestFetched (vippsClient r) ++
  latestFetched (zettleClient r).

(** The cache after the loop over [allTransactions], run at instant [now]. *)
Definition cachedAll (now : Z) (allTransactions : list Transaction)
    (c : cache.InMemoryCache) : cache.InMemoryCache :=
  fold_left (fun c t => cache.SetTransaction c now (ID t) t (24 * time.Hour))
            allTransactions c.

(** The adapters in the order of the by-id look-up. *)
Definition providersInOrder (r : TransactionRepository)
  : list (string * option Transactions) :=
  [ (PAYMENT_SOURCE_STRIPE, stripeClient r);
    (PAYMENT_SOURCE_VIPPS, vippsClient r);
    (PAYMENT_SOURCE_ZETTLE, zettleClient r) ].

(** The configured adapters are asked in order until one succeeds; its
    transaction is cached for 24 hours under its own id. *)
Fixpoint firstSuccess (id : string) (providers : list (string * option Transactions))
    (w : World) : option Transaction * World :=
  match providers with
  | [] => (None, w)
  | (_, None) :: rest => firstSuccess id rest w
  | (source, Some c) :: rest =>
      let reply := interfaces.GetTransactionByID c id in
      let w1 := mkWorld (wcache w) (clock w + elapsed reply)
                        (calls w ++ [CallGetTransactionByID source id]) in
      match result reply with
      | inl transaction =>
          (Some transaction,
           mkWorld (cache.SetTransaction (wcache w1) (clock w1) (ID transaction) transaction
                                         (24 * time.Hour))
                   (clock w1) (calls w1))
      | inr _ => firstSuccess id rest w1
      end
  end.

(** The calls of a by-id look-up in which no adapter succeeds. *)
Definition byIDCalls (r : TransactionRepository) (id : string) : list Call :=
  flat_map (fun sc : string * option Transactions =>
              match snd sc with
              | Some _ => [CallGetTransactionByID (fst sc) id]
              | None => []
              end)
           (providersInOrder r).

Definition notFound (id : string) : error :=
  Errorf "transaction with ID %s not found" [ArgString id].

Definition refreshFailed (e : error) : error :=
  Errorf "no transactions available and failed to refresh cache: %w" [ArgError e].

End repository.

(* ===================================================================== *)
(** * Package [entities]: users, roles and permissions *)
(* ===================================================================== *)

Module roles.

(** [type Role string] and [type Permission string]. *)
Definition Role : Type := string.
Definition Permission : Type := string.

Definition RoleAdmin : Role := "admin".
Definition RoleUser : Role := "user".
Definition RoleNoAccess : Role := "no_access".

Definition PermissionReadOwnProfile : Permission := "read:own_profile".
Definition PermissionUpdateOwnProfile : Permission := "update:own_profile".
Definition PermissionReadTransactions : Permission := "read:transactions".
Definition PermissionCreateTransactions : Permission := "create:transactions".
Definition PermissionUpdateTransactions : Permission := "update:transactions".
Definition PermissionDeleteTransactions : Permission := "delete:transactions".
Definition PermissionReadAllUsers : Permission := "read:all_users".
Definition PermissionManageUsers : Permission := "manage:users".
Definition PermissionSystemAdmin : Permission := "system:admin".

(** The map literal [RolePermissions], as the list of its entries. *)
Definition RolePermissions : list (Role * list Permission) :=
  [ (RoleAdmin,
     [ PermissionReadOwnProfile; PermissionUpdateOwnProfile;
       PermissionReadTransactions; PermissionCreateTransactions;
       PermissionUpdateTransactions; PermissionDeleteTransactions;
       PermissionReadAllUsers; PermissionManageUsers; PermissionSystemAdmin ]);
    (RoleUser,
     [ PermissionReadOwnProfile; PermissionUpdateOwnProfile;
       PermissionReadTransactions ]);
    (RoleNoAccess, []) ].

(** [RolePermissions[r]] *)
Definition rolePermissions (r : Role) : option (list Permission) :=
  snd <$> List.find (fun entry => String.eqb (fst entry) r) RolePermissions.

(** [Role.HasPermission] *)
Definition HasPermission (r : Role) (permission : Permission) : bool :=
  match rolePermissions r with
  | None => false
  | Some permissions => existsb (fun p => String.eqb p permission) permissions
  end.

(** [Role.IsValid] *)
Definition IsValid (r : Role) : bool :=
  String.eqb r RoleAdmin || String.eqb r RoleUser || String.eqb r RoleNoAccess.

Record User : Type := mkUser {
  ID : string;
  Email : string;
  Name : string;
  Picture : string;
  Groups : list string;
  Verified : bool;
  Role_ : Role           (* field [Role] *)
}.

Record GoogleTokenClaims : Type := mkGoogleTokenClaims {
  claimID : string;            (* field [ID] *)
  claimEmail : string;         (* field [Email] *)
  claimName : string;          (* field [Name] *)
  claimPicture : string;       (* field [Picture] *)
  EmailVerified : bool;
  claimGroups : list string;   (* field [Groups] *)
  Audience : string;
  Issuer : string;
  ExpiresAt : Z;
  IssuedAt : Z
}.

Definition ToUser (claims : GoogleTokenClaims) : User :=
  mkUser (claimID claims) (claimEmail claims) (claimName claims) (claimPicture claims)
         (claimGroups claims) (EmailVerified claims) RoleUser.

(** [User.HasPermission], [User.IsAdmin], [User.IsUser], [User.HasAccess] *)
Definition UserHasPermission (u : User) (permission : Permission) : bool :=
  HasPermission (Role_ u) permission.
Definition IsAdmin (u : User) : bool := String.eqb (Role_ u) RoleAdmin.
Definition IsUser (u : User) : bool := String.eqb (Role_ u) RoleUser.
Definition HasAccess (u : User) : bool := negb (String.eqb (Role_ u) RoleNoAccess).

End roles.

(* ===================================================================== *)
(** * Package [services]: the enrichment step *)
(* ===================================================================== *)

Module services.
Import entities.

(** The package variable [PriceService] is the first argument; [None] is
    the [nil] pointer.  The parameter [transaction] is a struct passed by
    value, and the function assigns only to fields of its local copy. *)
Definition enrichTransactionWithProduct (PriceService : option prices.PriceService)
    (transaction : Transaction) : Transaction :=
  match PriceService with
  | None => transaction
  | Some ps =>
      match prices.FindBestProductMatch ps (Amount transaction) (Description transaction) with
      | Some matchedProduct =>
          let enrichedTransaction := transaction in
          let enrichedTransaction :=
            mkTransaction
              (ID enrichedTransaction) (ExternalID enrichedTransaction)
              (Source enrichedTransaction) (Amount enrichedTransaction)
              (Currency enrichedTransaction) (Status enrichedTransaction)
              (CreatedAt enrichedTransaction) (CustomerID enrichedTransaction)
              (Description enrichedTransaction) (PaymentMethod enrichedTransaction)
              (ReceiptURL enrichedTransaction) (Metadata enrichedTransaction)
              (TransactionType enrichedTransaction) (Data enrichedTransaction)
              (TransferData enrichedTransaction) (CachedAt enrichedTransaction)
              (Some (prices.Product matchedProduct))
              (Some (prices.Price_ matchedProduct)) in
          enrichedTransaction
      | None => transaction
      end
  end.

(** The result is a new slice; the slice passed in is only read. *)
Definition enrichTransactionsWithProducts (PriceService : option prices.PriceService)
    (transactions : list Transaction) : list Transaction :=
  match PriceService with
  | None => transactions
  | Some _ => List.map (enrichTransactionWithProduct PriceService) transactions
  end.

(** The fields of a transaction other than the two enrichment fields. *)
Definition sameUnifiedFields (a b : Transaction) : Prop :=
  ID a = ID b /\ ExternalID a = ExternalID b /\ Source a = Source b /\
  Amount a = Amount b /\ Currency a = Currency b /\ Status a = Status b /\
  CreatedAt a = CreatedAt b /\ CustomerID a = CustomerID b /\
  Description a = Description b /\ PaymentMethod a = PaymentMethod b /\
  ReceiptURL a = ReceiptURL b /\ Metadata a = Metadata b /\
  TransactionType a = TransactionType b /\ Data a = Data b /\
  TransferData a = TransferData b /\ CachedAt a = CachedAt b.

(** How [InitializeServices] leaves the process: with the package variable
    [PriceService] set, or stopped by [logger.Fatal]. *)
Inductive Startup : Type :=
| Started (PriceService : prices.PriceService)
| Fatal (msg : string) (err : error).

Section Startup.
Variable os_Open : string -> string + error.
Variable csv_ReadAll : string -> list (list string) + error.
Variable strconv_ParseFloat : string -> float + error.
(** [filepath.Abs] *)
Variable filepath_Abs : string -> string + error.

(** [csvPath] is the value [viper] holds for [PRICES_CSV_PATH]. *)
Definition InitializeServices (csvPath : string) : Startup :=
  match filepath_Abs csvPath with
  | inr err => Fatal "Failed to get absolute path: %v" err
  | inl absPath =>
      match prices.NewPriceService os_Open csv_ReadAll strconv_ParseFloat absPath with
      | inr err => Fatal "Failed to initialize price service: %v" err
      | inl ps => Started ps
      end
  end.
End Startup.

(** ** The transaction service *)

(** The service holds the repository behind an interface; here it is the
    repository itself, with the sort it uses. *)
Section TransactionService.
Variable sort_Slice : (Transaction -> Transaction -> bool) ->
                      list Transaction -> list Transaction.
Variable PriceService : option prices.PriceService.
Variable r : repository.TransactionRepository.

Definition GetTransactions (limit : Z) : M (list Transaction * option error) :=
  bind (repository.GetTransactions sort_Slice r limit)
       (fun res =>
          match res with
          | (_, Some err) => ret ([], Some err)
          | (transactions, None) =>
              ret (enrichTransactionsWithProducts PriceService transactions, None)
          end).

Definition GetTransactionByID (id : string) : M (Transaction * option error) :=
  bind (repository.GetTransactionByID r id)
       (fun res =>
          match res with
          | (_, Some err) => ret (repository.zeroTransaction, Some err)
          | (transaction, None) =>
              ret (enrichTransactionWithProduct PriceService transaction, None)
          end).

Definition RefreshCache : M (option error) := repository.RefreshCache r.
End TransactionService.

(** ** The background fetcher: one fetch cycle *)


(** ** The role service *)

Record RoleService : Type := mkRoleService {
  userRoles : gmap string roles.Role;
  adminEmails : list string;
  usersEmails : list string
}.

(** The two blocks of [NewRoleService] that read a list of emails. *)
Definition readEmails (emailsStr : string) : list string :=
  if String.eqb emailsStr "" then []
  else List.map Strings.TrimSpace (Strings.Split emailsStr ",").

(** The arguments are the values [viper] holds for [ADMIN_EMAILS] and
    [USER_EMAILS]. *)
Definition NewRoleService (adminEmailsStr userEmailsStr : string) : RoleService :=
  mkRoleService ∅ (readEmails adminEmailsStr) (readEmails userEmailsStr).

Definition isAdminEmail (rs : RoleService) (email : string) : bool :=
  existsb (fun adminEmail => Strings.EqualFold email adminEmail) (adminEmails rs).

Definition isUserEmail (rs : RoleService) (email : string) : bool :=
  existsb (fun userEmail => Strings.EqualFold email userEmail) (usersEmails rs).

(** The loop of [GetUserRole] over the groups of the user, and the
    [return] that follows it. *)
Fixpoint groupRole (groups : list string) : roles.Role :=
  match groups with
  | [] => roles.RoleNoAccess
  | group :: rest =>
      if String.eqb (Strings.ToLower group) "admin" ||
         String.eqb (Strings.ToLower group) "administrators"
      then roles.RoleAdmin
      else if String.eqb (Strings.ToLower group) "user" ||
              String.eqb (Strings.ToLower group) "users"
      then roles.RoleUser
      else if String.eqb (Strings.ToLower group) "no_access" ||
              String.eqb (Strings.ToLower group) "noaccess"
      then roles.RoleNoAccess
      else groupRole rest
  end.

Definition GetUserRole (rs : RoleService) (user : roles.User) : roles.Role :=
  if isAdminEmail rs (roles.Email user) then roles.RoleAdmin
  else if isUserEmail rs (roles.Email user) then roles.RoleUser
  else match userRoles rs !! roles.Email user with
       | Some role => role
       | None => groupRole (roles.Groups user)
       end.

Definition SetUserRole (rs : RoleService) (email : string) (role : roles.Role)
  : RoleService :=
  if roles.IsValid role
  then mkRoleService (<[email := role]> (userRoles rs)) (adminEmails rs) (usersEmails rs)
  else rs.

Definition RemoveUserRole (rs : RoleService) (email : string) : RoleService :=
  mkRoleService (delete email (userRoles rs)) (adminEmails rs) (usersEmails rs).

Definition AddAdminEmail (rs : RoleService) (email : string) : RoleService :=
  mkRoleService (userRoles rs) (adminEmails rs ++ [email]) (usersEmails rs).

Definition AddUserEmail (rs : RoleService) (email : string) : RoleService :=
  mkRoleService (userRoles rs) (adminEmails rs) (usersEmails rs ++ [email]).

Definition GetAdminEmails (rs : RoleService) : list string := adminEmails rs.
Definition GetUserEmails (rs : RoleService) : list string := usersEmails rs.
Definition GetAllUserRoles (rs : RoleService) : gmap string roles.Role := userRoles rs.

(** The role services a program can hold: the one [NewRoleService]
    returns, changed by any number of calls of its methods. *)
Inductive Reachable : RoleService -> Prop :=
| reach_NewRoleService (adminEmailsStr userEmailsStr : string) :
    Reachable (NewRoleService adminEmailsStr userEmailsStr)
| reach_SetUserRole (rs : RoleService) (email : string) (role : roles.Role) :
    Reachable rs -> Reachable (SetUserRole rs email role)
| reach_RemoveUserRole (rs : RoleService) (email : string) :
    Reachable rs -> Reachable (RemoveUserRole rs email)
| reach_AddAdminEmail (rs : RoleService) (email : string) :
    Reachable rs -> Reachable (AddAdminEmail rs email)
| reach_AddUserEmail (rs : RoleService) (email : string) :
    Reachable rs -> Reachable (AddUserEmail rs email).

End services.

(* ===================================================================== *)
(** * Package [middlewares]: the authorization decisions *)
(* ===================================================================== *)

(** What a middleware does with a request: hand it to the next handler,
    or answer it with a status and an error message.  The user is the one
    [GetUserFromContext] finds, if any. *)
Module middlewares.
Import roles.

Inductive Decision : Type :=
| Next
| Respond (status : Z) (message : string).

Definition StatusForbidden : Z := 403.
Definition StatusInternalServerError : Z := 500.

Definition getRoleLevel (role : Role) : Z :=
  if String.eqb role RoleAdmin then 3
  else if String.eqb role RoleUser then 2
  else if String.eqb role RoleNoAccess then 1
  else 0.

Definition RequireRole (requiredRole : Role) (user : option User) : Decision :=
  match user with
  | None => Respond StatusInternalServerError "Authentication required"
  | Some user =>
      if negb (String.eqb (Role_ user) requiredRole)
      then Respond StatusForbidden "Insufficient permissions"
      else Next
  end.

Definition RequirePermission (requiredPermission : Permission) (user : option User)
  : Decision :=
  match user with
  | None => Respond StatusInternalServerError "Authentication required"
  | Some user =>
      if negb (UserHasPermission user requiredPermission)
      then Respond StatusForbidden "Insufficient permissions"
      else Next
  end.

Definition RequireMinimumRole (minimumRole : Role) (user : option User) : Decision :=
  match user with
  | None => Respond StatusInternalServerError "Authentication required"
  | Some user =>
      let userLevel := getRoleLevel (Role_ user) in
      let requiredLevel := getRoleLevel minimumRole in
      if userLevel <? requiredLevel
      then Respond StatusForbidden "Insufficient permissions"
      else Next
  end.

Definition RequireAccess (user : option User) : Decision :=
  match user with
  | None => Respond StatusInternalServerError "Authentication required"
  | Some user =>
      if negb (HasAccess user)
      then Respond StatusForbidden "Access denied"
      else Next
  end.

End middlewares.

(* ===================================================================== *)
(** * Structural forms used in the proofs *)
(* ===================================================================== *)

Module Structural.

Definition isEmpty (s : string) : bool :=
  match s with
  | EmptyString => true
  | String _ _ => false
  end.

(** [TrimRightFunc] by recursion on the string (lemma
    [TrimRightFunc_structural]). *)
Fixpoint trimRight (f : ascii -> bool) (s : string) : string :=
  match s with
  | EmptyString => EmptyString
  | String c s' =>
      let r := trimRight f s' in
      if isEmpty r && f c then EmptyString else String c r
  end.

End Structural.

(* ===================================================================== *)
(** * Sample data *)
(* ===================================================================== *)

Module Samples.
Import prices.

(** The price list of [TestPriceService_FindBestProductMatch]. *)
Definition testPrices : PriceService :=
  mkPriceService
    [ mkPrice "Cabin" 650 "NOK";
      mkPrice "Caravan/motorhome/tent 1-2 pers" 390 "NOK";
      mkPrice "Caravan/motorhome/tent 3 pers" 410 "NOK";
      mkPrice "Caravan/motorhome/tent 4 pers" 430 "NOK";
      mkPrice "Washing machine" 40 "NOK";
      mkPrice "Bed linen" 75 "NOK";
      mkPrice "Shower" 15 "NOK" ].

(** A price file that holds its header row and nothing else. *)
Definition headerOnlyFile : string := "Product;Price;Currency".
Definition headerOnlyRecords : list (list string) := [["Product"; "Price"; "Currency"]].

(** A platform on which every path leads to that file. *)
Definition open_headerOnly (path : string) : string + error := inl headerOnlyFile.
Definition read_headerOnly (file : string) : list (list string) + error :=
  inl headerOnlyRecords.
Definition parse_never (s : string) : float + error :=
  inr (Errorf "strconv.ParseFloat: parsing %q: invalid syntax" [ArgString s]).
Definition abs_id (path : string) : string + error := inl path.

(** The error of [loadPricesFromCSV] for fewer than two records. *)
Definition tooFewRecords : error :=
  Errorf "CSV file must contain at least header and one data row" [].

(** Two descriptions and product names on which counting description
    words and counting product words differ; the first product is an entry
    of [testPrices]. *)
Definition repeatedDescription : string := "tent and tent".
Definition tentProduct : string := "Caravan/motorhome/tent 1-2 pers".
Definition joinedDescription : string := "caravan/pers".
Definition splitProduct : string := "Caravan motorhome tent 1-2 pers".

(** A sort for [sort.Slice]: insertion sort. *)
Fixpoint insertBy {A} (less : A -> A -> bool) (x : A) (l : list A) : list A :=
  match l with
  | [] => [x]
  | y :: l' => if less y x then y :: insertBy less x l' else x :: l
  end.

Fixpoint insertionSort {A} (less : A -> A -> bool) (l : list A) : list A :=
  match l with
  | [] => []
  | x :: l' => insertBy less x (insertionSort less l')
  end.

(** Three transactions, created at the instants 10, 30 and 20. *)
Definition tx (id source : string) (createdAt : Z) : entities.Transaction :=
  entities.mkTransaction id id source 100 "NOK" "succeeded" createdAt "" "" "card" ""
                         ∅ "" entities.AnyNil entities.AnyNil 0 None None.
Definition tx1 : entities.Transaction := tx "vipps_1" "vipps" 10.
Definition tx2 : entities.Transaction := tx "vipps_2" "vipps" 30.
Definition tx3 : entities.Transaction := tx "zettle_3" "zettle" 20.

(** Adapters: one that fails every call after 5 time units, and two that
    answer with one or two transactions. *)
Definition providerDown : error := Errorf "provider unavailable" [].
Definition failingClient : interfaces.Transactions :=
  interfaces.mkTransactions
    (fun _ => interfaces.mkReply (inr providerDown) 5)
    (fun _ => interfaces.mkReply (inr providerDown) 5).
Definition vippsSample : interfaces.Transactions :=
  interfaces.mkTransactions
    (fun _ => interfaces.mkReply (inl [tx1; tx2]) 7)
    (fun id => interfaces.mkReply
                 (if String.eqb id "vipps_1" then inl tx1 else inr providerDown) 7).
Definition zettleSample : interfaces.Transactions :=
  interfaces.mkTransactions
    (fun _ => interfaces.mkReply (inl [tx3]) 3)
    (fun _ => interfaces.mkReply (inr providerDown) 3).

Definition sampleRepository : repository.TransactionRepository :=
  repository.mkTransactionRepository (Some failingClient) (Some vippsSample) (Some zettleSample).

(** A cold start, at instant 1000, and the same world once refreshed. *)
Definition coldWorld : World :=
  mkWorld (cache.NewInMemoryCache (24 * time.Hour) time.Hour) 1000 [].
Definition warmWorld : World := snd (repository.RefreshCache sampleRepository coldWorld).

(** A repository whose two configured providers are down. *)
Definition downRepository : repository.TransactionRepository :=
  repository.mkTransactionRepository (Some failingClient) None (Some failingClient).


(** A price list with one negative entry, for a refund of 98. *)
Definition refundPrices : PriceService := mkPriceService [mkPrice "Refund" (-100) "NOK"].
Definition refundAmount : float := (-98)%float.

(** An amount so large that adding one to its tolerance changes nothing,
    and an entry at the high end of its window. *)
Definition hugePrices : PriceService := mkPriceService [mkPrice "Big" 1.05e20 "NOK"].
Definition hugeAmount : float := 1e20%float.

(** A status and a source as a provider may spell them. *)
Definition paddedStatus : string := "  Capture ".
Definition shoutedSource : string := "VIPPS".

(** A price list in which two entries have the same price. *)
Definition twinPrices : PriceService :=
  mkPriceService
    [ mkPrice "Cabin small" 500 "NOK";
      mkPrice "Cabin large" 500 "NOK";
      mkPrice "Shower" 15 "NOK" ].

(** The price file of the tests, as the CSV reader returns it, and the
    same file with a word where the price of its second data row is. *)
Definition testRecords : list (list string) :=
  [ ["Product"; "Price"; "Currency"];
    ["Cabin"; "650"; "NOK"];
    [" Bed linen "; "75"; "NOK"];
    ["Caravan/motorhome/tent 1-2 pers"; "390"; "NOK"] ].

Definition brokenRecords : list (list string) :=
  [ ["Product"; "Price"; "Currency"];
    ["Cabin"; "650"; "NOK"];
    ["Bed linen"; "free"; "NOK"];
    ["Caravan/motorhome/tent 1-2 pers"; "390"; "NOK"] ].

Definition testPriceList : list Price :=
  [ mkPrice "Cabin" 650 "NOK";
    mkPrice "Bed linen" 75 "NOK";
    mkPrice "Caravan/motorhome/tent 1-2 pers" 390 "NOK" ].

Definition read_test (file : string) : list (list string) + error :=
  if String.eqb file "broken.csv" then inl brokenRecords else inl testRecords.
Definition open_named (path : string) : string + error := inl path.

(** A number parser that knows the numbers of the test file. *)
Definition parse_test (s : string) : float + error :=
  if String.eqb s "650" then inl 650%float
  else if String.eqb s "75" then inl 75%float
  else if String.eqb s "390" then inl 390%float
  else parse_never s.

End Samples.

(* ===================================================================== *)
(** * Properties of the [strings] functions *)
(* ===================================================================== *)

Module StringsFacts.
Import Strings.

Lemma lowerByte_upperByte c : lowerByte (upperByte c) = lowerByte c.
Proof. destruct c as [[] [] [] [] [] [] [] []]; reflexivity. Qed.

Lemma upperByte_lowerByte c : upperByte (lowerByte c) = upperByte c.
Proof. destruct c as [[] [] [] [] [] [] [] []]; reflexivity. Qed.

Lemma lowerByte_idem c : lowerByte (lowerByte c) = lowerByte c.
Proof. destruct c as [[] [] [] [] [] [] [] []]; reflexivity. Qed.

Lemma Map_Map f g s : Map f (Map g s) = Map (fun c => f (g c)) s.
Proof. induction s as [|c s IH]; simpl; [reflexivity | now rewrite IH]. Qed.

Lemma Map_ext f g s : (forall c, f c = g c) -> Map f s = Map g s.
Proof. intros E. induction s as [|c s IH]; simpl; [reflexivity | now rewrite E, IH]. Qed.

Lemma ToLower_ToUpper s : ToLower (ToUpper s) = ToLower s.
Proof. unfold ToLower, ToUpper. rewrite Map_Map. apply Map_ext, lowerByte_upperByte. Qed.

Lemma ToUpper_ToLower s : ToUpper (ToLower s) = ToUpper s.
Proof. unfold ToLower, ToUpper. rewrite Map_Map. apply Map_ext, upperByte_lowerByte. Qed.

Lemma ToLower_idem s : ToLower (ToLower s) = ToLower s.
Proof. unfold ToLower. rewrite Map_Map. apply Map_ext, lowerByte_idem. Qed.

Lemma EqualFold_ToUpper_l s k : EqualFold (ToUpper s) k = EqualFold s k.
Proof. unfold EqualFold. now rewrite ToLower_ToUpper. Qed.

Lemma EqualFold_ToLower_l s k : EqualFold (ToLower s) k = EqualFold s k.
Proof. unfold EqualFold. now rewrite ToLower_idem. Qed.

(** Against a lower-case key, an exact comparison of the lowered status
    is the comparison up to case. *)
Lemma eqb_lower_key s k :
  ToLower k = k -> String.eqb k (ToLower s) = EqualFold s k.
Proof. intros Hk. unfold EqualFold. rewrite Hk. apply String.eqb_sym. Qed.

(** Against an upper-case key, an exact comparison of the raised status
    is the comparison up to case. *)
Lemma eqb_upper_key s k :
  ToUpper k = k -> String.eqb k (ToUpper s) = EqualFold s k.
Proof.
  intros Hk. unfold EqualFold.
  destruct (String.eqb_spec k (ToUpper s)) as [E|N];
    destruct (String.eqb_spec (ToLower s) (ToLower k)) as [E'|N']; try reflexivity.
  - exfalso. apply N'. rewrite E. now rewrite ToLower_ToUpper.
  - exfalso. apply N. rewrite <- Hk, <- ToUpper_ToLower, <- E'. apply ToUpper_ToLower.
Qed.

End StringsFacts.

(* ===================================================================== *)
(** * Properties of [statushelpers] *)
(* ===================================================================== *)

Module StatusFacts.
Import Strings StringsFacts consts statushelpers.

Lemma find_ext_in {A} (f g : A -> bool) (l : list A) :
  (forall x, In x l -> f x = g x) -> List.find f l = List.find g l.
Proof.
  induction l as [|x l IH]; simpl; intros E; [reflexivity|].
  rewrite <- (E x) by now left.
  destruct (f x); [reflexivity|]. apply IH. intros y Hy. apply E. now right.
Qed.

(** A loop that returns at its first hit does not depend on the order in
    which the entries are visited when at most one entry can hit. *)
Lemma find_order_irrelevant {A} (f : A -> bool) (l l' : list A) :
  (forall x y, In x l -> In y l -> f x = true -> f y = true -> x = y) ->
  Permutation l' l -> List.find f l' = List.find f l.
Proof.
  intros Huniq Hperm.
  destruct (List.find f l) as [x|] eqn:Hl.
  - apply find_some in Hl as [Hin Hfx].
    destruct (List.find f l') as [y|] eqn:Hl'.
    + apply find_some in Hl' as [Hin' Hfy].
      f_equal. apply Huniq; auto. eapply Permutation_in; eauto.
    + exfalso. pose proof (find_none _ _ Hl' x) as Hn.
      rewrite Hn in Hfx; [discriminate|].
      eapply Permutation_in; [symmetry|]; eauto.
  - destruct (List.find f l') as [y|] eqn:Hl'; [|reflexivity].
    apply find_some in Hl' as [Hin' Hfy].
    pose proof (find_none _ _ Hl y) as Hn.
    rewrite Hn in Hfy; [discriminate|]. eapply Permutation_in; eauto.
Qed.

Lemma rangeFind_order_irrelevant (m m' : GoMap.t) (s : string) :
  foldedKeysDistinct m -> Permutation m' m ->
  GoMap.rangeFind (fun key => EqualFold s key) m'
  = GoMap.rangeFind (fun key => EqualFold s key) m.
Proof.
  intros Hnd Hperm. unfold GoMap.rangeFind. f_equal.
  apply find_order_irrelevant; [|assumption].
  intros x y Hx Hy Fx Fy. unfold EqualFold in Fx, Fy.
  apply String.eqb_eq in Fx, Fy.
  assert (E : ToLower (fst x) = ToLower (fst y)) by congruence.
  clear -Hnd Hx Hy E. unfold foldedKeysDistinct in Hnd.
  induction m as [|z m IH]; [contradiction|].
  simpl in Hnd. inversion Hnd as [|? ? Hnotin Hnd']; subst.
  destruct Hx as [->|Hx], Hy as [->|Hy]; auto.
  - exfalso. apply Hnotin. rewrite E.
    apply list_elem_of_In, (in_map (fun kv => ToLower (fst kv))), Hy.
  - exfalso. apply Hnotin. rewrite <- E.
    apply list_elem_of_In, (in_map (fun kv => ToLower (fst kv))), Hx.
Qed.

Lemma tables_foldedKeysDistinct :
  foldedKeysDistinct StripeStatusMapping /\
  foldedKeysDistinct VippsStatusMapping /\
  foldedKeysDistinct ZettleStatusMapping.
Proof.
  unfold foldedKeysDistinct.
  repeat split; apply (bool_decide_unpack _); vm_compute; reflexivity.
Qed.

Lemma tables_key_case :
  Forall (fun kv => ToLower (fst kv) = fst kv) StripeStatusMapping /\
  Forall (fun kv => ToUpper (fst kv) = fst kv) VippsStatusMapping /\
  Forall (fun kv => ToUpper (fst kv) = fst kv) ZettleStatusMapping.
Proof. repeat split; repeat constructor. Qed.

(** The exact look-up of the lowered status in a table of lower-case keys
    finds the entry that matches up to case. *)
Lemma index_lower_table (m : GoMap.t) (s : string) :
  Forall (fun kv => ToLower (fst kv) = fst kv) m ->
  GoMap.index m (ToLower s) = tableLookup m s.
Proof.
  intros Hm. unfold GoMap.index, tableLookup, GoMap.rangeFind. f_equal.
  apply find_ext_in. intros kv Hin.
  apply eqb_lower_key. rewrite Forall_forall in Hm. apply Hm.
  now apply list_elem_of_In.
Qed.

Lemma index_upper_table (m : GoMap.t) (s : string) :
  Forall (fun kv => ToUpper (fst kv) = fst kv) m ->
  GoMap.index m (ToUpper s) = tableLookup m s.
Proof.
  intros Hm. unfold GoMap.index, tableLookup, GoMap.rangeFind. f_equal.
  apply find_ext_in. intros kv Hin.
  apply eqb_upper_key. rewrite Forall_forall in Hm. apply Hm.
  now apply list_elem_of_In.
Qed.

Lemma rangeFind_ext (f g : string -> bool) (m : GoMap.t) :
  (forall k, f k = g k) -> GoMap.rangeFind f m = GoMap.rangeFind g m.
Proof.
  intros E. unfold GoMap.rangeFind. f_equal. apply find_ext_in. intros; apply E.
Qed.

Lemma normalizeStripeStatus_lookup s :
  normalizeStripeStatus (ToUpper s)
  = default TRANSACTION_STATUS_UNKNOWN (tableLookup StripeStatusMapping s).
Proof.
  unfold normalizeStripeStatus.
  rewrite ToLower_ToUpper, index_lower_table by apply tables_key_case.
  rewrite (rangeFind_ext _ (fun key => EqualFold s key))
    by (intros; apply EqualFold_ToUpper_l).
  fold (tableLookup StripeStatusMapping s).
  now destruct (tableLookup StripeStatusMapping s).
Qed.

Lemma normalizeVippsStatus_lookup s :
  normalizeVippsStatus (ToUpper s)
  = default TRANSACTION_STATUS_UNKNOWN (tableLookup VippsStatusMapping s).
Proof.
  unfold normalizeVippsStatus.
  rewrite index_upper_table by apply tables_key_case.
  rewrite (rangeFind_ext _ (fun key => EqualFold s key))
    by (intros; now rewrite EqualFold_ToLower_l, EqualFold_ToUpper_l).
  fold (tableLookup VippsStatusMapping s).
  now destruct (tableLookup VippsStatusMapping s).
Qed.

Lemma normalizeZettleStatus_lookup s :
  normalizeZettleStatus (ToUpper s)
  = default TRANSACTION_STATUS_UNKNOWN (tableLookup ZettleStatusMapping s).
Proof.
  unfold normalizeZettleStatus.
  rewrite index_upper_table by apply tables_key_case.
  rewrite (rangeFind_ext _ (fun key => EqualFold s key))
    by (intros; now rewrite EqualFold_ToLower_l, EqualFold_ToUpper_l).
  fold (tableLookup ZettleStatusMapping s).
  now destruct (tableLookup ZettleStatusMapping s).
Qed.

(** The chain of [if]s is the scan of the keyword sets in their order. *)
Lemma inferStatusFromCommonNames_scan s :
  inferStatusFromCommonNames (ToUpper s)
  = default TRANSACTION_STATUS_UNKNOWN (keywordScan (ToLower s)).
Proof.
  unfold inferStatusFromCommonNames, keywordScan, keywordCategories.
  rewrite ToLower_ToUpper. cbn [List.find existsb fst snd].
  rewrite ?orb_false_r, ?orb_assoc.
  repeat match goal with
         | |- context [if ?c then _ else _] => destruct c; [reflexivity|]
         end.
  reflexivity.
Qed.

(** For a known provider a status that is not in its table is [unknown],
    whatever keywords it holds. *)
Lemma known_source_never_infers :
  NormalizeTransactionStatus "payment_successful" "stripe" = "unknown" /\
  NormalizeTransactionStatus "payment_successful" "paypal" = "succeeded".
Proof. split; reflexivity. Qed.

(** C8. Status normalization is the two-step look-up of the
    specification: for a source that is (up to case) stripe, vipps or
    zettle, the trimmed raw status is looked up, up to case, in that
    provider's table, and [unknown] is the answer when it is not there;
    for any other source the trimmed, lower-cased raw status is scanned
    for the keyword sets in the order success, pending, processing,
    failure, cancellation, refund, expiry, the first set with a keyword
    in the status deciding, and [unknown] is the answer when none has.
    The three sample values of the specification are as stated. *)
Theorem normalize_status_two_step :
  (forall raw source : string,
      NormalizeTransactionStatus raw source = normalizeStatus_spec raw source) /\
  NormalizeTransactionStatus "CAPTURE" "vipps" = "succeeded" /\
  NormalizeTransactionStatus "payment_failed" "some_new_provider" = "failed" /\
  NormalizeTransactionStatus "totally_new_status" "stripe" = "unknown".
Proof.
  split; [|repeat split; reflexivity].
  intros raw source.
  unfold NormalizeTransactionStatus, normalizeStatus_spec, providerTable.
  destruct (String.eqb (ToLower source) PAYMENT_SOURCE_STRIPE);
    [apply normalizeStripeStatus_lookup|].
  destruct (String.eqb (ToLower source) PAYMENT_SOURCE_VIPPS);
    [apply normalizeVippsStatus_lookup|].
  destruct (String.eqb (ToLower source) PAYMENT_SOURCE_ZETTLE);
    [apply normalizeZettleStatus_lookup|].
  apply inferStatusFromCommonNames_scan.
Qed.

End StatusFacts.

(* ===================================================================== *)
(** * The order of [float64] *)
(* ===================================================================== *)

Module FloatFacts.

Ltac sf_cases :=
  repeat match goal with
         | |- context [Z.compare ?a ?b] => destruct (Z.compare_spec a b); subst
         | H : context [Z.compare ?a ?b] |- _ => destruct (Z.compare_spec a b); subst
         | |- context [Pos.compare_cont Eq ?a ?b] =>
             change (Pos.compare_cont Eq a b) with (Pos.compare a b);
             destruct (Pos.compare_spec a b); subst
         | H : context [Pos.compare_cont Eq ?a ?b] |- _ =>
             change (Pos.compare_cont Eq a b) with (Pos.compare a b) in H;
             destruct (Pos.compare_spec a b); subst
         end;
  simpl in *; try discriminate; try reflexivity; try lia.

Lemma SFltb_trans x y z : SFltb x y = true -> SFltb y z = true -> SFltb x z = true.
Proof.
  unfold SFltb, SFcompare.
  destruct x as [sx|sx| |sx mx ex], y as [sy|sy| |sy my ey], z as [sz|sz| |sz mz ez];
    try destruct sx; try destruct sy; try destruct sz;
    simpl; try discriminate; try reflexivity; intros H1 H2; sf_cases.
Qed.

Lemma SFleb_ltb_trans x y z : SFleb x y = true -> SFltb y z = true -> SFltb x z = true.
Proof.
  unfold SFleb, SFltb, SFcompare.
  destruct x as [sx|sx| |sx mx ex], y as [sy|sy| |sy my ey], z as [sz|sz| |sz mz ez];
    try destruct sx; try destruct sy; try destruct sz;
    simpl; try discriminate; try reflexivity; intros H1 H2; sf_cases.
Qed.

Lemma SFltb_irrefl x : SFltb x x = false.
Proof.
  unfold SFltb, SFcompare.
  destruct x as [s|s| |s m e]; try destruct s; try reflexivity;
    rewrite Z.compare_refl;
    change (Pos.compare_cont Eq m m) with (Pos.compare m m);
    now rewrite Pos.compare_refl.
Qed.

(** [<] on [float64] is transitive and irreflexive, and [<=] followed by
    [<] gives [<]; all three hold with NaN and the infinities included. *)
Lemma ltb_trans (x y z : float) :
  PrimFloat.ltb x y = true -> PrimFloat.ltb y z = true -> PrimFloat.ltb x z = true.
Proof. rewrite !ltb_spec. apply SFltb_trans. Qed.

Lemma leb_ltb_trans (x y z : float) :
  PrimFloat.leb x y = true -> PrimFloat.ltb y z = true -> PrimFloat.ltb x z = true.
Proof. rewrite leb_spec, !ltb_spec. apply SFleb_ltb_trans. Qed.

Lemma ltb_irrefl (x : float) : PrimFloat.ltb x x = false.
Proof. rewrite ltb_spec. apply SFltb_irrefl. Qed.

Lemma ltb_asym (x y : float) : PrimFloat.ltb x y = true -> PrimFloat.ltb y x = false.
Proof.
  intros H. destruct (PrimFloat.ltb y x) eqn:E; [|reflexivity].
  pose proof (ltb_trans _ _ _ H E) as C. now rewrite ltb_irrefl in C.
Qed.

Lemma ltb_not_leb (x y : float) : PrimFloat.ltb x y = true -> PrimFloat.leb y x = false.
Proof.
  intros H. destruct (PrimFloat.leb y x) eqn:E; [|reflexivity].
  pose proof (leb_ltb_trans _ _ _ E H) as C. now rewrite ltb_irrefl in C.
Qed.

End FloatFacts.

(* ===================================================================== *)
(** * Properties of [prices] *)
(* ===================================================================== *)

Module PricesFacts.
Import Strings prices.

(** C7. When exactly one entry of the price list has a price equal to the
    amount, [FindBestProductMatch] returns that entry, whatever the
    description is. *)
Theorem exact_unique_price_match (ps : PriceService) (amount : float)
    (description : string) (p : Price) :
  List.filter (fun q => PrimFloat.eqb (Price_ q) amount) (prices ps) = [p] ->
  FindBestProductMatch ps amount description = Some p.
Proof.
  intros Hone. unfold FindBestProductMatch, GetProductsByPrice.
  rewrite Hone. reflexivity.
Qed.

(** C7 at the price list of the tests: 650 with no description is the
    cabin. *)
Lemma exact_unique_price_match_witness :
  List.filter (fun q => PrimFloat.eqb (Price_ q) 650) (prices Samples.testPrices)
    = [mkPrice "Cabin" 650 "NOK"] /\
  FindBestProductMatch Samples.testPrices 650 "" = Some (mkPrice "Cabin" 650 "NOK").
Proof.
  split; [reflexivity|].
  apply (exact_unique_price_match Samples.testPrices 650 "" (mkPrice "Cabin" 650 "NOK")).
  reflexivity.
Defined.

Section Loading.
Variable os_Open : string -> string + error.
Variable csv_ReadAll : string -> list (list string) + error.
Variable strconv_ParseFloat : string -> float + error.
Variable filepath_Abs : string -> string + error.

(** C10. A price file that reads as fewer than two records makes
    [loadPricesFromCSV] fail, [NewPriceService] fail with that error
    wrapped, and [InitializeServices] stop the process; no row is
    examined. *)
Theorem load_needs_two_records (ps : PriceService) (path file : string)
    (records : list (list string)) :
  os_Open path = inl file ->
  csv_ReadAll file = inl records ->
  (length records < 2)%nat ->
  loadPricesFromCSV os_Open csv_ReadAll strconv_ParseFloat ps path
    = (ps, Some Samples.tooFewRecords) /\
  NewPriceService os_Open csv_ReadAll strconv_ParseFloat path
    = inr (Errorf "failed to load prices from CSV: %w" [ArgError Samples.tooFewRecords]) /\
  (forall csvPath, filepath_Abs csvPath = inl path ->
     services.InitializeServices os_Open csv_ReadAll strconv_ParseFloat filepath_Abs csvPath
     = services.Fatal "Failed to initialize price service: %v"
         (Errorf "failed to load prices from CSV: %w" [ArgError Samples.tooFewRecords])).
Proof.
  intros Hopen Hread Hlen.
  assert (Hload : forall ps0,
             loadPricesFromCSV os_Open csv_ReadAll strconv_ParseFloat ps0 path
             = (ps0, Some Samples.tooFewRecords)).
  { intros ps0. unfold loadPricesFromCSV. rewrite Hopen, Hread.
    replace (len records <? 2) with true; [reflexivity|].
    symmetry. apply Z.ltb_lt. unfold len. lia. }
  assert (Hnew : NewPriceService os_Open csv_ReadAll strconv_ParseFloat path
                 = inr (Errorf "failed to load prices from CSV: %w"
                               [ArgError Samples.tooFewRecords])).
  { unfold NewPriceService. now rewrite Hload. }
  split; [apply Hload|]. split; [apply Hnew|].
  intros csvPath Habs. unfold services.InitializeServices.
  now rewrite Habs, Hnew.
Qed.
End Loading.

(** C10 at a file that holds the header row only. *)
Lemma load_needs_two_records_witness :
  Samples.open_headerOnly "prices.csv" = inl Samples.headerOnlyFile /\
  Samples.read_headerOnly Samples.headerOnlyFile = inl Samples.headerOnlyRecords /\
  (length Samples.headerOnlyRecords < 2)%nat /\
  NewPriceService Samples.open_headerOnly Samples.read_headerOnly Samples.parse_never
    "prices.csv"
  = inr (Errorf "failed to load prices from CSV: %w" [ArgError Samples.tooFewRecords]).
Proof.
  split; [reflexivity|]. split; [reflexivity|]. split; [simpl; lia|].
  apply (load_needs_two_records Samples.open_headerOnly Samples.read_headerOnly
           Samples.parse_never Samples.abs_id (mkPriceService []) "prices.csv"
           Samples.headerOnlyFile Samples.headerOnlyRecords);
    [reflexivity | reflexivity | simpl; lia].
Defined.

(** What the loops of [fuzzyMatch] count: the description words that
    match some product word. *)
Lemma outerLoop_counts_description_words (descWords prodWords : list string) (n : Z) :
  outerLoop descWords prodWords n
  = n + len (List.filter (fun dWord => existsb (wordsMatch dWord) prodWords) descWords).
Proof.
  assert (Hin : forall d, innerLoop d prodWords = existsb (wordsMatch d) prodWords).
  { intros d. induction prodWords as [|w ws IH]; simpl; [reflexivity|].
    rewrite IH. now destruct (wordsMatch d w). }
  revert n. induction descWords as [|d ds IH]; intros n; simpl.
  - unfold len. simpl. lia.
  - rewrite IH, Hin. destruct (existsb (wordsMatch d) prodWords); unfold len; simpl; lia.
Qed.

(** Past the shortcuts, [fuzzyMatch] compares the number of description
    words that match some product word with 40% of the number of product
    words. *)
Lemma fuzzyMatch_word_loops (description productName : string) :
  reachesWordLoops description productName ->
  let descWords := Fields (ToLower (TrimSpace description)) in
  let prodWords := Fields (ToLower (TrimSpace productName)) in
  fuzzyMatch description productName
  = if len prodWords =? 0 then false
    else PrimFloat.leb
           (PrimFloat.mul (float64 (len prodWords)) c0_4)
           (float64 (len (List.filter (fun dWord => existsb (wordsMatch dWord) prodWords)
                                      descWords))).
Proof.
  intros (Hd & Hp & Hne & Hc1 & Hc2). unfold fuzzyMatch.
  apply String.eqb_neq in Hd, Hp, Hne. rewrite Hd, Hp, Hne, Hc1, Hc2. simpl.
  now rewrite outerLoop_counts_description_words.
Qed.

(** C5. The specification counts the product words that are hit; the
    program counts the description words that hit.  For the description
    "tent and tent" and the product "Caravan/motorhome/tent 1-2 pers" the
    word loops are reached and one product word of three is hit (below
    40%), so the match of the specification fails, yet [fuzzyMatch]
    answers [true]: it counts the two description words "tent".  For
    "caravan/pers" and "Caravan motorhome tent 1-2 pers" two product words
    of five are hit (40%), so the match of the specification succeeds, yet
    [fuzzyMatch] answers [false]: it counts one description word. *)
Theorem fuzzyMatch_counts_description_words :
  (reachesWordLoops Samples.repeatedDescription Samples.tentProduct /\
   hitCount (Fields (ToLower Samples.repeatedDescription))
            (Fields (ToLower Samples.tentProduct)) = 1 /\
   len (Fields (ToLower Samples.tentProduct)) = 3 /\
   outerLoop (Fields (ToLower Samples.repeatedDescription))
             (Fields (ToLower Samples.tentProduct)) 0 = 2 /\
   fuzzyMatch_spec Samples.repeatedDescription Samples.tentProduct = false /\
   fuzzyMatch Samples.repeatedDescription Samples.tentProduct = true) /\
  (reachesWordLoops Samples.joinedDescription Samples.splitProduct /\
   hitCount (Fields (ToLower Samples.joinedDescription))
            (Fields (ToLower Samples.splitProduct)) = 2 /\
   len (Fields (ToLower Samples.splitProduct)) = 5 /\
   outerLoop (Fields (ToLower Samples.joinedDescription))
             (Fields (ToLower Samples.splitProduct)) 0 = 1 /\
   fuzzyMatch_spec Samples.joinedDescription Samples.splitProduct = true /\
   fuzzyMatch Samples.joinedDescription Samples.splitProduct = false).
Proof.
  unfold reachesWordLoops.
  repeat split; try discriminate; vm_compute; reflexivity.
Qed.

(** ** The tolerance strategy *)

Lemma firstFuzzy_none (description : string) (l : list Price) :
  (forall p, In p l -> fuzzyMatch description (Product p) = false) ->
  firstFuzzy description l = None.
Proof.
  intros H. unfold firstFuzzy.
  destruct (List.find _ l) as [p|] eqn:E; [|reflexivity].
  apply find_some in E as [Hin Hf]. rewrite (H p Hin) in Hf. discriminate.
Qed.

(** Under [fallsToTolerance] the cascade reaches the fourth strategy. *)
Lemma falls_to_strategy4 (ps : PriceService) (amount : float) (description : string) :
  fallsToTolerance ps amount description ->
  FindBestProductMatch ps amount description = strategy4 ps amount description.
Proof.
  intros [Hfuzzy Hexact]. unfold FindBestProductMatch, GetProductsByPrice.
  fold (exactMatches ps amount).
  rewrite (firstFuzzy_none description (prices ps) Hfuzzy).
  destruct Hexact as [-> | [-> Hlen]].
  - cbn. now destruct (negb _).
  - destruct (exactMatches ps amount) as [|p0 [|p1 rest]]; simpl in Hlen; try lia.
    reflexivity.
Qed.

(** What the closest-price loop leaves in [closest]: either it never
    assigned, because no entry is closer than [minDiff], or the first of
    the closest entries, which is closer than [minDiff]. *)
Lemma closestLoop_result (amount : float) (l : list Price) :
  forall (closest : option Price) (minDiff : float),
    (closestLoop amount l closest minDiff = closest /\
     forall q, In q l -> PrimFloat.ltb (priceDiff amount q) minDiff = false) \/
    (exists (i : nat) (p : Price),
        closestLoop amount l closest minDiff = Some p /\
        PrimFloat.ltb (priceDiff amount p) minDiff = true /\
        firstClosest amount l i p).
Proof.
  induction l as [|x l IH]; intros closest minDiff; simpl.
  - left. split; [reflexivity | intros q []].
  - destruct (PrimFloat.ltb (priceDiff amount x) minDiff) eqn:Hx.
    + destruct (IH (Some x) (priceDiff amount x)) as [[Hr Hall] | (i & p & Hr & Hp & Hi & Hmin)].
      * right. exists 0%nat, x. split; [exact Hr|]. split; [exact Hx|].
        split; [reflexivity|]. intros [|j] q Hq; simpl in Hq.
        -- injection Hq as <-. split; [apply FloatFacts.ltb_irrefl | lia].
        -- split; [|lia]. apply Hall. apply list_elem_of_In.
           eapply list_elem_of_lookup_2; eauto.
      * right. exists (S i), p. split; [exact Hr|].
        split; [eapply FloatFacts.ltb_trans; eauto|].
        split; [exact Hi|]. intros [|j] q Hq; simpl in Hq.
        -- injection Hq as <-.
           split; [now apply FloatFacts.ltb_asym | intros _; now apply FloatFacts.ltb_not_leb].
        -- destruct (Hmin j q Hq) as [H1 H2]. split; [exact H1 | intros; apply H2; lia].
    + destruct (IH closest minDiff) as [[Hr Hall] | (i & p & Hr & Hp & Hi & Hmin)].
      * left. split; [exact Hr|]. intros q [<- | Hq]; [exact Hx | now apply Hall].
      * right. exists (S i), p. split; [exact Hr|]. split; [exact Hp|].
        split; [exact Hi|]. intros [|j] q Hq; simpl in Hq.
        -- injection Hq as <-. split.
           ++ destruct (PrimFloat.ltb (priceDiff amount x) (priceDiff amount p)) eqn:E;
                [|reflexivity].
              rewrite (FloatFacts.ltb_trans _ _ _ E Hp) in Hx. discriminate.
           ++ intros _.
              destruct (PrimFloat.leb (priceDiff amount x) (priceDiff amount p)) eqn:E;
                [|reflexivity].
              rewrite (FloatFacts.leb_ltb_trans _ _ _ E Hp) in Hx. discriminate.
        -- destruct (Hmin j q Hq) as [H1 H2]. split; [exact H1 | intros; apply H2; lia].
Qed.

(** C6, as stated, fails: a refund of 98 against a list with a single
    entry priced -100.  The first three strategies fail and nothing
    fuzzy-matches, the entry lies between the two ends of the window
    (-102.9 and -93.1), and [FindBestProductMatch] returns no match,
    because [GetProductsByPriceRange] rejects a window whose low end is
    above its high end. *)
Lemma tolerance_match_negative_amount :
  fallsToTolerance Samples.refundPrices Samples.refundAmount "" /\
  List.filter (liesInWindow Samples.refundAmount) (prices Samples.refundPrices)
    = [mkPrice "Refund" (-100) "NOK"] /\
  FindBestProductMatch Samples.refundPrices Samples.refundAmount "" = None.
Proof.
  split; [|split; vm_compute; reflexivity].
  split; [|left; vm_compute; reflexivity].
  intros p [<- | []]. vm_compute. reflexivity.
Qed.

(** The bound [tolerance + 1] of the closest-price loop matters for huge
    amounts: at 1e20 it equals the tolerance, the entry at the high end
    of the window is not closer than it, and no match is returned. *)
Lemma tolerance_match_huge_amount :
  fallsToTolerance Samples.hugePrices Samples.hugeAmount "" /\
  windowEntries Samples.hugePrices Samples.hugeAmount = [mkPrice "Big" 1.05e20 "NOK"] /\
  PrimFloat.ltb (priceDiff Samples.hugeAmount (mkPrice "Big" 1.05e20 "NOK"))
                (diffBound Samples.hugeAmount) = false /\
  FindBestProductMatch Samples.hugePrices Samples.hugeAmount "" = None.
Proof.
  split; [|repeat split; vm_compute; reflexivity].
  split; [|left; vm_compute; reflexivity].
  intros p [<- | []]. vm_compute. reflexivity.
Qed.

(** C6, amended.  When the first three strategies fail and no product
    name fuzzy-matches the description: if the low end of the window is
    above its high end (a negative amount), no match is returned;
    otherwise the entries considered are those priced from the low end up
    to the high end, and the result is the first, in list order, of the
    entries closest to the amount, provided it is closer than the
    tolerance plus one; when no entry of the window is closer than the
    tolerance plus one, in particular when the window is empty, no match
    is returned.  No error is produced in any case. *)
Theorem tolerance_match_closest (ps : PriceService) (amount : float)
    (description : string) :
  fallsToTolerance ps amount description ->
  if PrimFloat.ltb (windowHigh amount) (windowLow amount) then
    FindBestProductMatch ps amount description = None
  else
    match FindBestProductMatch ps amount description with
    | Some p =>
        PrimFloat.ltb (priceDiff amount p) (diffBound amount) = true /\
        exists i, firstClosest amount (windowEntries ps amount) i p
    | None =>
        forall q, In q (windowEntries ps amount) ->
                  PrimFloat.ltb (priceDiff amount q) (diffBound amount) = false
    end.
Proof.
  intros Hfall. rewrite (falls_to_strategy4 _ _ _ Hfall).
  destruct Hfall as [Hfuzzy _].
  unfold strategy4, GetProductsByPriceRange.
  fold (windowLow amount) (windowHigh amount).
  destruct (PrimFloat.ltb (windowHigh amount) (windowLow amount)); [reflexivity|].
  change (List.filter _ (prices ps)) with (windowEntries ps amount).
  assert (Hsub : forall p, In p (windowEntries ps amount) ->
                           fuzzyMatch description (Product p) = false).
  { intros p Hp. apply Hfuzzy. unfold windowEntries in Hp.
    now apply filter_In in Hp as [Hp _]. }
  destruct (windowEntries ps amount) as [|w ws] eqn:HW; [intros q []|].
  rewrite (firstFuzzy_none description (w :: ws) Hsub).
  assert (Hnone : (if negb (String.eqb description "") then @None Price else None) = None)
    by now destruct (negb _).
  rewrite Hnone. fold (diffBound amount).
  destruct (closestLoop_result amount (w :: ws) None (diffBound amount))
    as [[-> Hall] | (i & p & -> & Hp & Hfirst)].
  - exact Hall.
  - split; [exact Hp | now exists i].
Qed.

(** C6, amended, at the price list of the tests: 14.5 with no description
    is the shower, priced 15. *)
Lemma tolerance_match_closest_witness :
  fallsToTolerance Samples.testPrices 14.5 "" /\
  FindBestProductMatch Samples.testPrices 14.5 "" = Some (mkPrice "Shower" 15 "NOK") /\
  exists i, firstClosest 14.5 (windowEntries Samples.testPrices 14.5) i
              (mkPrice "Shower" 15 "NOK").
Proof.
  assert (Hfall : fallsToTolerance Samples.testPrices 14.5 "").
  { split; [|left; vm_compute; reflexivity].
    intros p Hp. reflexivity. }
  split; [exact Hfall|]. split; [vm_compute; reflexivity|].
  pose proof (tolerance_match_closest Samples.testPrices 14.5 "" Hfall) as H.
  vm_compute in H. destruct H as [_ H]. exact H.
Defined.

End PricesFacts.

(* ===================================================================== *)
(** * Properties of the enrichment step *)
(* ===================================================================== *)

Module EnrichFacts.
Import entities services.

(** C9. The enrichment step is a function of the transaction passed by
    value, so the caller's transaction is not changed.  The transaction
    it returns has every field other than [Product] and [ProductPrice]
    equal to the input's; when the price matcher finds an entry, these
    two fields are the entry's product name and price; when it finds
    none, or no price service is set, the result is the input. *)
Theorem enrich_changes_only_product_fields
    (PriceService : option prices.PriceService) (transaction : Transaction) :
  let enriched := enrichTransactionWithProduct PriceService transaction in
  sameUnifiedFields enriched transaction /\
  match PriceService with
  | None => enriched = transaction
  | Some ps =>
      match prices.FindBestProductMatch ps (Amount transaction) (Description transaction) with
      | Some matchedProduct =>
          Product enriched = Some (prices.Product matchedProduct) /\
          ProductPrice enriched = Some (prices.Price_ matchedProduct)
      | None => enriched = transaction
      end
  end.
Proof.
  unfold enrichTransactionWithProduct, sameUnifiedFields.
  destruct PriceService as [ps|]; cbn zeta.
  - destruct (prices.FindBestProductMatch ps (Amount transaction) (Description transaction));
      cbn; repeat split; reflexivity.
  - repeat split; reflexivity.
Qed.

(** The slice version enriches element by element into a new slice. *)
Lemma enrichTransactionsWithProducts_pointwise
    (PriceService : option prices.PriceService) (transactions : list Transaction) :
  enrichTransactionsWithProducts PriceService transactions
  = List.map (enrichTransactionWithProduct PriceService) transactions.
Proof.
  unfold enrichTransactionsWithProducts. destruct PriceService; [reflexivity|].
  induction transactions as [|t ts IH]; simpl; [reflexivity|]. now rewrite <- IH.
Qed.

End EnrichFacts.

(* ===================================================================== *)
(** * Properties of [cache] *)
(* ===================================================================== *)

Module CacheFacts.
Import entities.

Lemma transactionKey_inj (a b : string) :
  cache.transactionKey a = cache.transactionKey b -> a = b.
Proof. unfold cache.transactionKey. intros H. now apply (inj (String.app "transaction:")) in H. Qed.

Lemma transactionKey_prefix (key : string) :
  Strings.HasPrefix (cache.transactionKey key) "transaction:" = true.
Proof. reflexivity. Qed.

Lemma day_positive : 0 < 24 * time.Hour.
Proof. reflexivity. Qed.

(** What [SetTransaction] with a TTL of 24 hours does to the items. *)
Lemma SetTransaction_items (c : cache.InMemoryCache) (now : Z) (t : Transaction) :
  gocache.items (cache.SetTransaction c now (ID t) t (24 * time.Hour))
  = <[cache.transactionKey (ID t) := repository.cachedFor24h now t]> (gocache.items c).
Proof. reflexivity. Qed.

(** An item stored for 24 hours has not expired at the instant it was
    stored. *)
Lemma cachedFor24h_fresh (now : Z) (t : Transaction) :
  gocache.Expired now (repository.cachedFor24h now t) = false.
Proof.
  unfold gocache.Expired, repository.cachedFor24h. simpl.
  apply andb_false_iff. right. apply Z.ltb_ge. pose proof day_positive. lia.
Qed.

(** An unexpired transaction item is among the transactions listed. *)
Lemma GetTransactions_lists (c : cache.InMemoryCache) (now : Z) (key : string)
    (t : Transaction) (e : Z) :
  gocache.items c !! cache.transactionKey key
    = Some (gocache.mkItem (gocache.ObjTransaction t) e) ->
  gocache.Expired now (gocache.mkItem (gocache.ObjTransaction t) e) = false ->
  In t (cache.GetTransactions c now "").
Proof.
  intros Hlook Hfresh. unfold cache.GetTransactions. apply in_flat_map.
  exists (cache.transactionKey key, gocache.mkItem (gocache.ObjTransaction t) e). split.
  - apply list_elem_of_In, elem_of_map_to_list. unfold gocache.Items.
    apply map_lookup_filter_Some. split; [exact Hlook | exact Hfresh].
  - unfold cache.selectTransaction. rewrite transactionKey_prefix. now left.
Qed.

(** A transaction listed is stored, unexpired, under a transaction key. *)
Lemma GetTransactions_listed (c : cache.InMemoryCache) (now : Z) (t : Transaction) :
  In t (cache.GetTransactions c now "") ->
  exists key e, gocache.items c !! key = Some (gocache.mkItem (gocache.ObjTransaction t) e) /\
                gocache.Expired now (gocache.mkItem (gocache.ObjTransaction t) e) = false.
Proof.
  unfold cache.GetTransactions. intros H. apply in_flat_map in H as [[key item] [Hin Hsel]].
  apply list_elem_of_In, elem_of_map_to_list in Hin. unfold gocache.Items in Hin.
  apply map_lookup_filter_Some in Hin as [Hlook Hfresh]. simpl in Hfresh.
  unfold cache.selectTransaction in Hsel.
  destruct (Strings.HasPrefix key "transaction:"); [|destruct Hsel].
  simpl in Hsel. destruct item as [[t'|p] e]; simpl in Hsel; [|destruct Hsel].
  destruct Hsel as [<- | []]. now exists key, e.
Qed.

End CacheFacts.

(* ===================================================================== *)
(** * Properties of [repository] *)
(* ===================================================================== *)

Module RepositoryFacts.
Import entities interfaces consts repository CacheFacts.

(** ** [RefreshCache] *)

Lemma fetchFrom_run (source : string) (client : option Transactions)
    (allTransactions : list Transaction) (w : World) :
  fetchFrom source client allTransactions w
  = (allTransactions ++ latestFetched client,
     mkWorld (wcache w) (clock w + latestElapsed client) (calls w ++ latestCall source client)).
Proof.
  destruct w as [c now cs]. destruct client as [cl|]; simpl.
  - unfold bind, call, ret. simpl.
    destruct (result (GetLatestTransactions cl 100)); [reflexivity|].
    now rewrite app_nil_r.
  - unfold ret. now rewrite app_nil_r, Z.add_0_r, app_nil_r.
Qed.

Lemma cacheAll_run (allTransactions : list Transaction) (w : World) :
  cacheAll allTransactions w
  = (tt, mkWorld (cachedAll (clock w) allTransactions (wcache w)) (clock w) (calls w)).
Proof.
  revert w. induction allTransactions as [|t ts IH]; intros [c now cs]; simpl.
  - reflexivity.
  - unfold bind, cache_SetTransaction. simpl. now rewrite IH.
Qed.

Lemma RefreshCache_run (r : TransactionRepository) (w : World) :
  RefreshCache r w
  = (None, mkWorld (cachedAll (clock w + refreshElapsed r) (refreshFetched r) (wcache w))
                   (clock w + refreshElapsed r) (calls w ++ refreshCalls r)).
Proof.
  unfold RefreshCache, bind. rewrite !fetchFrom_run, cacheAll_run. simpl.
  unfold ret, refreshElapsed, refreshCalls, refreshFetched.
  now rewrite !Z.add_assoc, <- !app_assoc.
Qed.

Lemma cachedAll_app now l1 l2 c :
  cachedAll now (l1 ++ l2) c = cachedAll now l2 (cachedAll now l1 c).
Proof. unfold cachedAll. apply fold_left_app. Qed.

(** A key that belongs to none of the transactions is left as it was. *)
Lemma cachedAll_other (now : Z) (l : list Transaction) (c : cache.InMemoryCache)
    (k : string) :
  (forall t, In t l -> k <> cache.transactionKey (ID t)) ->
  gocache.items (cachedAll now l c) !! k = gocache.items c !! k.
Proof.
  revert c. induction l as [|t ts IH]; intros c Hk; [reflexivity|].
  change (cachedAll now (t :: ts) c)
    with (cachedAll now ts (cache.SetTransaction c now (ID t) t (24 * time.Hour))).
  rewrite IH by (intros; apply Hk; now right).
  rewrite SetTransaction_items. apply lookup_insert_ne.
  intros E. apply (Hk t); [now left | now symmetry].
Qed.

(** Every transaction is stored under its id for 24 hours; of several with
    one id, one of them is. *)
Lemma cachedAll_stored (now : Z) (l : list Transaction) (c : cache.InMemoryCache)
    (t : Transaction) :
  In t l ->
  exists t', In t' l /\ ID t' = ID t /\
             gocache.items (cachedAll now l c) !! cache.transactionKey (ID t)
             = Some (cachedFor24h now t').
Proof.
  induction l as [|x xs IH] using rev_ind; intros Hin; [destruct Hin|].
  rewrite cachedAll_app.
  change (cachedAll now [x] (cachedAll now xs c))
    with (cache.SetTransaction (cachedAll now xs c) now (ID x) x (24 * time.Hour)).
  rewrite SetTransaction_items.
  destruct (decide (ID x = ID t)) as [E|N].
  - exists x. split; [apply in_or_app; right; now left|]. split; [exact E|].
    rewrite E. apply lookup_insert_eq.
  - apply in_app_or in Hin as [Hin | [-> | []]]; [|congruence].
    destruct (IH Hin) as (t' & Hin' & Hid & Hlook).
    exists t'. split; [apply in_or_app; now left|]. split; [exact Hid|].
    rewrite lookup_insert_ne; [exact Hlook|].
    intros E. apply N. now apply transactionKey_inj.
Qed.

(** After a refresh every transaction received is stored for 24 hours. *)
Lemma refreshed_items_stored (r : TransactionRepository) (w : World)
    (t : Transaction) :
  In t (refreshFetched r) ->
  exists t', In t' (refreshFetched r) /\ ID t' = ID t /\
             gocache.items (wcache (snd (RefreshCache r w))) !! cache.transactionKey (ID t)
             = Some (cachedFor24h (clock (snd (RefreshCache r w))) t').
Proof. rewrite RefreshCache_run. simpl. apply cachedAll_stored. Qed.

(** C2. [RefreshCache] never returns an error, whatever the providers
    answer.  It calls every configured provider exactly once, in the order
    stripe, vipps, zettle, each for its 100 latest transactions, whether
    or not the others failed; a provider that fails contributes nothing.
    Every transaction received is stored under its id with an expiry 24
    hours after the fetches (of several received with one id, one of them
    is stored), and every other cache entry is left as it was. *)
Theorem refresh_independent_providers (r : TransactionRepository) (w : World) :
  let w' := snd (RefreshCache r w) in
  fst (RefreshCache r w) = None /\
  calls w' = calls w ++ refreshCalls r /\
  clock w' = clock w + refreshElapsed r /\
  (forall t, In t (refreshFetched r) ->
     exists t', In t' (refreshFetched r) /\ ID t' = ID t /\
                gocache.items (wcache w') !! cache.transactionKey (ID t)
                = Some (cachedFor24h (clock w') t')) /\
  (forall k, (forall t, In t (refreshFetched r) -> k <> cache.transactionKey (ID t)) ->
     gocache.items (wcache w') !! k = gocache.items (wcache w) !! k).
Proof.
  rewrite RefreshCache_run. simpl.
  split; [reflexivity|]. split; [reflexivity|]. split; [reflexivity|]. split.
  - intros t Ht. now apply cachedAll_stored.
  - intros k Hk. now apply cachedAll_other.
Qed.

(** With stripe failing, vipps and zettle are still asked and their three
    transactions are cached. *)
Lemma refresh_sample :
  fst (RefreshCache Samples.sampleRepository Samples.coldWorld) = None /\
  calls Samples.warmWorld
  = [ CallGetLatestTransactions "stripe" 100;
      CallGetLatestTransactions "vipps" 100;
      CallGetLatestTransactions "zettle" 100 ] /\
  refreshFetched Samples.sampleRepository = [Samples.tx1; Samples.tx2; Samples.tx3] /\
  clock Samples.warmWorld = 1015.
Proof. repeat split; reflexivity. Qed.

(** ** [GetTransactionByID] *)

Lemma firstSuccess_found (id : string) (providers : list (string * option Transactions)) :
  forall (w w' : World) (t : Transaction),
    firstSuccess id providers w = (Some t, w') ->
    gocache.items (wcache w') !! cache.transactionKey (ID t) = Some (cachedFor24h (clock w') t) /\
    cache.GetTransaction (wcache w') (clock w') (ID t) = Some t.
Proof.
  induction providers as [|[source [c|]] rest IH]; intros w w' t H; simpl in H.
  - discriminate.
  - destruct (result (interfaces.GetTransactionByID c id)) as [t0|e]; [|now apply IH in H].
    injection H as <- <-. simpl.
    set (now := clock w + elapsed (interfaces.GetTransactionByID c id)).
    assert (Hitem : gocache.items
                      (cache.SetTransaction (wcache w) now (ID t0) t0 (24 * time.Hour))
                    !! cache.transactionKey (ID t0)
                    = Some (cachedFor24h now t0)).
    { rewrite SetTransaction_items. apply lookup_insert_eq. }
    split; [exact Hitem|].
    unfold cache.GetTransaction, gocache.Get. rewrite Hitem.
    now rewrite cachedFor24h_fresh.
  - now apply IH in H.
Qed.

(** The calls a list of adapters receives when none of them succeeds. *)
Lemma firstSuccess_none (id : string) (providers : list (string * option Transactions)) :
  forall (w w' : World),
    firstSuccess id providers w = (None, w') ->
    wcache w' = wcache w /\
    calls w' = calls w ++
               flat_map (fun sc : string * option Transactions =>
                           match snd sc with
                           | Some _ => [CallGetTransactionByID (fst sc) id]
                           | None => []
                           end) providers.
Proof.
  induction providers as [|[source [c|]] rest IH]; intros w w' H; simpl in H.
  - injection H as <-. now rewrite app_nil_r.
  - destruct (result (interfaces.GetTransactionByID c id)) as [t0|e]; [discriminate|].
    apply IH in H as [Hc Hcalls]. simpl in *. split; [exact Hc|].
    now rewrite Hcalls, <- app_assoc.
  - apply IH in H as [Hc Hcalls]. now split.
Qed.

(** C4. [GetTransactionByID] answers from the cache when the id is cached
    and unexpired, leaving the world as it is (no adapter is called).
    Otherwise the configured adapters are asked in the order stripe,
    vipps, zettle; a failure leads to the next adapter; the first success
    ends the look-up, and its transaction is returned after being stored
    under its id with an expiry 24 hours later, so that it can be read back
    from the cache.  When no adapter succeeds, every configured adapter
    has been asked, the cache is as it was, and the error names the id. *)
Theorem by_id_cache_then_providers (r : TransactionRepository) (id : string) (w : World) :
  GetTransactionByID r id w
  = match cache.GetTransaction (wcache w) (clock w) id with
    | Some transaction => ((transaction, None), w)
    | None =>
        match firstSuccess id (providersInOrder r) w with
        | (Some transaction, w') => ((transaction, None), w')
        | (None, w') => ((zeroTransaction, Some (notFound id)), w')
        end
    end /\
  (forall t w', firstSuccess id (providersInOrder r) w = (Some t, w') ->
     gocache.items (wcache w') !! cache.transactionKey (ID t)
       = Some (cachedFor24h (clock w') t) /\
     cache.GetTransaction (wcache w') (clock w') (ID t) = Some t) /\
  (forall w', firstSuccess id (providersInOrder r) w = (None, w') ->
     wcache w' = wcache w /\ calls w' = calls w ++ byIDCalls r id).
Proof.
  split; [|split].
  - unfold GetTransactionByID, bind, cache_GetTransaction. simpl.
    destruct (cache.GetTransaction (wcache w) (clock w) id); [reflexivity|].
    destruct r as [[s|] [v|] [z|]]; simpl;
      unfold tryProvider, bind, call, ret, cache_SetTransaction; simpl;
      repeat match goal with
             | |- context [result ?x] => destruct (result x); simpl
             end; reflexivity.
  - intros t w'. apply firstSuccess_found.
  - intros w'. apply firstSuccess_none.
Qed.

(** With stripe failing and vipps knowing the id, zettle is not asked. *)
Lemma by_id_sample :
  fst (GetTransactionByID Samples.sampleRepository "vipps_1" Samples.coldWorld)
    = (Samples.tx1, None) /\
  calls (snd (GetTransactionByID Samples.sampleRepository "vipps_1" Samples.coldWorld))
    = [CallGetTransactionByID "stripe" "vipps_1"; CallGetTransactionByID "vipps" "vipps_1"] /\
  fst (GetTransactionByID Samples.sampleRepository "nobody" Samples.coldWorld)
    = (zeroTransaction, Some (notFound "nobody")) /\
  calls (snd (GetTransactionByID Samples.sampleRepository "nobody" Samples.coldWorld))
    = [CallGetTransactionByID "stripe" "nobody"; CallGetTransactionByID "vipps" "nobody";
       CallGetTransactionByID "zettle" "nobody"].
Proof. repeat split; vm_compute; reflexivity. Qed.

(** ** [GetTransactions] *)

Lemma newestFirst_strictWeakOrder : strictWeakOrder newestFirst.
Proof.
  unfold strictWeakOrder, newestFirst, After. repeat split.
  - intros a. apply Z.ltb_irrefl.
  - intros a b c H1 H2. apply Z.ltb_lt in H1, H2. apply Z.ltb_lt. lia.
  - intros a b c H1 H2. apply Z.ltb_ge in H1, H2. apply Z.ltb_ge. lia.
Qed.

Lemma StronglySorted_lookup {A} (R : A -> A -> Prop) (l : list A) :
  StronglySorted R l ->
  forall (i j : nat) (a b : A), l !! i = Some a -> l !! j = Some b -> (i < j)%nat -> R a b.
Proof.
  induction 1 as [|x l Hsorted IH Hall]; intros i j a b Hi Hj Hlt.
  - discriminate.
  - destruct j as [|j]; [lia|]. simpl in Hj. destruct i as [|i]; simpl in Hi.
    + injection Hi as <-. rewrite Forall_forall in Hall. apply Hall.
      eapply list_elem_of_lookup_2; eauto.
    + eapply IH; eauto. lia.
Qed.

Lemma sorted_newestFirstOrdered (l : list Transaction) :
  StronglySorted (fun a b => newestFirst b a = false) l -> newestFirstOrdered l.
Proof.
  intros Hs i j a b Hi Hj Hlt.
  pose proof (StronglySorted_lookup _ _ Hs i j a b Hi Hj Hlt) as H.
  unfold newestFirst, After in H. now apply Z.ltb_ge in H.
Qed.

Lemma slicePrefix_newestFirstOrdered (l : list Transaction) (n : Z) :
  newestFirstOrdered l -> newestFirstOrdered (slicePrefix l n).
Proof.
  intros Hl i j a b Hi Hj Hlt. unfold slicePrefix in Hi, Hj.
  apply lookup_take_Some in Hi as [Hi _]. apply lookup_take_Some in Hj as [Hj _].
  eapply Hl; eauto.
Qed.

Lemma clampLimit_cases (limit : Z) :
  clampLimit limit = (if limit <? 1 then 25 else if 1000 <? limit then 1000 else limit).
Proof.
  unfold clampLimit, TRANSACTION_LIMIT_MIN, TRANSACTION_LIMIT_DEFAULT, TRANSACTION_LIMIT_MAX.
  destruct (limit <? 1); reflexivity.
Qed.

Lemma clampLimit_range (limit : Z) : 1 <= clampLimit limit <= 1000.
Proof.
  rewrite clampLimit_cases.
  destruct (Z.ltb_spec limit 1); [lia|]. destruct (Z.ltb_spec 1000 limit); lia.
Qed.

Lemma slicePrefix_all {A} (l : list A) (n : Z) : len l <= n -> slicePrefix l n = l.
Proof. intros H. unfold slicePrefix. apply firstn_all2. unfold len in H. lia. Qed.

Lemma slicePrefix_len {A} (l : list A) (n : Z) : 0 <= n <= len l -> len (slicePrefix l n) = n.
Proof.
  intros H. unfold slicePrefix, len in *. rewrite length_firstn. lia.
Qed.

Section Sorting.
Variable sort_Slice : (Transaction -> Transaction -> bool) -> list Transaction -> list Transaction.
Hypothesis sort_Slice_sorts : sortsSlices sort_Slice.

Lemma sort_Slice_len less l : len (sort_Slice less l) = len l.
Proof.
  unfold len. f_equal. apply Permutation_length. apply sort_Slice_sorts.
Qed.

(** While the cache is not empty, [GetTransactions] never reaches the
    call of [RefreshCache]. *)
Lemma GetTransactionsWith_warm (refresh : M (option error)) (limit : Z) (w : World) :
  cached w <> [] ->
  GetTransactionsWith sort_Slice refresh limit w
  = ((slicePrefix (sort_Slice newestFirst (cached w)) (clampLimit limit), None), w).
Proof.
  intros Hne. unfold GetTransactionsWith, bind, cache_GetTransactions. simpl.
  fold (cached w).
  destruct (Z.leb_spec (clampLimit limit) (len (sort_Slice newestFirst (cached w)))) as [Hle|Hgt].
  - reflexivity.
  - assert (Hpos : 0 < len (sort_Slice newestFirst (cached w))).
    { rewrite sort_Slice_len. unfold len. destruct (cached w); [congruence | simpl; lia]. }
    apply Z.ltb_lt in Hpos. rewrite Hpos. unfold ret.
    rewrite slicePrefix_all by lia. reflexivity.
Qed.

(** On an empty cache [GetTransactions] runs the refresh once and
    follows its outcome. *)
Lemma GetTransactionsWith_cold (refresh : M (option error)) (limit : Z) (w : World) :
  cached w = [] ->
  GetTransactionsWith sort_Slice refresh limit w
  = match refresh w with
    | (Some e, w1) => (([], Some (refreshFailed e)), w1)
    | (None, w1) =>
        ((slicePrefix (sort_Slice newestFirst (cached w1)) (clampLimit limit), None), w1)
    end.
Proof.
  intros Hempty. unfold GetTransactionsWith, bind, cache_GetTransactions. simpl.
  fold (cached w). rewrite Hempty.
  assert (Hnil : sort_Slice newestFirst [] = []).
  { apply Permutation_nil_r. apply sort_Slice_sorts. }
  rewrite Hnil. pose proof (clampLimit_range limit) as Hrange.
  replace (clampLimit limit <=? len []) with false
    by (symmetry; apply Z.leb_gt; unfold len; simpl; lia).
  change (0 <? len []) with false. cbv beta iota.
  destruct (refresh w) as [[e|] w1]; [reflexivity|]. cbv beta iota. fold (cached w1).
  destruct (Z.ltb_spec (clampLimit limit) (len (sort_Slice newestFirst (cached w1))));
    unfold ret; [reflexivity|].
  now rewrite slicePrefix_all.
Qed.

(** C3. On a cache that holds transactions, [GetTransactions] returns,
    without an error and without touching the cache or any provider, the
    cached transactions sorted newest first and cut to the clamped limit:
    a limit below 1 counts as 25 and a limit above 1000 as 1000; when the
    cache holds at least that many transactions exactly that many are
    returned, and when it holds fewer all of them are. *)
Theorem get_transactions_from_cache (r : TransactionRepository) (limit : Z) (w : World) :
  cached w <> [] ->
  let n := clampLimit limit in
  let sorted := sort_Slice newestFirst (cached w) in
  let out := slicePrefix sorted n in
  GetTransactions sort_Slice r limit w = ((out, None), w) /\
  n = (if limit <? 1 then 25 else if 1000 <? limit then 1000 else limit) /\
  Permutation sorted (cached w) /\
  newestFirstOrdered out /\
  (n <= len (cached w) -> len out = n) /\
  (len (cached w) < n -> out = sorted).
Proof.
  intros Hne n sorted out.
  split; [now apply GetTransactionsWith_warm|].
  split; [apply clampLimit_cases|].
  split; [apply sort_Slice_sorts|].
  split.
  - apply slicePrefix_newestFirstOrdered, sorted_newestFirstOrdered.
    apply sort_Slice_sorts, newestFirst_strictWeakOrder.
  - pose proof (clampLimit_range limit) as Hrange. split; intros H.
    + apply slicePrefix_len. unfold sorted. rewrite sort_Slice_len. fold n. lia.
    + apply slicePrefix_all. unfold sorted. rewrite sort_Slice_len. lia.
Qed.

(** What the providers delivered is in the cache right after a refresh. *)
Lemma refreshed_is_cached (r : TransactionRepository) (w : World) (t : Transaction) :
  In t (refreshFetched r) ->
  exists t', In t' (cached (snd (RefreshCache r w))) /\ ID t' = ID t.
Proof.
  intros Hin.
  destruct (refreshed_items_stored r w t Hin) as (t' & _ & Hid & Hlook).
  exists t'. split; [|exact Hid].
  eapply GetTransactions_lists; [exact Hlook | apply cachedFor24h_fresh].
Qed.


End Sorting.

(** ** The contract of [sort.Slice] can be met: insertion sort meets it *)

Lemma insertBy_perm {A} (less : A -> A -> bool) (x : A) (l : list A) :
  Permutation (Samples.insertBy less x l) (x :: l).
Proof.
  induction l as [|y l IH]; simpl; [reflexivity|].
  destruct (less y x); [|reflexivity].
  rewrite IH. apply perm_swap.
Qed.

Lemma insertionSort_perm {A} (less : A -> A -> bool) (l : list A) :
  Permutation (Samples.insertionSort less l) l.
Proof.
  induction l as [|x l IH]; simpl; [reflexivity|].
  rewrite insertBy_perm. now constructor.
Qed.

Lemma insertBy_sorted {A} (less : A -> A -> bool) (x : A) (l : list A) :
  strictWeakOrder less ->
  StronglySorted (fun a b => less b a = false) l ->
  StronglySorted (fun a b => less b a = false) (Samples.insertBy less x l).
Proof.
  intros (Hirr & Htrans & Hneg) Hs.
  induction Hs as [|y l Hs IH Hall]; simpl.
  - repeat constructor.
  - destruct (less y x) eqn:Hyx.
    + constructor; [exact IH|].
      rewrite (insertBy_perm less x l). constructor; [|exact Hall].
      destruct (less x y) eqn:Hxy; [|reflexivity].
      pose proof (Htrans _ _ _ Hyx Hxy) as C. now rewrite Hirr in C.
    + constructor; [now constructor|].
      constructor; [exact Hyx|].
      rewrite Forall_forall in Hall |- *. intros z Hz.
      apply (Hneg z y x); [now apply Hall | exact Hyx].
Qed.

Lemma insertionSort_sortsSlices : sortsSlices (@Samples.insertionSort Transaction).
Proof.
  intros less l. split; [apply insertionSort_perm|].
  intros Hswo. induction l as [|x l IH]; simpl; [constructor|].
  now apply insertBy_sorted.
Qed.

(** ** The theorems at the sample repository *)

(** C3 at the refreshed sample world: a limit of 0 counts as 25 and
    returns all three transactions, newest first; a limit of 2 returns the
    two newest. *)
Lemma get_transactions_from_cache_witness :
  sortsSlices (@Samples.insertionSort Transaction) /\
  cached Samples.warmWorld <> [] /\
  GetTransactions (@Samples.insertionSort Transaction) Samples.sampleRepository 0
                  Samples.warmWorld
  = (([Samples.tx2; Samples.tx3; Samples.tx1], None), Samples.warmWorld) /\
  fst (fst (GetTransactions (@Samples.insertionSort Transaction) Samples.sampleRepository 2
                            Samples.warmWorld))
  = [Samples.tx2; Samples.tx3].
Proof.
  assert (Hne : cached Samples.warmWorld <> []) by (vm_compute; discriminate).
  split; [exact insertionSort_sortsSlices|]. split; [exact Hne|]. split.
  - destruct (get_transactions_from_cache (@Samples.insertionSort Transaction)
                insertionSort_sortsSlices Samples.sampleRepository 0 Samples.warmWorld Hne)
      as [Heq _].
    rewrite Heq. vm_compute. reflexivity.
  - destruct (get_transactions_from_cache (@Samples.insertionSort Transaction)
                insertionSort_sortsSlices Samples.sampleRepository 2 Samples.warmWorld Hne)
      as [Heq _].
    rewrite Heq. vm_compute. reflexivity.
Defined.


End RepositoryFacts.

(* ===================================================================== *)
(** * More properties of the [strings] functions *)
(* ===================================================================== *)

Module TrimFacts.
Import Strings Structural.

Lemma append_cons c s t : String c s +:+ t = String c (s +:+ t).
Proof. reflexivity. Qed.

Lemma append_assoc s t u : (s +:+ t) +:+ u = s +:+ (t +:+ u).
Proof. induction s as [|c s IH]; [reflexivity|]. now rewrite !append_cons, IH. Qed.

Lemma rev_app_app s1 s2 : String.rev_app s1 s2 = String.rev s1 +:+ s2.
Proof.
  unfold String.rev. revert s2. induction s1 as [|c s1 IH]; intros s2; simpl; [reflexivity|].
  rewrite IH, (IH (String c "")). now rewrite append_assoc.
Qed.

Lemma rev_cons c s : String.rev (String c s) = String.rev s +:+ String c "".
Proof. unfold String.rev at 1. simpl. apply rev_app_app. Qed.

Lemma rev_snoc s c : String.rev (s +:+ String c "") = String c (String.rev s).
Proof.
  induction s as [|d s IH]; [reflexivity|].
  rewrite append_cons, !rev_cons, IH. reflexivity.
Qed.

Lemma TrimLeftFunc_app f x y :
  TrimLeftFunc f (x +:+ y)
  = if isEmpty (TrimLeftFunc f x) then TrimLeftFunc f y else TrimLeftFunc f x +:+ y.
Proof.
  induction x as [|c x IH]; [reflexivity|].
  rewrite append_cons. simpl. destruct (f c); [exact IH | reflexivity].
Qed.

Lemma rev_isEmpty s : isEmpty (String.rev s) = isEmpty s.
Proof. destruct s as [|c s]; [reflexivity|]. rewrite rev_cons. now destruct (String.rev s). Qed.

(** Trimming on the right, without reversing the string. *)
Lemma TrimRightFunc_structural f s : TrimRightFunc f s = trimRight f s.
Proof.
  unfold TrimRightFunc. induction s as [|c s IH]; [reflexivity|].
  rewrite rev_cons, TrimLeftFunc_app. simpl trimRight. rewrite <- IH, rev_isEmpty.
  destruct (isEmpty (TrimLeftFunc f (String.rev s))) eqn:E.
  - simpl. destruct (f c); [reflexivity|].
    destruct (TrimLeftFunc f (String.rev s)); [reflexivity|discriminate].
  - simpl. apply rev_snoc.
Qed.

Lemma trimRight_idem f s : trimRight f (trimRight f s) = trimRight f s.
Proof.
  induction s as [|c s IH]; [reflexivity|]. simpl.
  destruct (isEmpty (trimRight f s) && f c) eqn:E; [reflexivity|].
  simpl. rewrite IH, E. reflexivity.
Qed.

Lemma TrimLeftFunc_idem f s : TrimLeftFunc f (TrimLeftFunc f s) = TrimLeftFunc f s.
Proof.
  induction s as [|c s IH]; [reflexivity|]. simpl.
  destruct (f c) eqn:E; [exact IH|]. simpl. now rewrite E.
Qed.

Lemma TrimLeftFunc_head f s c t : TrimLeftFunc f s = String c t -> f c = false.
Proof.
  induction s as [|d s IH]; simpl; [discriminate|].
  destruct (f d) eqn:E; [exact IH|]. intros [= <- <-]. exact E.
Qed.

Lemma TrimLeft_trimRight f s :
  TrimLeftFunc f s = s -> TrimLeftFunc f (trimRight f s) = trimRight f s.
Proof.
  intros H. destruct s as [|c s]; [reflexivity|].
  pose proof (TrimLeftFunc_head f _ _ _ H) as Hc.
  simpl. rewrite Hc, andb_false_r. simpl. now rewrite Hc.
Qed.

Lemma TrimFunc_idem f s : TrimFunc f (TrimFunc f s) = TrimFunc f s.
Proof.
  unfold TrimFunc. rewrite !TrimRightFunc_structural.
  rewrite (TrimLeft_trimRight f (TrimLeftFunc f s)) by apply TrimLeftFunc_idem.
  apply trimRight_idem.
Qed.

Lemma Map_isEmpty g s : isEmpty (Map g s) = isEmpty s.
Proof. now destruct s. Qed.

Lemma TrimFunc_Map f g s :
  (forall c, f (g c) = f c) -> TrimFunc f (Map g s) = Map g (TrimFunc f s).
Proof.
  intros Hfg. unfold TrimFunc. rewrite !TrimRightFunc_structural.
  assert (HL : forall u, TrimLeftFunc f (Map g u) = Map g (TrimLeftFunc f u)).
  { induction u as [|c u IH]; [reflexivity|]. simpl. rewrite Hfg. now destruct (f c). }
  assert (HR : forall u, trimRight f (Map g u) = Map g (trimRight f u)).
  { induction u as [|c u IH]; [reflexivity|]. simpl. rewrite IH, Map_isEmpty, Hfg.
    now destruct (isEmpty (trimRight f u) && f c). }
  now rewrite HL, HR.
Qed.

Lemma isSpace_lowerByte c : isSpace (lowerByte c) = isSpace c.
Proof. destruct c as [[] [] [] [] [] [] [] []]; reflexivity. Qed.

Lemma isSpace_upperByte c : isSpace (upperByte c) = isSpace c.
Proof. destruct c as [[] [] [] [] [] [] [] []]; reflexivity. Qed.

Lemma TrimSpace_idem s : TrimSpace (TrimSpace s) = TrimSpace s.
Proof. apply TrimFunc_idem. Qed.

Lemma TrimSpace_ToLower s : TrimSpace (ToLower s) = ToLower (TrimSpace s).
Proof. apply TrimFunc_Map, isSpace_lowerByte. Qed.

Lemma TrimSpace_ToUpper s : TrimSpace (ToUpper s) = ToUpper (TrimSpace s).
Proof. apply TrimFunc_Map, isSpace_upperByte. Qed.

(** What a string is reduced to before it is compared: trimmed and
    lower-cased.  Changing the case of letters or trimming first does not
    change it. *)
Lemma folded_ToUpper s : ToLower (TrimSpace (ToUpper s)) = ToLower (TrimSpace s).
Proof. now rewrite TrimSpace_ToUpper, StringsFacts.ToLower_ToUpper. Qed.

Lemma folded_ToLower s : ToLower (TrimSpace (ToLower s)) = ToLower (TrimSpace s).
Proof. now rewrite TrimSpace_ToLower, StringsFacts.ToLower_idem. Qed.

Lemma folded_TrimSpace s : ToLower (TrimSpace (TrimSpace s)) = ToLower (TrimSpace s).
Proof. now rewrite TrimSpace_idem. Qed.

Lemma ToLower_empty s : ToLower s = "" <-> s = "".
Proof. split; [now destruct s | now intros ->]. Qed.

Lemma ToUpper_empty s : ToUpper s = "" <-> s = "".
Proof. split; [now destruct s | now intros ->]. Qed.

Lemma EqualFold_refl s : EqualFold s s = true.
Proof. apply String.eqb_refl. Qed.

Lemma EqualFold_sym s t : EqualFold s t = EqualFold t s.
Proof. apply String.eqb_sym. Qed.

End TrimFacts.

(* ===================================================================== *)
(** * More properties of [statushelpers] *)
(* ===================================================================== *)

Module StatusExtra.
Import Strings StringsFacts TrimFacts consts statushelpers StatusFacts.

Lemma In_by_eqb (s : string) (l : list string) :
  existsb (String.eqb s) l = true -> In s l.
Proof.
  intros H. apply existsb_exists in H as (x & Hin & Heq).
  apply String.eqb_eq in Heq. now subst.
Qed.

Lemma Forall_by_forallb {A} (f : A -> bool) (P : A -> Prop) (l : list A) :
  (forall x, f x = true -> P x) -> forallb f l = true -> Forall P l.
Proof.
  intros Hf H. apply Forall_forall. intros x Hx. apply Hf.
  rewrite forallb_forall in H. apply H. now apply list_elem_of_In.
Qed.

Lemma tables_values_unified :
  Forall (fun kv => In (snd kv) unifiedStatuses) StripeStatusMapping /\
  Forall (fun kv => In (snd kv) unifiedStatuses) VippsStatusMapping /\
  Forall (fun kv => In (snd kv) unifiedStatuses) ZettleStatusMapping.
Proof.
  repeat split;
    apply (Forall_by_forallb (fun kv => existsb (String.eqb (snd kv)) unifiedStatuses));
    try (intros kv; apply In_by_eqb); reflexivity.
Qed.

Lemma tableLookup_unified (table : GoMap.t) (raw : string) :
  Forall (fun kv => In (snd kv) unifiedStatuses) table ->
  In (default TRANSACTION_STATUS_UNKNOWN (tableLookup table raw)) unifiedStatuses.
Proof.
  intros Htable. unfold tableLookup, GoMap.rangeFind.
  destruct (List.find _ table) as [kv|] eqn:E; simpl.
  - apply find_some in E as [Hin _]. rewrite Forall_forall in Htable.
    apply Htable. now apply list_elem_of_In.
  - apply (In_by_eqb _ unifiedStatuses). reflexivity.
Qed.

Lemma keywordScan_unified (lowered : string) :
  In (default TRANSACTION_STATUS_UNKNOWN (keywordScan lowered)) unifiedStatuses.
Proof.
  unfold keywordScan.
  destruct (List.find _ keywordCategories) as [cat|] eqn:E; simpl;
    [|apply (In_by_eqb _ unifiedStatuses); reflexivity].
  apply find_some in E as [Hin _].
  unfold keywordCategories in Hin. simpl in Hin.
  repeat (destruct Hin as [<- | Hin]; [apply (In_by_eqb _ unifiedStatuses); reflexivity|]). destruct Hin.
Qed.

Lemma normalized_in_unified (raw source : string) :
  In (NormalizeTransactionStatus raw source) unifiedStatuses.
Proof.
  unfold NormalizeTransactionStatus.
  destruct (String.eqb (ToLower source) PAYMENT_SOURCE_STRIPE).
  { rewrite normalizeStripeStatus_lookup. apply tableLookup_unified, tables_values_unified. }
  destruct (String.eqb (ToLower source) PAYMENT_SOURCE_VIPPS).
  { rewrite normalizeVippsStatus_lookup. apply tableLookup_unified, tables_values_unified. }
  destruct (String.eqb (ToLower source) PAYMENT_SOURCE_ZETTLE).
  { rewrite normalizeZettleStatus_lookup. apply tableLookup_unified, tables_values_unified. }
  rewrite inferStatusFromCommonNames_scan. apply keywordScan_unified.
Qed.

(** X1. Whatever the provider status and the source are, the normalized
    status is one of the eight unified statuses, and [IsFinalStatus] holds
    of it exactly when it is none of pending, processing and unknown. *)
Theorem normalized_status_closed (raw source : string) :
  let status := NormalizeTransactionStatus raw source in
  In status unifiedStatuses /\
  IsFinalStatus status
  = negb (String.eqb status TRANSACTION_STATUS_PENDING ||
          String.eqb status TRANSACTION_STATUS_PROCESSING ||
          String.eqb status TRANSACTION_STATUS_UNKNOWN).
Proof.
  intros status. pose proof (normalized_in_unified raw source) as Hin.
  fold status in Hin. clearbody status. split; [exact Hin|].
  unfold unifiedStatuses in Hin. simpl in Hin.
  repeat (destruct Hin as [<- | Hin]; [reflexivity|]). destruct Hin.
Qed.

(** X2. Normalization looks at the provider status only up to the case
    of its letters and the white space around it, and at the source only
    up to the case of its letters. *)
Theorem normalize_ignores_case_and_padding (raw raw' source source' : string) :
  EqualFold (TrimSpace raw) (TrimSpace raw') = true ->
  EqualFold source source' = true ->
  NormalizeTransactionStatus raw source = NormalizeTransactionStatus raw' source'.
Proof.
  unfold EqualFold. intros Hraw Hsource.
  apply String.eqb_eq in Hraw, Hsource.
  unfold NormalizeTransactionStatus. rewrite Hsource.
  assert (Hup : ToUpper (TrimSpace raw) = ToUpper (TrimSpace raw')).
  { rewrite <- (ToUpper_ToLower (TrimSpace raw)), Hraw. apply ToUpper_ToLower. }
  now rewrite Hup.
Qed.

(** X2 at a padded, mixed-case status and an upper-case source. *)
Lemma normalize_ignores_case_and_padding_witness :
  EqualFold (TrimSpace Samples.paddedStatus) (TrimSpace "CAPTURE") = true /\
  EqualFold Samples.shoutedSource "vipps" = true /\
  NormalizeTransactionStatus Samples.paddedStatus Samples.shoutedSource
  = NormalizeTransactionStatus "CAPTURE" "vipps".
Proof.
  split; [reflexivity|]. split; [reflexivity|].
  apply (normalize_ignores_case_and_padding Samples.paddedStatus "CAPTURE"
           Samples.shoutedSource "vipps"); reflexivity.
Defined.

(** X3. [GetStatusDescription] gives the fall-back text "Unknown payment
    status" exactly for the strings that are not one of the eight unified
    statuses; so every normalized status has a description of its own. *)
Theorem status_description_total :
  (forall status : string,
      In status unifiedStatuses <-> GetStatusDescription status <> "Unknown payment status") /\
  (forall raw source : string,
      GetStatusDescription (NormalizeTransactionStatus raw source)
      <> "Unknown payment status").
Proof.
  assert (H : forall status : string,
             In status unifiedStatuses <->
             GetStatusDescription status <> "Unknown payment status").
  { intros status. split.
    - intros Hin. unfold unifiedStatuses in Hin. simpl in Hin.
      repeat (destruct Hin as [<- | Hin]; [vm_compute; discriminate|]). destruct Hin.
    - intros Hne. unfold GetStatusDescription, GoMap.index in Hne.
      destruct (List.find _ descriptions) as [kv|] eqn:E; [|now contradiction Hne].
      apply find_some in E as [Hin Hkey]. apply String.eqb_eq in Hkey. subst status.
      unfold descriptions in Hin. simpl in Hin.
      repeat (destruct Hin as [<- | Hin]; [apply (In_by_eqb _ unifiedStatuses); reflexivity|]). destruct Hin. }
  split; [exact H|]. intros raw source. apply H, normalized_in_unified.
Qed.

End StatusExtra.

(* ===================================================================== *)
(** * More properties of [prices] *)
(* ===================================================================== *)

Module FloatExtra.

Lemma SFeqb_leb x y : SFeqb x y = SFleb x y && SFleb y x.
Proof.
  unfold SFeqb, SFleb, SFcompare.
  destruct x as [sx|sx| |sx mx ex], y as [sy|sy| |sy my ey];
    try destruct sx; try destruct sy; simpl; try reflexivity;
    rewrite (Z.compare_antisym ex ey);
    destruct (Z.compare_spec ex ey); subst; simpl; try reflexivity;
    change (Pos.compare_cont Eq mx my) with (Pos.compare mx my);
    change (Pos.compare_cont Eq my mx) with (Pos.compare my mx);
    rewrite (Pos.compare_antisym mx my);
    destruct (Pos.compare mx my); reflexivity.
Qed.

(** [x == y] on [float64] is [x <= y && y <= x], NaN included. *)
Lemma eqb_leb (x y : float) : PrimFloat.eqb x y = PrimFloat.leb x y && PrimFloat.leb y x.
Proof. rewrite FloatAxioms.eqb_spec, !FloatAxioms.leb_spec. apply SFeqb_leb. Qed.

End FloatExtra.

Module PricesExtra.
Import Strings StringsFacts TrimFacts prices.

Lemma len_cons_nonzero {A} (x : A) (l : list A) : (len (x :: l) =? 0) = false.
Proof. unfold len. apply Z.eqb_neq. simpl length. lia. Qed.

(** [GetProductsByPrice] by the entries that have the price. *)
Lemma GetProductsByPrice_cases (ps : PriceService) (price : float) :
  GetProductsByPrice ps price
  = match exactMatches ps price with
    | [] => inr (Errorf "no products found with price %.2f" [ArgFloat price])
    | matching => inl matching
    end.
Proof.
  unfold GetProductsByPrice. fold (exactMatches ps price).
  destruct (exactMatches ps price); [reflexivity|]. now rewrite len_cons_nonzero.
Qed.

(** The four strategies of [FindBestProductMatch], by the entries that
    have the exact price. *)
Lemma FindBestProductMatch_cases (ps : PriceService) (amount : float)
    (description : string) :
  FindBestProductMatch ps amount description
  = match exactMatches ps amount with
    | [p] => Some p
    | l =>
        match (if negb (String.eqb description "")
               then firstFuzzy description (prices ps) else None) with
        | Some p => Some p
        | None =>
            match l with
            | p0 :: _ :: _ =>
                if negb (String.eqb description "")
                then match firstFuzzy description l with
                     | Some p => Some p
                     | None => Some p0
                     end
                else strategy4 ps amount description
            | _ => strategy4 ps amount description
            end
        end
    end.
Proof.
  unfold FindBestProductMatch. rewrite GetProductsByPrice_cases.
  now destruct (exactMatches ps amount) as [|p0 [|p1 rest]].
Qed.

Lemma exactMatches_in (ps : PriceService) (amount : float) (q : Price) :
  In q (exactMatches ps amount) -> In q (prices ps).
Proof. unfold exactMatches. intros Hq. now apply filter_In in Hq. Qed.

(** X4. A range query whose two bounds are the same price never fails
    and returns exactly the entries with that price, in list order: the
    entries [GetProductsByPrice] returns, or the empty list where
    [GetProductsByPrice] gives an error. *)
Theorem range_of_one_price (ps : PriceService) (price : float) :
  GetProductsByPriceRange ps price price = inl (exactMatches ps price) /\
  GetProductsByPrice ps price
  = match exactMatches ps price with
    | [] => inr (Errorf "no products found with price %.2f" [ArgFloat price])
    | matching => inl matching
    end.
Proof.
  split.
  - unfold GetProductsByPriceRange, exactMatches.
    rewrite FloatFacts.ltb_irrefl. f_equal.
    apply filter_ext. intros p. rewrite FloatExtra.eqb_leb. apply andb_comm.
  - apply GetProductsByPrice_cases.
Qed.

(** A range query returns entries of the list. *)
Lemma range_in_prices (ps : PriceService) (lo hi : float) (l : list Price) (p : Price) :
  GetProductsByPriceRange ps lo hi = inl l -> In p l -> In p (prices ps).
Proof.
  unfold GetProductsByPriceRange. destruct (PrimFloat.ltb hi lo); [discriminate|].
  intros [= <-] Hin. now apply filter_In in Hin.
Qed.

Lemma firstFuzzy_in (description : string) (l : list Price) (p : Price) :
  firstFuzzy description l = Some p -> In p l.
Proof. unfold firstFuzzy. intros H. now apply find_some in H. Qed.

Lemma closestLoop_in (amount : float) (l : list Price) (bound : float) (p : Price) :
  closestLoop amount l None bound = Some p -> In p l.
Proof.
  intros H.
  destruct (PricesFacts.closestLoop_result amount l None bound)
    as [[Hr _] | (i & q & Hr & _ & Hi & _)]; rewrite Hr in H; [discriminate|].
  injection H as <-. apply list_elem_of_In. eapply list_elem_of_lookup_2; eauto.
Qed.

Lemma strategy4_in (ps : PriceService) (amount : float) (description : string) (p : Price) :
  strategy4 ps amount description = Some p -> In p (prices ps).
Proof.
  unfold strategy4.
  destruct (GetProductsByPriceRange ps _ _) as [[|q l]|e] eqn:E; try discriminate.
  intros H.
  assert (Hl : In p (q :: l)).
  { destruct (negb (String.eqb description "")).
    - destruct (firstFuzzy description (q :: l)) as [p'|] eqn:F.
      + injection H as <-. now apply firstFuzzy_in in F.
      + now apply closestLoop_in in H.
    - now apply closestLoop_in in H. }
  eapply range_in_prices; eauto.
Qed.

(** X5. [FindBestProductMatch] never invents a product: whatever the
    amount and the description are, a match it returns is an entry of the
    price list.  On an empty price list it returns no match. *)
Theorem match_is_an_entry (ps : PriceService) (amount : float) (description : string) :
  match FindBestProductMatch ps amount description with
  | Some p => In p (prices ps)
  | None => True
  end /\
  FindBestProductMatch (mkPriceService []) amount description = None.
Proof.
  assert (H : forall ps0 p, FindBestProductMatch ps0 amount description = Some p ->
                            In p (prices ps0)).
  { clear ps. intros ps p. rewrite FindBestProductMatch_cases.
    pose proof (exactMatches_in ps amount) as Hex.
    destruct (exactMatches ps amount) as [|p0 [|p1 rest]] eqn:E; cbv beta iota zeta.
    - destruct (negb (String.eqb description "")).
      + destruct (firstFuzzy description (prices ps)) as [p'|] eqn:F.
        * intros [= <-]. now apply firstFuzzy_in in F.
        * apply strategy4_in.
      + apply strategy4_in.
    - intros [= <-]. apply Hex. now left.
    - destruct (negb (String.eqb description "")).
      + destruct (firstFuzzy description (prices ps)) as [p'|] eqn:F.
        * intros [= <-]. now apply firstFuzzy_in in F.
        * destruct (firstFuzzy description (p0 :: p1 :: rest)) as [p'|] eqn:F'.
          -- intros [= <-]. apply Hex. now apply firstFuzzy_in in F'.
          -- intros [= <-]. apply Hex. now left.
      + apply strategy4_in. }
  split.
  - destruct (FindBestProductMatch ps amount description) as [p|] eqn:E; [|exact I].
    now apply H.
  - destruct (FindBestProductMatch (mkPriceService []) amount description) as [p|] eqn:E;
      [|reflexivity].
    apply H in E. destruct E.
Qed.

(** X6. Unless exactly one entry has the price of the amount, a
    description that fuzzy-matches some product decides the match: the
    first entry of the list whose name fuzzy-matches is returned, whatever
    its price is. *)
Theorem description_decides (ps : PriceService) (amount : float) (description : string)
    (p : Price) :
  length (exactMatches ps amount) <> 1%nat ->
  description <> "" ->
  firstFuzzy description (prices ps) = Some p ->
  FindBestProductMatch ps amount description = Some p.
Proof.
  intros Hlen Hne Hfuzzy. rewrite FindBestProductMatch_cases.
  apply String.eqb_neq in Hne. rewrite Hne, Hfuzzy.
  destruct (exactMatches ps amount) as [|p0 [|p1 rest]]; try reflexivity.
  now contradiction Hlen.
Qed.

(** X6 at the price list of the tests: 999 is no price of the list, and
    "shower" names the entry priced 15. *)
Lemma description_decides_witness :
  length (exactMatches Samples.testPrices 999) <> 1%nat /\
  firstFuzzy "shower" (prices Samples.testPrices) = Some (mkPrice "Shower" 15 "NOK") /\
  FindBestProductMatch Samples.testPrices 999 "shower" = Some (mkPrice "Shower" 15 "NOK").
Proof.
  split; [vm_compute; discriminate|]. split; [vm_compute; reflexivity|].
  apply (description_decides Samples.testPrices 999 "shower");
    [vm_compute; discriminate | discriminate | vm_compute; reflexivity].
Defined.

Lemma firstFuzzy_none_sub (description : string) (l l' : list Price) :
  firstFuzzy description l = None ->
  (forall p, In p l' -> In p l) ->
  firstFuzzy description l' = None.
Proof.
  unfold firstFuzzy. intros Hnone Hsub.
  destruct (List.find _ l') as [p|] eqn:E; [|reflexivity].
  apply find_some in E as [Hin Hf].
  pose proof (find_none _ _ Hnone p (Hsub p Hin)) as Hn. simpl in Hn.
  rewrite Hf in Hn. discriminate.
Qed.

(** X7. When several entries have the price of the amount and a
    description is given, the tolerance strategy is never reached: the
    match is the first entry of the whole list whose name fuzzy-matches
    the description, and, when no name does, the first of the entries
    with that price. *)
Theorem ambiguous_price_with_description (ps : PriceService) (amount : float)
    (description : string) :
  (1 < length (exactMatches ps amount))%nat ->
  description <> "" ->
  FindBestProductMatch ps amount description
  = match firstFuzzy description (prices ps) with
    | Some p => Some p
    | None => head (exactMatches ps amount)
    end.
Proof.
  intros Hlen Hne. rewrite FindBestProductMatch_cases.
  apply String.eqb_neq in Hne. rewrite Hne.
  pose proof (exactMatches_in ps amount) as Hex.
  destruct (exactMatches ps amount) as [|p0 [|p1 rest]]; simpl in Hlen; try lia.
  cbv beta iota zeta. cbn [head].
  destruct (firstFuzzy description (prices ps)) as [p|] eqn:F; [reflexivity|].
  now rewrite (firstFuzzy_none_sub description (prices ps) (p0 :: p1 :: rest) F Hex).
Qed.

(** X7 at a list with two cabins priced 500: a description that names
    neither gives the first of the two. *)
Lemma ambiguous_price_with_description_witness :
  (1 < length (exactMatches Samples.twinPrices 500))%nat /\
  FindBestProductMatch Samples.twinPrices 500 "weekend"
    = Some (mkPrice "Cabin small" 500 "NOK") /\
  FindBestProductMatch Samples.twinPrices 500 "large"
    = Some (mkPrice "Cabin large" 500 "NOK").
Proof.
  assert (Hlen : (1 < length (exactMatches Samples.twinPrices 500))%nat)
    by (vm_compute; lia).
  split; [exact Hlen|]. split.
  - rewrite (ambiguous_price_with_description Samples.twinPrices 500 "weekend" Hlen)
      by discriminate.
    vm_compute. reflexivity.
  - rewrite (ambiguous_price_with_description Samples.twinPrices 500 "large" Hlen)
      by discriminate.
    vm_compute. reflexivity.
Defined.

End PricesExtra.

Module FuzzyExtra.
Import Strings StringsFacts TrimFacts prices.

(** [fuzzyMatch] looks at its arguments only after trimming and
    lower-casing them. *)
Lemma fuzzyMatch_folded (d d' p p' : string) :
  ToLower (TrimSpace d) = ToLower (TrimSpace d') ->
  ToLower (TrimSpace p) = ToLower (TrimSpace p') ->
  fuzzyMatch d p = fuzzyMatch d' p'.
Proof. intros Hd Hp. unfold fuzzyMatch. now rewrite Hd, Hp. Qed.

Lemma firstFuzzy_folded (d d' : string) (l : list Price) :
  ToLower (TrimSpace d) = ToLower (TrimSpace d') ->
  firstFuzzy d l = firstFuzzy d' l.
Proof.
  intros Hd. unfold firstFuzzy. induction l as [|p l IH]; [reflexivity|]. simpl.
  now rewrite (fuzzyMatch_folded d d' (Product p) (Product p) Hd eq_refl), IH.
Qed.

Lemma eqb_empty_ToUpper (s : string) : String.eqb (ToUpper s) "" = String.eqb s "".
Proof. now destruct s. Qed.

Lemma eqb_empty_ToLower (s : string) : String.eqb (ToLower s) "" = String.eqb s "".
Proof. now destruct s. Qed.

(** The match depends on the description by its emptiness and its folded
    form only. *)
Lemma FindBestProductMatch_folded (ps : PriceService) (amount : float) (d d' : string) :
  String.eqb d "" = String.eqb d' "" ->
  ToLower (TrimSpace d) = ToLower (TrimSpace d') ->
  FindBestProductMatch ps amount d = FindBestProductMatch ps amount d'.
Proof.
  intros He Hd. rewrite !PricesExtra.FindBestProductMatch_cases. unfold strategy4.
  rewrite He, (firstFuzzy_folded d d' (prices ps) Hd).
  destruct (exactMatches ps amount) as [|p0 [|p1 rest]]; cbv beta iota zeta;
    try reflexivity.
  - destruct (GetProductsByPriceRange ps _ _) as [[|q l]|e]; try reflexivity.
    now rewrite (firstFuzzy_folded d d' (q :: l) Hd).
  - rewrite (firstFuzzy_folded d d' (p0 :: p1 :: rest) Hd).
    destruct (GetProductsByPriceRange ps _ _) as [[|q l]|e]; try reflexivity.
    now rewrite (firstFuzzy_folded d d' (q :: l) Hd).
Qed.

(** X8. A description and a product name that are equal up to the case
    of letters and surrounding whitespace fuzzy-match, unless they are
    blank: a blank name does not even match itself. *)
Theorem fuzzyMatch_same_name (description productName : string) :
  ToLower (TrimSpace description) = ToLower (TrimSpace productName) ->
  fuzzyMatch description productName = negb (String.eqb (TrimSpace description) "").
Proof.
  intros H. unfold fuzzyMatch. rewrite <- H, eqb_empty_ToLower, orb_diag.
  destruct (String.eqb (TrimSpace description) ""); [reflexivity|].
  now rewrite String.eqb_refl.
Qed.

(** X8 at a name of the price list, shouted and padded. *)
Lemma fuzzyMatch_same_name_witness :
  ToLower (TrimSpace "  BED LINEN ") = ToLower (TrimSpace "Bed linen") /\
  fuzzyMatch "  BED LINEN " "Bed linen" = true.
Proof.
  split; [reflexivity|].
  apply (fuzzyMatch_same_name "  BED LINEN " "Bed linen"). reflexivity.
Defined.

(** X9. Neither the case of letters nor surrounding whitespace matters
    to [fuzzyMatch], in the description and in the product name; and the
    case of the letters of the description does not matter to
    [FindBestProductMatch]. *)
Theorem matching_ignores_case (ps : PriceService) (amount : float)
    (description productName : string) :
  fuzzyMatch (ToUpper description) productName = fuzzyMatch description productName /\
  fuzzyMatch description (ToUpper productName) = fuzzyMatch description productName /\
  fuzzyMatch (TrimSpace description) productName = fuzzyMatch description productName /\
  fuzzyMatch description (TrimSpace productName) = fuzzyMatch description productName /\
  FindBestProductMatch ps amount (ToUpper description)
    = FindBestProductMatch ps amount description /\
  FindBestProductMatch ps amount (ToLower description)
    = FindBestProductMatch ps amount description.
Proof.
  repeat split.
  - apply fuzzyMatch_folded; [apply folded_ToUpper | reflexivity].
  - apply fuzzyMatch_folded; [reflexivity | apply folded_ToUpper].
  - apply fuzzyMatch_folded; [apply folded_TrimSpace | reflexivity].
  - apply fuzzyMatch_folded; [reflexivity | apply folded_TrimSpace].
  - apply FindBestProductMatch_folded; [apply eqb_empty_ToUpper | apply folded_ToUpper].
  - apply FindBestProductMatch_folded; [apply eqb_empty_ToLower | apply folded_ToLower].
Qed.

End FuzzyExtra.

Module LoadExtra.
Import Strings StringsFacts TrimFacts prices.

Section Loading.
Variable os_Open : string -> string + error.
Variable csv_ReadAll : string -> list (list string) + error.
Variable strconv_ParseFloat : string -> float + error.

Lemma rowPrice_some (row : list string) (p : Price) :
  rowPrice strconv_ParseFloat row = Some p ->
  exists c0 c1 c2 price,
    row = [c0; c1; c2] /\ strconv_ParseFloat c1 = inl price /\
    p = mkPrice (TrimSpace c0) price (TrimSpace c2).
Proof.
  destruct row as [|c0 [|c1 [|c2 [|c3 r]]]]; simpl; try discriminate.
  destruct (strconv_ParseFloat c1) as [price|e] eqn:E; [|discriminate].
  intros [= <-]. now exists c0, c1, c2, price.
Qed.

(** The loop over well-formed rows appends their prices, in order. *)
Lemma loadRecords_rows (rows : list (list string)) (ps : list Price) :
  Forall2 (fun row p => rowPrice strconv_ParseFloat row = Some p) rows ps ->
  forall i acc, loadRecords strconv_ParseFloat i rows acc = (acc ++ ps, None).
Proof.
  induction 1 as [|row p rows ps Hrow Hrows IH]; intros i acc; simpl.
  - now rewrite app_nil_r.
  - destruct (rowPrice_some row p Hrow) as (c0 & c1 & c2 & price & -> & Hp & ->).
    rewrite Hp, IH, <- app_assoc. reflexivity.
Qed.

Lemma loadRecords_bad (good : list (list string)) (ps : list Price)
    (bad : list string) (rest : list (list string)) :
  Forall2 (fun row p => rowPrice strconv_ParseFloat row = Some p) good ps ->
  rowPrice strconv_ParseFloat bad = None ->
  forall i acc, exists e,
    loadRecords strconv_ParseFloat i (good ++ bad :: rest) acc = (acc ++ ps, Some e) /\
    rowErrorAt strconv_ParseFloat (i + len good + 2) bad e.
Proof.
  intros Hgood Hbad.
  induction Hgood as [|row p good ps Hrow Hrows IH]; intros i acc.
  - rewrite app_nil_r. simpl app. unfold len. simpl length.
    replace (i + Z.of_nat 0 + 2) with (i + 2) by lia.
    destruct bad as [|c0 [|c1 [|c2 [|c3 r]]]]; simpl in *;
      try (eexists; split; [reflexivity|]; left; split; [discriminate|reflexivity]).
    destruct (strconv_ParseFloat c1) as [price|err] eqn:E; [discriminate|].
    eexists; split; [reflexivity|]. right. now exists c0, c1, c2, err.
  - destruct (rowPrice_some row p Hrow) as (c0 & c1 & c2 & price & -> & Hp & ->).
    destruct (IH (i + 1) (acc ++ [mkPrice (TrimSpace c0) price (TrimSpace c2)]))
      as (e & He & Herr).
    exists e. split.
    + simpl. rewrite Hp. simpl in He. rewrite He, <- app_assoc. reflexivity.
    + unfold len in *. simpl length.
      replace (i + Z.of_nat (S (length good)) + 2)
        with (i + 1 + Z.of_nat (length good) + 2) by lia.
      exact Herr.
Qed.

(** X10. A file that opens and reads as a header row followed by at
    least one data row, each data row of three columns with a price that
    parses, loads into one entry per data row, in the order of the file,
    with the product name and the currency trimmed; the header row is not
    looked at. *)
Theorem load_well_formed_file (path file : string) (header : list string)
    (rows : list (list string)) (ps : list Price) :
  os_Open path = inl file ->
  csv_ReadAll file = inl (header :: rows) ->
  rows <> [] ->
  Forall2 (fun row p => rowPrice strconv_ParseFloat row = Some p) rows ps ->
  NewPriceService os_Open csv_ReadAll strconv_ParseFloat path = inl (mkPriceService ps) /\
  len (GetAllPrices (mkPriceService ps)) = len rows.
Proof.
  intros Hopen Hread Hne Hrows. split.
  - unfold NewPriceService, loadPricesFromCSV. rewrite Hopen, Hread.
    replace (len (header :: rows) <? 2) with false.
    + simpl tail. simpl prices. now rewrite (loadRecords_rows rows ps Hrows 0 []).
    + symmetry. apply Z.ltb_ge. unfold len. destruct rows; [contradiction|]. simpl length. lia.
  - unfold GetAllPrices, len. simpl. now rewrite (Forall2_length _ _ _ Hrows).
Qed.

(** X11. The first data row that is not well formed stops the load:
    [NewPriceService] fails with the error of that row, which names the
    line of the row in the file (the header is line 1) and is a
    column-count error or the error of the number parser; the rows after
    it are not looked at.  [loadPricesFromCSV] has by then appended the
    rows before it to the service. *)
Theorem load_stops_at_first_bad_row (path file : string) (header : list string)
    (good : list (list string)) (bad : list string) (rest : list (list string))
    (ps : list Price) :
  os_Open path = inl file ->
  csv_ReadAll file = inl (header :: good ++ bad :: rest) ->
  Forall2 (fun row p => rowPrice strconv_ParseFloat row = Some p) good ps ->
  rowPrice strconv_ParseFloat bad = None ->
  exists e,
    rowErrorAt strconv_ParseFloat (len good + 2) bad e /\
    loadPricesFromCSV os_Open csv_ReadAll strconv_ParseFloat (mkPriceService []) path
      = (mkPriceService ps, Some e) /\
    NewPriceService os_Open csv_ReadAll strconv_ParseFloat path
      = inr (Errorf "failed to load prices from CSV: %w" [ArgError e]).
Proof.
  intros Hopen Hread Hgood Hbad.
  destruct (loadRecords_bad good ps bad rest Hgood Hbad 0 []) as (e & He & Herr).
  exists e.
  assert (Hload : loadPricesFromCSV os_Open csv_ReadAll strconv_ParseFloat
                    (mkPriceService []) path = (mkPriceService ps, Some e)).
  { unfold loadPricesFromCSV. rewrite Hopen, Hread.
    replace (len (header :: good ++ bad :: rest) <? 2) with false.
    - simpl tail. simpl prices. now rewrite He.
    - symmetry. apply Z.ltb_ge. unfold len. simpl length. rewrite length_app. simpl. lia. }
  split; [exact Herr|]. split; [exact Hload|].
  unfold NewPriceService. now rewrite Hload.
Qed.

(** Every product name that the loop appends is trimmed. *)
Lemma loadRecords_trimmed (rows : list (list string)) :
  forall i acc,
    Forall (fun p => TrimSpace (Product p) = Product p) acc ->
    Forall (fun p => TrimSpace (Product p) = Product p)
           (fst (loadRecords strconv_ParseFloat i rows acc)).
Proof.
  induction rows as [|row rows IH]; intros i acc Hacc; simpl; [exact Hacc|].
  destruct row as [|c0 [|c1 [|c2 [|c3 r]]]]; simpl; try exact Hacc.
  destruct (strconv_ParseFloat c1) as [price|err]; [|exact Hacc].
  apply IH. apply Forall_app. split; [exact Hacc|].
  constructor; [|constructor]. simpl. apply TrimSpace_idem.
Qed.

Lemma loaded_trimmed (path : string) (svc : PriceService) :
  NewPriceService os_Open csv_ReadAll strconv_ParseFloat path = inl svc ->
  Forall (fun p => TrimSpace (Product p) = Product p) (prices svc).
Proof.
  unfold NewPriceService, loadPricesFromCSV.
  destruct (os_Open path) as [file|e]; [|discriminate].
  destruct (csv_ReadAll file) as [records|e]; [|discriminate].
  destruct (len records <? 2); [discriminate|].
  pose proof (loadRecords_trimmed (tail records) 0 (prices (mkPriceService []))
                (List.Forall_nil _)) as H.
  destruct (loadRecords strconv_ParseFloat 0 (tail records) (prices (mkPriceService [])))
    as [ps' [e|]]; [discriminate|].
  intros [= <-]. exact H.
Qed.

Lemma find_pointwise {A} (f g : A -> bool) (l : list A) :
  (forall x, f x = g x) -> List.find f l = List.find g l.
Proof. intros E. induction l as [|x l IH]; simpl; [reflexivity | now rewrite E, IH]. Qed.

(** X12. Every product of a loaded price list is found by its name,
    whatever the case of the letters of the name asked for and the
    whitespace around it are: the look-up returns an entry of the list of
    that name up to case, the first one.  The names of a loaded list are
    trimmed, which is what the look-up by the entry's own name needs. *)
Theorem loaded_product_is_found (path : string) (svc : PriceService)
    (p : Price) (name : string) :
  NewPriceService os_Open csv_ReadAll strconv_ParseFloat path = inl svc ->
  In p (prices svc) ->
  ToLower (TrimSpace name) = ToLower (TrimSpace (Product p)) ->
  exists q,
    GetPriceByProduct svc name = inl q /\
    List.find (fun e => EqualFold (Product e) (Product p)) (prices svc) = Some q /\
    In q (prices svc) /\
    EqualFold (Product q) (Product p) = true.
Proof.
  intros Hnew Hin Hname.
  pose proof (loaded_trimmed path svc Hnew) as Htrim.
  rewrite List.Forall_forall in Htrim. rewrite (Htrim p Hin) in Hname.
  unfold GetPriceByProduct.
  rewrite (find_pointwise (fun e => EqualFold (Product e) (TrimSpace name))
                    (fun e => EqualFold (Product e) (Product p)) (prices svc)).
  2:{ intros e. unfold EqualFold. now rewrite Hname. }
  destruct (List.find _ (prices svc)) as [q|] eqn:E.
  - exists q. apply find_some in E as [Hq Heq]. auto.
  - pose proof (find_none _ _ E p Hin) as Hp. simpl in Hp.
    rewrite EqualFold_refl in Hp. discriminate.
Qed.

End Loading.

(** X10 at the price file of the tests. *)
Lemma load_well_formed_file_witness :
  Samples.open_named "prices.csv" = inl "prices.csv" /\
  Samples.read_test "prices.csv" = inl Samples.testRecords /\
  NewPriceService Samples.open_named Samples.read_test Samples.parse_test "prices.csv"
    = inl (mkPriceService Samples.testPriceList).
Proof.
  split; [reflexivity|]. split; [reflexivity|].
  apply (load_well_formed_file Samples.open_named Samples.read_test Samples.parse_test
           "prices.csv" "prices.csv" ["Product"; "Price"; "Currency"]
           (tail Samples.testRecords) Samples.testPriceList);
    [reflexivity | reflexivity | discriminate |].
  repeat constructor.
Defined.

(** X11 at that file with a word for the price of its second data row,
    which is line 3. *)
Lemma load_stops_at_first_bad_row_witness :
  rowPrice Samples.parse_test ["Bed linen"; "free"; "NOK"] = None /\
  exists e,
    rowErrorAt Samples.parse_test 3 ["Bed linen"; "free"; "NOK"] e /\
    NewPriceService Samples.open_named Samples.read_test Samples.parse_test "broken.csv"
      = inr (Errorf "failed to load prices from CSV: %w" [ArgError e]).
Proof.
  split; [reflexivity|].
  destruct (load_stops_at_first_bad_row Samples.open_named Samples.read_test
              Samples.parse_test "broken.csv" "broken.csv" ["Product"; "Price"; "Currency"]
              [["Cabin"; "650"; "NOK"]] ["Bed linen"; "free"; "NOK"]
              [["Caravan/motorhome/tent 1-2 pers"; "390"; "NOK"]]
              [mkPrice "Cabin" 650 "NOK"] eq_refl eq_refl)
    as (e & Herr & _ & Hnew); [repeat constructor | reflexivity |].
  exists e. split; [exact Herr | exact Hnew].
Defined.

(** X12 at the price file of the tests: the entry loaded from the padded
    row is found by its name in capitals. *)
Lemma loaded_product_is_found_witness :
  NewPriceService Samples.open_named Samples.read_test Samples.parse_test "prices.csv"
    = inl (mkPriceService Samples.testPriceList) /\
  exists q,
    GetPriceByProduct (mkPriceService Samples.testPriceList) " BED LINEN" = inl q /\
    EqualFold (Product q) "Bed linen" = true.
Proof.
  split; [reflexivity|].
  destruct (loaded_product_is_found Samples.open_named Samples.read_test Samples.parse_test
              "prices.csv" (mkPriceService Samples.testPriceList)
              (mkPrice "Bed linen" 75 "NOK") " BED LINEN" eq_refl)
    as (q & Hq & _ & _ & Heq); [simpl; tauto | reflexivity |].
  exists q. split; [exact Hq | exact Heq].
Defined.

End LoadExtra.

(* ===================================================================== *)
(** * More properties of the cache *)
(* ===================================================================== *)

Module CacheExtra.
Import Strings entities.

Lemma priceKey_inj (a b : string) : cache.priceKey a = cache.priceKey b -> a = b.
Proof. unfold cache.priceKey. intros H. now apply (inj (String.app "price:")) in H. Qed.

(** No price key is a transaction key. *)
Lemma keys_apart (a b : string) : cache.transactionKey a <> cache.priceKey b.
Proof. discriminate. Qed.

(** [Get] after [Set], for a clock that reads an instant after the epoch. *)
Lemma Get_Set (c : gocache.Cache) (now later : Z) (k k' : string) (x : gocache.Value) (d : Z) :
  0 <= now ->
  gocache.Get (gocache.Set_ c now k x d) later k'
  = if decide (k = k')
    then if gocache.goneAt now (gocache.timeToLive c d) later then None else Some x
    else gocache.Get c later k'.
Proof.
  intros Hnow. unfold gocache.Get, gocache.Set_, gocache.timeToLive, gocache.goneAt. simpl gocache.items.
  rewrite lookup_insert. destruct (decide (k = k')) as [->|Hne]; [|reflexivity].
  unfold gocache.Expired. simpl gocache.Expiration. simpl gocache.Object.
  destruct (0 <? (if d =? gocache.DefaultExpiration then gocache.defaultExpiration c else d))
    eqn:E; [|reflexivity].
  apply Z.ltb_lt in E.
  replace (0 <? now + _) with true by (symmetry; apply Z.ltb_lt; lia).
  reflexivity.
Qed.

Lemma Get_Delete (c : gocache.Cache) (now : Z) (k k' : string) :
  gocache.Get (gocache.Delete c k) now k'
  = if decide (k = k') then None else gocache.Get c now k'.
Proof.
  unfold gocache.Get, gocache.Delete. simpl gocache.items. rewrite lookup_delete.
  now destruct (decide (k = k')).
Qed.

(** Entries under a key that a selection ignores do not count. *)
Lemma flat_map_delete {B} (sel : string * gocache.Item -> list B) (k : string)
    (m : gmap string gocache.Item) :
  (forall x, sel (k, x) = []) ->
  Permutation (flat_map sel (map_to_list (delete k m))) (flat_map sel (map_to_list m)).
Proof.
  intros Hsel. destruct (m !! k) as [old|] eqn:E.
  - rewrite <- (Permutation_flat_map sel (map_to_list_delete m k old E)).
    simpl. now rewrite Hsel.
  - now rewrite delete_id.
Qed.

Lemma listed_after_Set {B} (sel : string * gocache.Item -> list B) (c : gocache.Cache)
    (now later : Z) (k : string) (x : gocache.Value) (d : Z) :
  (forall it, sel (k, it) = []) ->
  Permutation (flat_map sel (map_to_list (gocache.Items (gocache.Set_ c now k x d) later)))
              (flat_map sel (map_to_list (gocache.Items c later))).
Proof.
  intros Hsel. unfold gocache.Items, gocache.Set_. simpl gocache.items.
  rewrite <- (flat_map_delete sel k _ Hsel).
  rewrite <- (flat_map_delete sel k (filter _ (gocache.items c)) Hsel).
  now rewrite <- !map_filter_delete, delete_insert_eq.
Qed.

Lemma listed_after_Delete {B} (sel : string * gocache.Item -> list B) (c : gocache.Cache)
    (later : Z) (k : string) :
  (forall it, sel (k, it) = []) ->
  Permutation (flat_map sel (map_to_list (gocache.Items (gocache.Delete c k) later)))
              (flat_map sel (map_to_list (gocache.Items c later))).
Proof.
  intros Hsel. unfold gocache.Items, gocache.Delete. simpl gocache.items.
  rewrite map_filter_delete. now apply flat_map_delete.
Qed.

Lemma selectTransaction_priceKey (pattern key : string) (it : gocache.Item) :
  cache.selectTransaction pattern (cache.priceKey key, it) = [].
Proof. reflexivity. Qed.

Lemma selectPrice_transactionKey (key : string) (it : gocache.Item) :
  cache.selectPrice (cache.transactionKey key, it) = [].
Proof. reflexivity. Qed.

(** X13. A transaction set under a key is what a later look-up of the
    key returns until its time to live is over, and nothing afterwards;
    a negative time to live never ends, and the time to live 0 stands for
    the default of the cache.  The look-up of every other key is as
    before.  The clock reads an instant after the epoch. *)
Theorem transaction_set_then_get (c : cache.InMemoryCache) (now later : Z)
    (key : string) (t : Transaction) (d : Z) :
  0 <= now ->
  cache.GetTransaction (cache.SetTransaction c now key t d) later key
    = (if gocache.goneAt now (gocache.timeToLive c d) later then None else Some t) /\
  (forall key', key' <> key ->
     cache.GetTransaction (cache.SetTransaction c now key t d) later key'
     = cache.GetTransaction c later key').
Proof.
  intros Hnow. unfold cache.GetTransaction, cache.SetTransaction. split.
  - rewrite Get_Set by exact Hnow. rewrite decide_True by reflexivity.
    now destruct (gocache.goneAt _ _ _).
  - intros key' Hne. rewrite Get_Set by exact Hnow.
    rewrite decide_False; [reflexivity|].
    intros H. apply CacheFacts.transactionKey_inj in H. congruence.
Qed.

(** X13 for a transaction set for 24 hours and looked up 25 hours
    later. *)
Lemma transaction_set_then_get_witness :
  0 <= 1000 /\
  cache.GetTransaction
    (cache.SetTransaction (cache.NewInMemoryCache (24 * time.Hour) time.Hour)
                          1000 "tx_1" Samples.tx1 (24 * time.Hour))
    (1000 + 25 * time.Hour) "tx_1" = None.
Proof.
  split; [lia|].
  assert (H : 0 <= 1000) by lia.
  exact (proj1 (transaction_set_then_get
                  (cache.NewInMemoryCache (24 * time.Hour) time.Hour)
                  1000 (1000 + 25 * time.Hour) "tx_1" Samples.tx1 (24 * time.Hour) H)).
Defined.

(** X14. A price set under a key never expires: every later look-up of
    the key returns it, at any reading of the clock, and it is among the
    prices listed; the look-up of every other price key is as before. *)
Theorem price_never_expires (c : cache.InMemoryCache) (now later : Z)
    (key : string) (p : prices.Price) :
  cache.GetPrice (cache.SetPrice c now key p) later key = Some p /\
  In p (cache.GetPrices (cache.SetPrice c now key p) later) /\
  (forall key', key' <> key ->
     cache.GetPrice (cache.SetPrice c now key p) later key' = cache.GetPrice c later key').
Proof.
  unfold cache.GetPrice, cache.GetPrices, cache.SetPrice, gocache.Get, gocache.Items,
    gocache.Set_. simpl gocache.items.
  split; [|split].
  - now rewrite lookup_insert_eq.
  - apply in_flat_map. exists (cache.priceKey key, gocache.mkItem (gocache.ObjPrice p) 0).
    split; [|now left].
    apply list_elem_of_In, elem_of_map_to_list, map_lookup_filter_Some.
    split; [apply lookup_insert_eq | reflexivity].
  - intros key' Hne. rewrite lookup_insert_ne; [reflexivity|].
    intros H. apply priceKey_inj in H. congruence.
Qed.

(** X15. Transactions and prices do not meet in the cache: setting or
    deleting a price changes no look-up of a transaction and no list of
    transactions, and setting or deleting a transaction changes no
    look-up of a price and not the list of prices.  The lists are equal
    up to the order of the walk over the items, which Go does not fix. *)
Theorem transactions_and_prices_apart (c : cache.InMemoryCache) (now later : Z)
    (key k pattern : string) (p : prices.Price) (t : Transaction) (d : Z) :
  cache.GetTransaction (cache.SetPrice c now key p) later k = cache.GetTransaction c later k /\
  cache.GetTransaction (cache.DeletePrice c key) later k = cache.GetTransaction c later k /\
  Permutation (cache.GetTransactions (cache.SetPrice c now key p) later pattern)
              (cache.GetTransactions c later pattern) /\
  Permutation (cache.GetTransactions (cache.DeletePrice c key) later pattern)
              (cache.GetTransactions c later pattern) /\
  cache.GetPrice (cache.SetTransaction c now key t d) later k = cache.GetPrice c later k /\
  cache.GetPrice (cache.DeleteTransaction c key) later k = cache.GetPrice c later k /\
  Permutation (cache.GetPrices (cache.SetTransaction c now key t d) later)
              (cache.GetPrices c later) /\
  Permutation (cache.GetPrices (cache.DeleteTransaction c key) later)
              (cache.GetPrices c later).
Proof.
  assert (Hk : cache.priceKey key <> cache.transactionKey k) by discriminate.
  assert (Hk' : cache.transactionKey key <> cache.priceKey k) by discriminate.
  repeat split.
  - unfold cache.GetTransaction, cache.SetPrice, gocache.Get, gocache.Set_.
    simpl gocache.items. now rewrite lookup_insert_ne.
  - unfold cache.GetTransaction, cache.DeletePrice. rewrite Get_Delete.
    now rewrite decide_False.
  - apply listed_after_Set. intros it. apply selectTransaction_priceKey.
  - apply listed_after_Delete. intros it. apply selectTransaction_priceKey.
  - unfold cache.GetPrice, cache.SetTransaction, gocache.Get, gocache.Set_.
    simpl gocache.items. now rewrite lookup_insert_ne.
  - unfold cache.GetPrice, cache.DeleteTransaction. rewrite Get_Delete.
    now rewrite decide_False.
  - apply listed_after_Set. intros it. apply selectPrice_transactionKey.
  - apply listed_after_Delete. intros it. apply selectPrice_transactionKey.
Qed.

(** X16. A deleted transaction or price is not found under its key any
    more, while every other transaction is found as before; after [Clear]
    nothing is found and both lists are empty. *)
Theorem delete_and_clear (c : cache.InMemoryCache) (now : Z) (key k : string) :
  cache.GetTransaction (cache.DeleteTransaction c key) now key = None /\
  (forall key', key' <> key ->
     cache.GetTransaction (cache.DeleteTransaction c key) now key'
     = cache.GetTransaction c now key') /\
  cache.GetPrice (cache.DeletePrice c key) now key = None /\
  cache.GetTransaction (cache.Clear c) now k = None /\
  cache.GetPrice (cache.Clear c) now k = None /\
  (forall pattern, cache.GetTransactions (cache.Clear c) now pattern = []) /\
  cache.GetPrices (cache.Clear c) now = [].
Proof.
  split; [|split; [|split; [|split; [|split; [|split]]]]].
  - unfold cache.GetTransaction, cache.DeleteTransaction. rewrite Get_Delete.
    now rewrite decide_True.
  - intros key' Hne. unfold cache.GetTransaction, cache.DeleteTransaction.
    rewrite Get_Delete. rewrite decide_False; [reflexivity|].
    intros H. apply CacheFacts.transactionKey_inj in H. congruence.
  - unfold cache.GetPrice, cache.DeletePrice. rewrite Get_Delete. now rewrite decide_True.
  - unfold cache.GetTransaction, cache.Clear, gocache.Get, gocache.Flush.
    simpl gocache.items. now rewrite lookup_empty.
  - unfold cache.GetPrice, cache.Clear, gocache.Get, gocache.Flush.
    simpl gocache.items. now rewrite lookup_empty.
  - intros pattern. unfold cache.GetTransactions, cache.Clear, gocache.Items, gocache.Flush.
    simpl gocache.items. now rewrite map_filter_empty, map_to_list_empty.
  - unfold cache.GetPrices, cache.Clear, gocache.Items, gocache.Flush.
    simpl gocache.items. now rewrite map_filter_empty, map_to_list_empty.
Qed.

(** X17. Setting a transaction under a key that is in use replaces the
    entry: the cache is the one in which only the second transaction was
    ever set. *)
Theorem set_replaces (c : cache.InMemoryCache) (now1 now2 : Z) (key : string)
    (t1 t2 : Transaction) (d1 d2 : Z) :
  cache.SetTransaction (cache.SetTransaction c now1 key t1 d1) now2 key t2 d2
  = cache.SetTransaction c now2 key t2 d2.
Proof.
  unfold cache.SetTransaction, gocache.Set_. simpl. now rewrite insert_insert_eq.
Qed.

Lemma HasPrefix_app (s pre rest : string) :
  HasPrefix s pre = true -> HasPrefix (s +:+ rest) pre = true.
Proof.
  revert s. induction pre as [|a pre IH]; intros s; [reflexivity|].
  destruct s as [|b s]; simpl; [discriminate|].
  intros H. apply andb_true_iff in H as [-> H]. simpl. now apply IH.
Qed.

Lemma Contains_app (s sub rest : string) :
  Contains s sub = true -> Contains (s +:+ rest) sub = true.
Proof.
  induction s as [|b s IH].
  - simpl. rewrite orb_false_r. intros H. destruct sub; [|discriminate].
    now destruct rest.
  - intros H. simpl in H. apply orb_true_iff in H as [H|H].
    + change (Contains (String b (s +:+ rest)) sub = true).
      simpl. apply orb_true_iff. left.
      now apply (HasPrefix_app (String b s) sub rest).
    + change (Contains (String b (s +:+ rest)) sub = true).
      simpl. apply orb_true_iff. right. now apply IH.
Qed.

Lemma HasPrefix_split (s pre : string) :
  HasPrefix s pre = true -> exists rest, s = pre +:+ rest.
Proof.
  revert s. induction pre as [|a pre IH]; intros s H; [now exists s|].
  destruct s as [|b s]; simpl in H; [discriminate|].
  apply andb_true_iff in H as [Hab H]. apply Ascii.eqb_eq in Hab as ->.
  destruct (IH s H) as [rest ->]. now exists rest.
Qed.



(** X19. The pattern is looked for in the whole key, the prefix
    "transaction:" included: a pattern that occurs in the prefix filters
    nothing. *)
Theorem pattern_in_prefix (c : cache.InMemoryCache) (now : Z) (pattern : string) :
  Contains "transaction:" pattern = true ->
  cache.GetTransactions c now pattern = cache.GetTransactions c now "".
Proof.
  intros Hpat. unfold cache.GetTransactions.
  induction (map_to_list (gocache.Items c now)) as [|[key item] l IH]; [reflexivity|].
  cbn [flat_map]. rewrite IH. f_equal. unfold cache.selectTransaction.
  destruct (HasPrefix key "transaction:") eqn:E; [|reflexivity].
  destruct (HasPrefix_split _ _ E) as [rest Hkey].
  assert (Hin : Contains key pattern = true).
  { rewrite Hkey. now apply Contains_app. }
  rewrite Hin, orb_true_r. reflexivity.
Qed.

(** X19 for the pattern "action". *)
Lemma pattern_in_prefix_witness :
  Contains "transaction:" "action" = true /\
  cache.GetTransactions (wcache Samples.warmWorld) (clock Samples.warmWorld) "action"
  = cache.GetTransactions (wcache Samples.warmWorld) (clock Samples.warmWorld) "".
Proof.
  split; [reflexivity|].
  apply (pattern_in_prefix (wcache Samples.warmWorld) (clock Samples.warmWorld) "action").
  reflexivity.
Defined.

End CacheExtra.

(* ===================================================================== *)
(** * More properties of the repository and of the services over it *)
(* ===================================================================== *)

Module RepositoryExtra.
Import entities interfaces consts repository.

(** An item that has expired stays expired. *)
Lemma Expired_later (now later : Z) (it : gocache.Item) :
  now <= later -> gocache.Expired now it = true -> gocache.Expired later it = true.
Proof.
  unfold gocache.Expired. intros Hle H. apply andb_true_iff in H as [H1 H2].
  apply andb_true_iff. split; [exact H1|]. apply Z.ltb_lt in H2. apply Z.ltb_lt. lia.
Qed.

(** What a cache lists later it lists now. *)
Lemma listed_earlier (c : cache.InMemoryCache) (now later : Z) (t : Transaction) :
  now <= later ->
  In t (cache.GetTransactions c later "") -> In t (cache.GetTransactions c now "").
Proof.
  intros Hle H.
  destruct (CacheFacts.GetTransactions_listed c later t H) as (key & e & Hlook & Hfresh).
  unfold cache.GetTransactions in *. apply in_flat_map in H as [[k item] [Hin Hsel]].
  apply in_flat_map. exists (k, item). split; [|exact Hsel].
  apply list_elem_of_In, elem_of_map_to_list in Hin. unfold gocache.Items in Hin.
  apply map_lookup_filter_Some in Hin as [Hk Hf]. simpl in Hf.
  apply list_elem_of_In, elem_of_map_to_list. unfold gocache.Items.
  apply map_lookup_filter_Some. split; [exact Hk|]. simpl.
  destruct (gocache.Expired now item) eqn:E; [|reflexivity].
  rewrite (Expired_later now later item Hle E) in Hf. discriminate.
Qed.

Lemma nil_of_no_member {A} (l : list A) : (forall x, ~ In x l) -> l = [].
Proof. destruct l as [|x l]; [reflexivity|]. intros H. destruct (H x). now left. Qed.

Lemma cachedAll_nil (now : Z) (c : cache.InMemoryCache) : cachedAll now [] c = c.
Proof. reflexivity. Qed.

Lemma slicePrefix_bound {A} (l : list A) (n : Z) : 0 <= n -> len (slicePrefix l n) <= n.
Proof.
  intros Hn. unfold len, slicePrefix. pose proof (firstn_le_length (Z.to_nat n) l). lia.
Qed.

Lemma slicePrefix_in {A} (l : list A) (n : Z) (x : A) : In x (slicePrefix l n) -> In x l.
Proof.
  unfold slicePrefix. intros H. rewrite <- (firstn_skipn (Z.to_nat n) l).
  apply in_or_app. now left.
Qed.

(** [GetTransactionByID] as one case distinction. *)
Lemma GetTransactionByID_run (r : TransactionRepository) (id : string) (w : World) :
  GetTransactionByID r id w
  = match cache.GetTransaction (wcache w) (clock w) id with
    | Some transaction => ((transaction, None), w)
    | None =>
        match firstSuccess id (providersInOrder r) w with
        | (Some transaction, w') => ((transaction, None), w')
        | (None, w') => ((zeroTransaction, Some (notFound id)), w')
        end
    end.
Proof.
  unfold GetTransactionByID, bind, cache_GetTransaction. simpl.
  destruct (cache.GetTransaction (wcache w) (clock w) id); [reflexivity|].
  destruct r as [[s|] [v|] [z|]]; simpl;
    unfold tryProvider, bind, call, ret, cache_SetTransaction; simpl;
    repeat match goal with
           | |- context [result ?x] => destruct (result x); simpl
           end; reflexivity.
Qed.

(** A successful look-up at the adapters changes one key of the cache. *)
Lemma firstSuccess_items (id : string) (providers : list (string * option Transactions)) :
  forall (w w' : World) (t : Transaction),
    firstSuccess id providers w = (Some t, w') ->
    gocache.items (wcache w')
    = <[cache.transactionKey (ID t) := cachedFor24h (clock w') t]> (gocache.items (wcache w)).
Proof.
  induction providers as [|[source [c|]] rest IH]; intros w w' t H; simpl in H.
  - discriminate.
  - destruct (result (interfaces.GetTransactionByID c id)) as [t0|e].
    + injection H as <- <-. reflexivity.
    + apply IH in H. exact H.
  - now apply IH in H.
Qed.

Section Sorting.
Variable sort_Slice : (Transaction -> Transaction -> bool) -> list Transaction -> list Transaction.
Hypothesis sort_Slice_sorts : sortsSlices sort_Slice.

(** [GetTransactions] as one case distinction: the refresh runs when
    the cache lists nothing, and the result is read from the cache. *)
Lemma GetTransactions_run (r : TransactionRepository) (limit : Z) (w : World) :
  let w' := match cached w with [] => snd (RefreshCache r w) | _ => w end in
  GetTransactions sort_Slice r limit w
  = ((slicePrefix (sort_Slice newestFirst (cached w')) (clampLimit limit), None), w').
Proof.
  unfold GetTransactions. destruct (cached w) as [|t l] eqn:E; cbv zeta.
  - rewrite (RepositoryFacts.GetTransactionsWith_cold sort_Slice sort_Slice_sorts _ _ _ E).
    now rewrite RepositoryFacts.RefreshCache_run.
  - rewrite (RepositoryFacts.GetTransactionsWith_warm sort_Slice sort_Slice_sorts);
      [now rewrite E | now rewrite E].
Qed.

(** X20. [GetTransactions] never returns an error: the refresh it may
    run cannot fail.  It returns at most as many transactions as the
    clamped limit, which is at most 1000, and every one of them is in the
    cache of the world it leaves. *)
Theorem get_transactions_never_fails (r : TransactionRepository) (limit : Z) (w : World) :
  let res := GetTransactions sort_Slice r limit w in
  snd (fst res) = None /\
  len (fst (fst res)) <= clampLimit limit <= 1000 /\
  (forall t, In t (fst (fst res)) -> In t (cached (snd res))).
Proof.
  cbv zeta. rewrite GetTransactions_run. cbv zeta. simpl fst. simpl snd.
  pose proof (RepositoryFacts.clampLimit_range limit) as Hrange.
  split; [reflexivity|]. split.
  - split; [apply slicePrefix_bound; lia | lia].
  - intros t Hin. apply slicePrefix_in in Hin.
    destruct (sort_Slice_sorts newestFirst
                (cached match cached w with [] => snd (RefreshCache r w) | _ => w end))
      as [Hperm _].
    eapply Permutation_in; eauto.
Qed.

(** X21. When the cache lists nothing and no provider delivers
    anything, [GetTransactions] returns the empty list and no error,
    after asking every configured provider; the cache is as it was.  The
    providers take no negative time. *)
Theorem nothing_available (r : TransactionRepository) (limit : Z) (w : World) :
  cached w = [] ->
  refreshFetched r = [] ->
  0 <= refreshElapsed r ->
  GetTransactions sort_Slice r limit w
  = (([], None),
     mkWorld (wcache w) (clock w + refreshElapsed r) (calls w ++ refreshCalls r)).
Proof.
  intros Hcold Hnone Htime. rewrite GetTransactions_run, Hcold. cbv zeta.
  rewrite RepositoryFacts.RefreshCache_run, Hnone, cachedAll_nil. simpl snd.
  assert (Hempty : cached (mkWorld (wcache w) (clock w + refreshElapsed r)
                                   (calls w ++ refreshCalls r)) = []).
  { apply nil_of_no_member. intros t Hin. unfold cached in Hin. simpl in Hin.
    apply (listed_earlier (wcache w) (clock w)) in Hin; [|lia].
    unfold cached in Hcold. rewrite Hcold in Hin. destruct Hin. }
  rewrite Hempty.
  assert (Hsorted : sort_Slice newestFirst [] = []).
  { destruct (sort_Slice_sorts newestFirst []) as [Hperm _].
    symmetry in Hperm. now apply Permutation_nil in Hperm. }
  rewrite Hsorted. unfold slicePrefix. now rewrite firstn_nil.
Qed.

(** After a refresh in which a provider delivered something,
    [GetTransactions] answers from the cache: no provider is asked and
    the world stays as the refresh left it. *)
Lemma served_from_cache_after_refresh (r : TransactionRepository) (limit : Z)
    (w : World) :
  refreshFetched r <> [] ->
  let w1 := snd (RefreshCache r w) in
  GetTransactions sort_Slice r limit w1
  = ((slicePrefix (sort_Slice newestFirst (cached w1)) (clampLimit limit), None), w1).
Proof.
  intros Hsome w1.
  assert (Hwarm : cached w1 <> []).
  { destruct (refreshFetched r) as [|t l] eqn:E; [contradiction|].
    destruct (RepositoryFacts.refreshed_is_cached r w t) as (t' & Hin & _).
    { rewrite E. now left. }
    fold w1 in Hin. intros Hnil. rewrite Hnil in Hin. destruct Hin. }
  unfold GetTransactions.
  apply (RepositoryFacts.GetTransactionsWith_warm sort_Slice sort_Slice_sorts).
  exact Hwarm.
Qed.

End Sorting.

(** X23. A transaction that [GetTransactionByID] had to ask a provider
    for is cached under the id the provider gave it: a look-up of that id
    is answered from the cache, with no provider asked.  When the provider
    gave it another id than the one asked for, the id asked for is still
    not in the cache. *)
Theorem by_id_caches_under_returned_id (r : TransactionRepository) (id : string)
    (w w' : World) (t : Transaction) :
  gocache.items (wcache w) !! cache.transactionKey id = None ->
  GetTransactionByID r id w = ((t, None), w') ->
  GetTransactionByID r (ID t) w' = ((t, None), w') /\
  (ID t <> id -> cache.GetTransaction (wcache w') (clock w') id = None).
Proof.
  intros Hcold Hget. rewrite GetTransactionByID_run in Hget.
  assert (Hmiss : cache.GetTransaction (wcache w) (clock w) id = None).
  { unfold cache.GetTransaction, gocache.Get. now rewrite Hcold. }
  rewrite Hmiss in Hget.
  destruct (firstSuccess id (providersInOrder r) w) as [[t0|] w0] eqn:E; [|discriminate].
  injection Hget as -> ->.
  destruct (RepositoryFacts.firstSuccess_found _ _ _ _ _ E) as [_ Hhit].
  split.
  - rewrite GetTransactionByID_run, Hhit. reflexivity.
  - intros Hne. unfold cache.GetTransaction, gocache.Get.
    rewrite (firstSuccess_items _ _ _ _ _ E), lookup_insert_ne, Hcold; [reflexivity|].
    intros H. apply CacheFacts.transactionKey_inj in H. contradiction.
Qed.

(** X21 at the cold sample world and a repository whose providers are
    down. *)
Lemma nothing_available_witness :
  sortsSlices (@Samples.insertionSort Transaction) /\
  cached Samples.coldWorld = [] /\
  refreshFetched Samples.downRepository = [] /\
  0 <= refreshElapsed Samples.downRepository /\
  GetTransactions (@Samples.insertionSort Transaction) Samples.downRepository 25
                  Samples.coldWorld
  = (([], None),
     mkWorld (wcache Samples.coldWorld) 1010
             [CallGetLatestTransactions "stripe" 100; CallGetLatestTransactions "zettle" 100]).
Proof.
  split; [apply RepositoryFacts.insertionSort_sortsSlices|].
  split; [reflexivity|]. split; [reflexivity|]. split; [vm_compute; discriminate|].
  apply (nothing_available (@Samples.insertionSort Transaction)
           RepositoryFacts.insertionSort_sortsSlices Samples.downRepository 25
           Samples.coldWorld);
    [reflexivity | reflexivity | vm_compute; discriminate].
Defined.

(** X20 at the cold sample world. *)
Lemma get_transactions_never_fails_witness :
  sortsSlices (@Samples.insertionSort Transaction) /\
  snd (fst (GetTransactions (@Samples.insertionSort Transaction) Samples.sampleRepository
                            5000 Samples.coldWorld)) = None /\
  len (fst (fst (GetTransactions (@Samples.insertionSort Transaction)
                                 Samples.sampleRepository 5000 Samples.coldWorld))) <= 1000.
Proof.
  split; [apply RepositoryFacts.insertionSort_sortsSlices|].
  destruct (get_transactions_never_fails (@Samples.insertionSort Transaction)
              RepositoryFacts.insertionSort_sortsSlices Samples.sampleRepository 5000
              Samples.coldWorld) as (Herr & [Hlen Hmax] & _).
  split; [exact Herr | exact (Z.le_trans _ _ _ Hlen Hmax)].
Defined.

(** X23 at the sample repository: the transaction known to vipps. *)
Lemma by_id_caches_under_returned_id_witness :
  gocache.items (wcache Samples.coldWorld) !! cache.transactionKey "vipps_1" = None /\
  fst (GetTransactionByID Samples.sampleRepository "vipps_1" Samples.coldWorld)
    = (Samples.tx1, None) /\
  GetTransactionByID Samples.sampleRepository "vipps_1"
    (snd (GetTransactionByID Samples.sampleRepository "vipps_1" Samples.coldWorld))
  = ((Samples.tx1, None),
     snd (GetTransactionByID Samples.sampleRepository "vipps_1" Samples.coldWorld)).
Proof.
  split; [reflexivity|]. split; [reflexivity|].
  apply (by_id_caches_under_returned_id Samples.sampleRepository "vipps_1"
           Samples.coldWorld
           (snd (GetTransactionByID Samples.sampleRepository "vipps_1" Samples.coldWorld))
           Samples.tx1);
    reflexivity.
Defined.

End RepositoryExtra.

Module ServicesExtra.
Import entities interfaces consts.

Lemma enrich_sameUnifiedFields (PriceService : option prices.PriceService)
    (t : Transaction) :
  services.sameUnifiedFields (services.enrichTransactionWithProduct PriceService t) t.
Proof.
  unfold services.enrichTransactionWithProduct, services.sameUnifiedFields.
  destruct PriceService as [ps|]; [|repeat split; reflexivity].
  destruct (prices.FindBestProductMatch ps (Amount t) (Description t));
    cbn; repeat split; reflexivity.
Qed.

(** X24. Enriching twice is enriching once: the match depends on the
    amount and the description only, which the enrichment leaves as they
    are.  This holds for one transaction and for a slice. *)
Theorem enrich_idempotent (PriceService : option prices.PriceService)
    (t : Transaction) (transactions : list Transaction) :
  services.enrichTransactionWithProduct PriceService
    (services.enrichTransactionWithProduct PriceService t)
  = services.enrichTransactionWithProduct PriceService t /\
  services.enrichTransactionsWithProducts PriceService
    (services.enrichTransactionsWithProducts PriceService transactions)
  = services.enrichTransactionsWithProducts PriceService transactions.
Proof.
  assert (H : forall x,
             services.enrichTransactionWithProduct PriceService
               (services.enrichTransactionWithProduct PriceService x)
             = services.enrichTransactionWithProduct PriceService x).
  { intros x. unfold services.enrichTransactionWithProduct.
    destruct PriceService as [ps|]; [|reflexivity].
    destruct (prices.FindBestProductMatch ps (Amount x) (Description x)) as [p|] eqn:E.
    - cbn. now rewrite E.
    - now rewrite E. }
  split; [apply H|].
  rewrite !EnrichFacts.enrichTransactionsWithProducts_pointwise, List.map_map.
  apply List.map_ext. exact H.
Qed.

Section Sorting.
Variable sort_Slice : (Transaction -> Transaction -> bool) -> list Transaction -> list Transaction.
Hypothesis sort_Slice_sorts : repository.sortsSlices sort_Slice.

(** X25. The service returns what the repository returns, each
    transaction enriched: the same number of transactions with the same
    ids in the same order, never an error, and the world the repository
    leaves, so that the cache holds the transactions as the providers
    delivered them and the enrichment is computed at every read. *)
Theorem service_enriches_repository_result (PriceService : option prices.PriceService)
    (r : repository.TransactionRepository) (limit : Z) (w : World) :
  let res := repository.GetTransactions sort_Slice r limit w in
  let out := List.map (services.enrichTransactionWithProduct PriceService) (fst (fst res)) in
  services.GetTransactions sort_Slice PriceService r limit w = ((out, None), snd res) /\
  List.map ID out = List.map ID (fst (fst res)) /\
  Forall2 services.sameUnifiedFields out (fst (fst res)).
Proof.
  cbv zeta. split; [|split].
  - unfold services.GetTransactions, bind.
    rewrite (RepositoryExtra.GetTransactions_run sort_Slice sort_Slice_sorts). cbv zeta.
    simpl. unfold ret. now rewrite EnrichFacts.enrichTransactionsWithProducts_pointwise.
  - rewrite List.map_map. apply List.map_ext. intros t.
    apply (enrich_sameUnifiedFields PriceService t).
  - induction (fst (fst (repository.GetTransactions sort_Slice r limit w))) as [|t l IH];
      simpl; constructor; [apply enrich_sameUnifiedFields | exact IH].
Qed.

End Sorting.



(** X25 at the cold sample world with the price list of the tests. *)
Lemma service_enriches_repository_result_witness :
  repository.sortsSlices (@Samples.insertionSort Transaction) /\
  List.map ID
    (fst (fst (services.GetTransactions (@Samples.insertionSort Transaction)
                 (Some Samples.testPrices) Samples.sampleRepository 2 Samples.coldWorld)))
  = List.map ID
      (fst (fst (repository.GetTransactions (@Samples.insertionSort Transaction)
                   Samples.sampleRepository 2 Samples.coldWorld))).
Proof.
  split; [apply RepositoryFacts.insertionSort_sortsSlices|].
  destruct (service_enriches_repository_result (@Samples.insertionSort Transaction)
              RepositoryFacts.insertionSort_sortsSlices (Some Samples.testPrices)
              Samples.sampleRepository 2 Samples.coldWorld) as (Hget & Hids & _).
  exact (eq_trans (f_equal (fun res => List.map ID (fst (fst res))) Hget) Hids).
Defined.

End ServicesExtra.

(* ===================================================================== *)
(** * Properties of roles, of the role service and of the authorization *)
(* ===================================================================== *)

Module RolesExtra.
Import Strings roles services middlewares.

(** The three roles are the valid ones. *)
Lemma IsValid_cases (r : Role) :
  IsValid r = true -> r = RoleAdmin \/ r = RoleUser \/ r = RoleNoAccess.
Proof.
  unfold IsValid. intros H.
  apply orb_true_iff in H as [H|H]; [apply orb_true_iff in H as [H|H]|];
    apply String.eqb_eq in H; auto.
Qed.

Lemma getRoleLevel_valid (r : Role) : (0 <? getRoleLevel r) = IsValid r.
Proof.
  unfold getRoleLevel, IsValid.
  destruct (String.eqb r RoleAdmin); [reflexivity|].
  destruct (String.eqb r RoleUser); [reflexivity|].
  now destruct (String.eqb r RoleNoAccess).
Qed.

Lemma getRoleLevel_range (r : Role) : 0 <= getRoleLevel r <= 3.
Proof.
  unfold getRoleLevel.
  destruct (String.eqb r RoleAdmin); [lia|].
  destruct (String.eqb r RoleUser); [lia|].
  destruct (String.eqb r RoleNoAccess); lia.
Qed.

(** A role that is not one of the three has no permission. *)
Lemma invalid_no_permission (r : Role) (p : Permission) :
  IsValid r = false -> HasPermission r p = false.
Proof.
  unfold IsValid, HasPermission, rolePermissions, RolePermissions. intros H.
  apply orb_false_iff in H as [H H3]. apply orb_false_iff in H as [H1 H2].
  cbn [List.find fst].
  rewrite (String.eqb_sym RoleAdmin r), H1, (String.eqb_sym RoleUser r), H2,
    (String.eqb_sym RoleNoAccess r), H3.
  reflexivity.
Qed.

Lemma existsb_incl {A} (f : A -> bool) (l1 l2 : list A) :
  (forall x, In x l1 -> In x l2) -> existsb f l1 = true -> existsb f l2 = true.
Proof.
  intros Hsub H. apply existsb_exists in H as (x & Hin & Hf).
  apply existsb_exists. exists x. split; [now apply Hsub | exact Hf].
Qed.

(** X27. The levels of [getRoleLevel] order the roles by what they may
    do: a role of a level at least that of another role has every
    permission of the other role. *)
Theorem higher_level_more_permissions (r1 r2 : Role) (p : Permission) :
  getRoleLevel r1 <= getRoleLevel r2 ->
  HasPermission r1 p = true ->
  HasPermission r2 p = true.
Proof.
  intros Hlevel Hp.
  destruct (IsValid r1) eqn:V1; [|now rewrite invalid_no_permission in Hp].
  assert (V2 : IsValid r2 = true).
  { rewrite <- getRoleLevel_valid in V1 |- *.
    apply Z.ltb_lt in V1. apply Z.ltb_lt. lia. }
  apply IsValid_cases in V1, V2.
  destruct V1 as [-> | [-> | ->]]; destruct V2 as [-> | [-> | ->]];
    try exact Hp; try (vm_compute in Hlevel; now contradiction Hlevel);
    try discriminate Hp.
  unfold HasPermission in *. cbn [rolePermissions] in *.
  revert Hp. apply existsb_incl. intros x Hx.
  repeat (destruct Hx as [<- | Hx]; [cbn; tauto|]). destruct Hx.
Qed.

(** X27 for the roles user and admin. *)
Lemma higher_level_more_permissions_witness :
  getRoleLevel RoleUser <= getRoleLevel RoleAdmin /\
  HasPermission RoleUser PermissionReadTransactions = true /\
  HasPermission RoleAdmin PermissionReadTransactions = true.
Proof.
  assert (H1 : getRoleLevel RoleUser <= getRoleLevel RoleAdmin) by (vm_compute; discriminate).
  assert (H2 : HasPermission RoleUser PermissionReadTransactions = true) by reflexivity.
  split; [exact H1|]. split; [exact H2|].
  exact (higher_level_more_permissions RoleUser RoleAdmin PermissionReadTransactions H1 H2).
Defined.

(** X28. A role that is not one of the three roles fails open where it
    is the minimum role asked for, and where the check is [RequireAccess]:
    [RequireMinimumRole] with such a role lets every user pass, and
    [RequireAccess] lets a user with such a role pass, while
    [RequirePermission] and [RequireMinimumRole] with a valid role turn
    that user away.  The comparison of roles is by the exact string. *)
Theorem unknown_role_fails_open (role : Role) :
  IsValid role = false ->
  (forall user, RequireMinimumRole role (Some user) = Next) /\
  (forall user, Role_ user = role ->
     RequireAccess (Some user) = Next /\
     (forall permission,
        RequirePermission permission (Some user)
        = Respond StatusForbidden "Insufficient permissions") /\
     (forall minimumRole, IsValid minimumRole = true ->
        RequireMinimumRole minimumRole (Some user)
        = Respond StatusForbidden "Insufficient permissions")).
Proof.
  intros Hrole.
  assert (Hlevel : getRoleLevel role = 0).
  { pose proof (getRoleLevel_valid role) as H. rewrite Hrole in H.
    apply Z.ltb_ge in H. pose proof (getRoleLevel_range role). lia. }
  split.
  - intros user. unfold RequireMinimumRole. rewrite Hlevel.
    pose proof (getRoleLevel_range (Role_ user)) as Hr.
    replace (getRoleLevel (Role_ user) <? 0) with false; [reflexivity|].
    symmetry. apply Z.ltb_ge. lia.
  - intros user Hu. split; [|split].
    + unfold RequireAccess, HasAccess. rewrite Hu.
      unfold IsValid in Hrole. apply orb_false_iff in Hrole as [_ ->]. reflexivity.
    + intros permission. unfold RequirePermission, UserHasPermission.
      now rewrite Hu, invalid_no_permission.
    + intros minimumRole Hmin. unfold RequireMinimumRole. rewrite Hu, Hlevel.
      rewrite <- getRoleLevel_valid in Hmin. now rewrite Hmin.
Qed.

(** X28 for the role "Admin", which is not the role "admin". *)
Lemma unknown_role_fails_open_witness :
  IsValid "Admin" = false /\
  RequireMinimumRole "Admin" (Some (mkUser "1" "guest@example.com" "" "" [] true RoleNoAccess))
  = Next.
Proof.
  split; [reflexivity|].
  apply (unknown_role_fails_open "Admin"). reflexivity.
Defined.

(** The roles the map of assignments holds are valid. *)
Lemma Reachable_valid (rs : RoleService) :
  Reachable rs -> map_Forall (fun _ role => IsValid role = true) (userRoles rs).
Proof.
  induction 1 as [a u | rs email role _ IH | rs email _ IH | rs email _ IH | rs email _ IH].
  - apply map_Forall_empty.
  - unfold SetUserRole. destruct (IsValid role) eqn:V; [|exact IH].
    simpl. now apply map_Forall_insert_2.
  - simpl. now apply map_Forall_delete.
  - exact IH.
  - exact IH.
Qed.

Lemma groupRole_valid (groups : list string) : IsValid (groupRole groups) = true.
Proof.
  induction groups as [|g l IH]; [reflexivity|]. simpl.
  destruct (_ || _); [reflexivity|]. destruct (_ || _); [reflexivity|].
  destruct (_ || _); [reflexivity | exact IH].
Qed.

(** X29. The role service only hands out valid roles: for a role
    service made by [NewRoleService] and changed by its methods in any
    way, the role [GetUserRole] gives a user is one of admin, user and
    no_access, since [SetUserRole] ignores any other role. *)
Theorem assigned_role_is_valid (rs : RoleService) (user : User) :
  Reachable rs ->
  IsValid (GetUserRole rs user) = true.
Proof.
  intros Hrs. unfold GetUserRole.
  destruct (isAdminEmail rs (Email user)); [reflexivity|].
  destruct (isUserEmail rs (Email user)); [reflexivity|].
  destruct (userRoles rs !! Email user) as [role|] eqn:E.
  - exact (Reachable_valid rs Hrs _ _ E).
  - apply groupRole_valid.
Qed.

(** X29 after an attempt to assign a role that does not exist: the user
    keeps the role of the groups. *)
Lemma assigned_role_is_valid_witness :
  Reachable (SetUserRole (NewRoleService "boss@example.com" "") "guest@example.com" "root") /\
  IsValid (GetUserRole
             (SetUserRole (NewRoleService "boss@example.com" "") "guest@example.com" "root")
             (mkUser "1" "guest@example.com" "" "" ["Users"] true RoleUser)) = true.
Proof.
  assert (H : Reachable (SetUserRole (NewRoleService "boss@example.com" "")
                                     "guest@example.com" "root")).
  { apply reach_SetUserRole, reach_NewRoleService. }
  split; [exact H|].
  exact (assigned_role_is_valid _ (mkUser "1" "guest@example.com" "" "" ["Users"] true RoleUser)
           H).
Defined.

(** X30. An assignment made with [SetUserRole] counts for a user whose
    email is in neither list, under the exact email only: the valid role
    set for the email of the user is the role of the user, whatever the
    groups are; removing it gives back the role of the groups; an invalid
    role and a role set for another email change nothing. *)
Theorem set_user_role_round_trip (rs : RoleService) (user : User) (role : Role) :
  isAdminEmail rs (Email user) = false ->
  isUserEmail rs (Email user) = false ->
  IsValid role = true ->
  GetUserRole (SetUserRole rs (Email user) role) user = role /\
  GetUserRole (RemoveUserRole (SetUserRole rs (Email user) role) (Email user)) user
    = groupRole (Groups user) /\
  (forall other, other <> Email user ->
     GetUserRole (SetUserRole rs other role) user = GetUserRole rs user) /\
  (forall invalid, IsValid invalid = false ->
     GetUserRole (SetUserRole rs (Email user) invalid) user = GetUserRole rs user).
Proof.
  intros Hadmin Huser Hvalid. unfold GetUserRole, SetUserRole, RemoveUserRole.
  rewrite Hvalid. unfold isAdminEmail, isUserEmail in *. cbn [adminEmails usersEmails userRoles].
  rewrite Hadmin, Huser. split; [|split; [|split]].
  - now rewrite lookup_insert_eq.
  - now rewrite lookup_delete_eq.
  - intros other Hne. now rewrite lookup_insert_ne.
  - intros invalid Hinv. rewrite Hinv. now rewrite Hadmin, Huser.
Qed.

(** X30 for a guest made admin by assignment. *)
Lemma set_user_role_round_trip_witness :
  isAdminEmail (NewRoleService "boss@example.com" "") "guest@example.com" = false /\
  isUserEmail (NewRoleService "boss@example.com" "") "guest@example.com" = false /\
  IsValid RoleAdmin = true /\
  GetUserRole (SetUserRole (NewRoleService "boss@example.com" "") "guest@example.com" RoleAdmin)
              (mkUser "1" "guest@example.com" "" "" ["Users"] true RoleUser)
  = RoleAdmin.
Proof.
  split; [reflexivity|]. split; [reflexivity|]. split; [reflexivity|].
  apply (set_user_role_round_trip (NewRoleService "boss@example.com" "")
           (mkUser "1" "guest@example.com" "" "" ["Users"] true RoleUser) RoleAdmin);
    reflexivity.
Defined.

Lemma Split_trailing (s : string) : In "" (tail (Split (s +:+ ",") ",")).
Proof.
  induction s as [|c s IH]; [now left|].
  change (String c s +:+ ",") with (String c (s +:+ ",")). cbn [Split].
  destruct (Ascii.eqb c ","); cbn [tail].
  - destruct (Split (s +:+ ",") ",") as [|piece pieces]; [destruct IH | now right].
  - destruct (Split (s +:+ ",") ",") as [|piece pieces]; [destruct IH | exact IH].
Qed.

Lemma In_tail {A} (x : A) (l : list A) : In x (tail l) -> In x l.
Proof. destruct l; [trivial | now right]. Qed.

(** X22. A list of admin emails that ends with a comma, or begins with
    one, has an empty entry: a user without an email is then an admin,
    whatever the groups of the user are. *)
Theorem empty_entry_makes_admin (adminEmailsStr userEmailsStr : string) (user : User) :
  Email user = "" ->
  GetUserRole (NewRoleService (adminEmailsStr +:+ ",") userEmailsStr) user = RoleAdmin /\
  GetUserRole (NewRoleService ("," +:+ adminEmailsStr) userEmailsStr) user = RoleAdmin.
Proof.
  intros Hemail.
  assert (H : forall str, str <> "" -> In "" (Split str ",") ->
                          GetUserRole (NewRoleService str userEmailsStr) user = RoleAdmin).
  { intros str Hne Hin. unfold GetUserRole, isAdminEmail, NewRoleService, readEmails.
    cbn [adminEmails]. apply String.eqb_neq in Hne. rewrite Hne, Hemail.
    replace (existsb _ _) with true; [reflexivity|].
    symmetry. apply existsb_exists. exists "". split; [|reflexivity].
    apply (in_map TrimSpace _ "") in Hin. exact Hin. }
  split.
  - apply H; [now destruct adminEmailsStr | apply In_tail, Split_trailing].
  - apply H; [discriminate | now left].
Qed.

(** X22 for the list "boss@example.com," and a user without an email
    whose groups say no_access. *)
Lemma empty_entry_makes_admin_witness :
  GetUserRole (NewRoleService "boss@example.com," "")
              (mkUser "1" "" "" "" ["no_access"] false RoleUser)
  = RoleAdmin.
Proof.
  apply (empty_entry_makes_admin "boss@example.com" ""
           (mkUser "1" "" "" "" ["no_access"] false RoleUser)).
  reflexivity.
Defined.

End RolesExtra.
